(** * KotaDB RAG pipeline example (examples/rag-pipeline/rag_demo.py)

    A shallow embedding of the chunker, the retriever, the answerer and the
    ingestion path of the RAG demo, together with the properties the design
    document states about them.

    Conventions of the embedding:
    - a Python [str] is the list of its code points ([list N]);
    - a Python [int] is a [Z]; [len] returns a [Z];
    - a Python [float] is a primitive [float];
    - Python exceptions (instances of [Exception]) are the [Raise] results of
      the [py] monad; [try: ... except Exception] is [try_except];
    - dict objects that are shared between caller and callee live in a heap
      and are passed by location;
    - [while] loops take fuel; running out of fuel is [None];
    - [print] calls are not modelled. *)

From Stdlib Require Import ZArith NArith Lia PrimFloat Ascii String DecimalString.
From stdpp Require Import base gmap strings list.

Local Open Scope Z_scope.
Set Warnings "-register-all,-inexact-float,-clear-no-such-hyp".

(* ===================================================================== *)
(** ** Python primitives used by the demo *)
(* ===================================================================== *)

Module Py.

Abbreviation pystr := (list N).

(** A string literal as a sequence of code points. *)
Definition str (s : string) : pystr :=
  (fun a => N_of_ascii a) <$> list_ascii_of_string s.

Definition len {A} (l : list A) : Z := Z.of_nat (length l).

(** [str.isspace] for one code point: the table behind [str.strip],
    [str.split] and the regular expression class [\s] on [str] patterns. *)
Definition isspace (c : N) : bool :=
  ((9 <=? c) && (c <=? 13) || (28 <=? c) && (c <=? 32) || (c =? 133)
   || (c =? 160) || (c =? 5760) || (8192 <=? c) && (c <=? 8202)
   || (c =? 8232) || (c =? 8233) || (c =? 8239) || (c =? 8287)
   || (c =? 12288))%N.

Fixpoint lstrip (s : pystr) : pystr :=
  match s with
  | c :: s' => if isspace c then lstrip s' else s
  | [] => []
  end.

Definition rstrip (s : pystr) : pystr := reverse (lstrip (reverse s)).

Definition strip (s : pystr) : pystr := rstrip (lstrip s).

(** Normalisation of one bound of a slice [l[i:j]] on a sequence of length
    [n]: a negative bound counts from the end, and the result is clamped to
    [0..n]. *)
Definition slice_bound (n i : Z) : Z :=
  let i := if i <? 0 then i + n else i in
  if i <? 0 then 0 else if n <? i then n else i.

(** [l[start:stop]] *)
Definition slice {A} (l : list A) (start stop : Z) : list A :=
  let lo := slice_bound (len l) start in
  let hi := slice_bound (len l) stop in
  take (Z.to_nat (hi - lo)) (drop (Z.to_nat lo) l).

(** [l[:stop]] *)
Definition slice_to {A} (l : list A) (stop : Z) : list A := slice l 0 stop.

(** [l[start:]] *)
Definition slice_from {A} (l : list A) (start : Z) : list A :=
  slice l start (len l).

(** [pat] occurs in [text] at offset [i]. *)
Definition matches_at (text pat : pystr) (i : nat) : bool :=
  bool_decide (take (length pat) (drop i text) = pat).

Fixpoint rfind_from (text pat : pystr) (i : nat) : Z :=
  if matches_at text pat i then Z.of_nat i
  else match i with
       | O => -1
       | S i' => rfind_from text pat i'
       end.

(** [text.rfind(pat)]: the highest offset at which [pat] occurs, or [-1]. *)
Definition rfind (text pat : pystr) : Z :=
  if (length pat <=? length text)%nat
  then rfind_from text pat (length text - length pat)
  else -1.

(** [s.startswith(prefix)] *)
Definition startswith (s prefix : pystr) : bool :=
  bool_decide (take (length prefix) s = prefix).

(** [s.split()]: the maximal runs of non-whitespace characters. *)
Fixpoint split_ws_aux (cur s : pystr) : list pystr :=
  match s with
  | [] => match cur with [] => [] | _ => [cur] end
  | c :: s' =>
      if isspace c
      then match cur with
           | [] => split_ws_aux [] s'
           | _ => cur :: split_ws_aux [] s'
           end
      else split_ws_aux (cur ++ [c]) s'
  end.

Definition split (s : pystr) : list pystr := split_ws_aux [] s.

(** [sep.join(parts)] *)
Fixpoint join (sep : pystr) (parts : list pystr) : pystr :=
  match parts with
  | [] => []
  | [p] => p
  | p :: ps => p ++ sep ++ join sep ps
  end.

(** [re.sub(r'\s+', ' ', s)]: every maximal run of whitespace becomes one
    space. [in_run] tells that the previous character was whitespace. *)
Fixpoint collapse_ws (in_run : bool) (s : pystr) : pystr :=
  match s with
  | [] => []
  | c :: s' =>
      if isspace c
      then (if in_run then collapse_ws true s' else 32%N :: collapse_ws true s')
      else c :: collapse_ws false s'
  end.

Definition is_control (c : N) : bool := ((c <=? 31) || (c =? 127))%N.

(** [re.sub(r'[\x00-\x1f\x7f]', '', s)] *)
Definition remove_control (s : pystr) : pystr :=
  filter (fun c => is_control c = false) s.

(** The character class [[.!?]]. *)
Definition is_sentence_punct (c : N) : bool :=
  ((c =? 46) || (c =? 33) || (c =? 63))%N.

(** [re.split(r'[.!?]+', s)]: the pieces between maximal runs of sentence
    punctuation, empty pieces at either end included. *)
Fixpoint re_split_aux (cur : pystr) (in_run : bool) (s : pystr) : list pystr :=
  match s with
  | [] => [cur]
  | c :: s' =>
      if is_sentence_punct c
      then (if in_run then re_split_aux [] true s'
            else cur :: re_split_aux [] true s')
      else re_split_aux (cur ++ [c]) false s'
  end.

Definition re_split_sentences (s : pystr) : list pystr :=
  re_split_aux [] false s.

(** [str(i)] for an integer. *)
Definition str_of_int (i : Z) : pystr := str (NilZero.string_of_int (Z.to_int i)).

(** [f"{i:03d}"] for a non-negative integer: zero-padded to width 3. *)
Definition format_03d (i : Z) : pystr :=
  let d := str_of_int i in
  replicate (3 - length d) 48%N ++ d.

(** Exceptions: an instance of [Exception] carries its message. *)
Definition exn := pystr.

Inductive py (A : Type) : Type :=
| Ok (a : A)
| Raise (e : exn).
Arguments Ok {A} a.
Arguments Raise {A} e.

Definition bind {A B} (m : py A) (k : A -> py B) : py B :=
  match m with
  | Ok a => k a
  | Raise e => Raise e
  end.

(** [try: body  except Exception as e: handler(e)] *)
Definition try_except {A} (body : py A) (handler : exn -> py A) : py A :=
  match body with
  | Ok a => Ok a
  | Raise e => handler e
  end.

(** Python values that travel through metadata and JSON. *)
Inductive pyval : Type :=
| PNone
| PBool (b : bool)
| PInt (z : Z)
| PFloat (f : float)
| PStr (s : pystr)
| PList (l : list pyval)
| PDict (d : list (pystr * pyval)).

(** Lookup in the items of a dict value. *)
Fixpoint assoc_get (d : list (pystr * pyval)) (k : pystr) : option pyval :=
  match d with
  | [] => None
  | (k', v) :: d' => if bool_decide (k' = k) then Some v else assoc_get d' k
  end.

(** Truthiness of a value ([if v:]). *)
Definition truthy (v : pyval) : bool :=
  match v with
  | PNone => false
  | PBool b => b
  | PInt z => negb (z =? 0)
  | PFloat f => negb (PrimFloat.eqb f 0%float)
  | PStr s => negb (bool_decide (s = []))
  | PList l => match l with [] => false | _ => true end
  | PDict d => match d with [] => false | _ => true end
  end.

End Py.

Import Py.

(** [x ← m; k] runs [m] and, unless it raises, continues with [k]. *)
#[global] Instance py_mbind : MBind py := fun A B k m => Py.bind m k.
#[global] Instance py_mret : MRet py := fun A a => Ok a.

(* ===================================================================== *)
(** ** Dict objects and the heap *)
(* ===================================================================== *)

Abbreviation dict := (gmap pystr pyval).
Abbreviation loc := nat.

(** The dict objects that can be reached from more than one place, by
    identity: a location is an index into the heap. *)
Abbreviation heap := (list dict).

Definition alloc (h : heap) (d : dict) : heap * loc := (h ++ [d], length h).

Definition deref (h : heap) (l : loc) : dict := default ∅ (h !! l).

(** [d.update({k1: v1, ...})] on the value of a dict. *)
Definition dict_update (d : dict) (kvs : list (pystr * pyval)) : dict :=
  foldl (fun d kv => <[kv.1 := kv.2]> d) d kvs.

(** [metadata or {}]: the object itself when it is a non-empty dict, a fresh
    empty dict when it is [None] or empty. *)
Definition or_empty_dict (h : heap) (metadata : option loc) : heap * loc :=
  match metadata with
  | Some l => if bool_decide (deref h l = ∅) then alloc h ∅ else (h, l)
  | None => alloc h ∅
  end.

(* ===================================================================== *)
(** ** RAGConfig *)
(* ===================================================================== *)

Module RAGConfig.

Record t := mk {
  chunk_size : Z;
  chunk_overlap : Z;
  max_context_length : Z;
  embedding_model : pystr;
  completion_model : pystr;
  temperature : float;
  max_results : Z
}.

(** The constructor the [@dataclass] decorator generates: it stores its
    arguments. *)
Definition __init__ (chunk_size chunk_overlap max_context_length : Z)
    (embedding_model completion_model : pystr) (temperature : float)
    (max_results : Z) : py t :=
  Ok (mk chunk_size chunk_overlap max_context_length embedding_model
        completion_model temperature max_results).

(** [RAGConfig()] with the class defaults. *)
Definition default : t :=
  mk 1000 100 4000 (str "text-embedding-ada-002") (str "gpt-3.5-turbo")
     0.7%float 5.

End RAGConfig.

(* ===================================================================== *)
(** ** DocumentChunker *)
(* ===================================================================== *)

Module DocumentChunker.

Record t := mk { chunk_size : Z; overlap : Z }.

Definition __init__ (chunk_size overlap : Z) : py t :=
  Ok (mk chunk_size overlap).

(** One element of the list [chunk_document] returns. [metadata] is a
    reference: the single-chunk path stores the caller's own dict. *)
Record chunk := mk_chunk {
  content : pystr;
  metadata : loc;
  chunk_index : Z;
  chunk_count : Z
}.

Definition _clean_content (content : pystr) : pystr :=
  let content := collapse_ws false content in
  let content := remove_control content in
  strip content.

Definition sentence_endings : list pystr :=
  [str ". "; str "! "; str "? "; [46; 10]%N; [33; 10]%N; [63; 10]%N].

(** The test [pos > len(text) * 0.8] compares an integer with a double. For
    texts shorter than 2^50 characters the product is within one unit in the
    last place of 4/5 of the length and rounds to it exactly when that is an
    integer, so the test is [4 * len(text) < 5 * pos]. *)
Definition _find_sentence_boundary (text : pystr) : Z :=
  foldl (fun best_pos ending =>
           let pos := rfind text ending in
           if (best_pos <? pos) && (4 * len text <? 5 * pos)
           then pos + len ending - 1
           else best_pos)
        (-1) sentence_endings.

(** The value of [end] when the chunk is cut, for the window that starts at
    [start]. *)
Definition window_end (self : t) (content : pystr) (start : Z) : Z :=
  let end_ := start + chunk_size self in
  if end_ <? len content then
    let sentence_end := _find_sentence_boundary (slice content start end_) in
    if negb (sentence_end =? -1) then start + sentence_end + 1 else end_
  else end_.

(** The [while start < len(content)] loop. *)
Fixpoint chunk_loop (fuel : nat) (self : t) (content : pystr) (metadata : loc)
    (h : heap) (start chunk_index : Z) (chunks : list chunk)
  : heap * option (list chunk) :=
  match fuel with
  | O => (h, None)
  | S fuel =>
      if start <? len content then
        let end_ := window_end self content start in
        let chunk_content := strip (slice content start end_) in
        let '(h, chunks) :=
          match chunk_content with
          | [] => (h, chunks)
          | _ =>
              let '(h, chunk_metadata) := alloc h (deref h metadata) in
              let h :=
                alter (fun d => dict_update d
                         [(str "chunk_index", PInt chunk_index);
                          (str "start_char", PInt start);
                          (str "end_char", PInt end_)])
                      chunk_metadata h in
              (h, chunks ++ [mk_chunk chunk_content chunk_metadata chunk_index 0])
          end in
        chunk_loop fuel self content metadata h
                   (end_ - overlap self) (chunk_index + 1) chunks
      else (h, Some chunks)
  end.

Definition set_chunk_count (n : Z) (c : chunk) : chunk :=
  mk_chunk (content c) (metadata c) (chunk_index c) n.

Definition chunk_document (fuel : nat) (self : t) (h : heap)
    (content : pystr) (metadata : option loc) : heap * option (list chunk) :=
  let '(h, metadata) := or_empty_dict h metadata in
  let content := _clean_content content in
  if len content <=? chunk_size self then
    (h, Some [mk_chunk content metadata 0 1])
  else
    let '(h, r) := chunk_loop fuel self content metadata h 0 0 [] in
    (h, (fun chunks => set_chunk_count (len chunks) <$> chunks) <$> r).

End DocumentChunker.

(* ===================================================================== *)
(** ** RAGPipeline *)
(* ===================================================================== *)

Module RAGPipeline.

(** A document as the store returns it: a dict whose keys may be absent. *)
Record document := mk_document {
  doc_title : option pystr;
  doc_content : option pystr;
  doc_tags : option (list pystr)
}.

(** One element of a search result. The semantic path adds the key
    ['metadata'], the lexical fallback does not. *)
Record hit := mk_hit {
  hit_document : document;
  similarity : float;
  hit_metadata : option pyval
}.

(** The calls made on a [QueryBuilder], in order. *)
Inductive query_op :=
| Text (q : pystr)
| TagFilter (tag : pystr)
| Limit (n : Z).

(** The dict a query returns; the key ['documents'] may be absent. *)
Record query_result := mk_query_result {
  documents : option (list document)
}.

(** The calls made on a [DocumentBuilder], in order. *)
Inductive builder_op :=
| Path (p : pystr)
| Title (t : pystr)
| Content (c : pystr)
| AddTag (tag : pystr).

(** What the pipeline consumes from outside this file: the embedding
    backend, the store client with its builders, the JSON codec, the numeric
    library behind the similarity, the optional generative backend, the
    clock, and the Unicode tables of [str.lower] and [\w]. Each call that can
    fail returns in the [py] monad. *)
Record env := mk_env {
  embed_text : pystr -> py (list float);
  query_with_builder : list query_op -> py query_result;
  insert_with_builder : list builder_op -> py pystr;
  json_loads : pystr -> py pyval;
  json_dumps : dict -> py pystr;
  _cosine_similarity : list float -> pyval -> py float;
  (** [Some] when [HAS_OPENAI] holds and [OPENAI_API_KEY] is set: model,
      prompt and temperature to the text of the first choice. *)
  openai_chat_completion : option (pystr -> pystr -> float -> py pystr);
  (** [ValidatedPath(p)]: the path, or a validation error. *)
  ValidatedPath : pystr -> py pystr;
  now_isoformat : pystr;
  lower : pystr -> pystr;
  is_word : N -> bool
}.

Record t := mk {
  config : RAGConfig.t;
  chunker : DocumentChunker.t;
  knowledge_base_path : pystr
}.

Definition __init__ (config : option RAGConfig.t) : py t :=
  let config := default RAGConfig.default config in
  chunker ← DocumentChunker.__init__ (RAGConfig.chunk_size config)
                                     (RAGConfig.chunk_overlap config);
  Ok (mk config chunker (str "/knowledge")).

Section methods.

Variable E : env.
Variable self : t.

(** The sentinel score of a lexical hit. *)
Definition sentinel : float := 0.5%float.

Definition _fallback_text_search (query : pystr) (max_results : Z)
  : py (list hit) :=
  try_except
    (results ← query_with_builder E
       [Text query; TagFilter (str "knowledge-base"); Limit max_results];
     let chunks := default [] (documents results) in
     Ok ((fun chunk => mk_hit chunk sentinel None) <$> chunks))
    (fun e => Ok []).

(** [metadata.get('embedding', [])]; a value that is not a dict has no
    [get]. *)
Definition get_embedding (metadata : pyval) : py pyval :=
  match metadata with
  | PDict d => Ok (default (PList []) (assoc_get d (str "embedding")))
  | _ => Raise (str "AttributeError")
  end.

(** The body of the [try] inside the loop over the candidates: the entry to
    append, or [None] where the source says [continue] or skips the
    append. *)
Definition score_chunk (query_embedding : list float) (chunk : document)
  : py (option hit) :=
  let metadata_tags :=
    filter (fun tag => startswith tag (str "metadata:") = true)
           (default [] (doc_tags chunk)) in
  match metadata_tags with
  | [] => Ok None
  | tag :: _ =>
      let metadata_str := slice_from tag 9 in
      metadata ← json_loads E metadata_str;
      chunk_embedding ← get_embedding metadata;
      if truthy chunk_embedding then
        similarity ← _cosine_similarity E query_embedding chunk_embedding;
        Ok (Some (mk_hit chunk similarity (Some metadata)))
      else Ok None
  end.

(** [for chunk in chunks: try: ... except Exception: continue] *)
Fixpoint collect_similarities (query_embedding : list float)
    (chunks : list document) (similarities : list hit) : py (list hit) :=
  match chunks with
  | [] => Ok similarities
  | chunk :: chunks =>
      similarities ←
        try_except
          (r ← score_chunk query_embedding chunk;
           Ok (match r with
               | Some entry => similarities ++ [entry]
               | None => similarities
               end))
          (fun e => Ok similarities);
      collect_similarities query_embedding chunks similarities
  end.

(** [similarities.sort(key=lambda x: x['similarity'], reverse=True)]: the
    stable descending sort (for keys that are not NaN). *)
Fixpoint insert_by_similarity (x : hit) (l : list hit) : list hit :=
  match l with
  | [] => [x]
  | y :: l' =>
      if PrimFloat.ltb (similarity x) (similarity y)
      then y :: insert_by_similarity x l'
      else x :: l
  end.

Definition sort_by_similarity (l : list hit) : list hit :=
  foldr insert_by_similarity [] l.

(** [max_results or self.config.max_results] *)
Definition max_results_or_default (max_results : option Z) : Z :=
  match max_results with
  | Some n => if n =? 0 then RAGConfig.max_results (config self) else n
  | None => RAGConfig.max_results (config self)
  end.

Definition semantic_search (query : pystr) (max_results : option Z)
  : py (list hit) :=
  let max_results := max_results_or_default max_results in
  try_except
    (query_embedding ← embed_text E query;
     results ← query_with_builder E
       [TagFilter (str "knowledge-base"); TagFilter (str "chunk"); Limit 1000];
     let chunks := default [] (documents results) in
     match chunks with
     | [] => Ok []
     | _ =>
         similarities ← collect_similarities query_embedding chunks [];
         let similarities := sort_by_similarity similarities in
         Ok (slice_to similarities max_results)
     end)
    (fun e => _fallback_text_search query max_results).

(** *** Answering *)

Definition insufficient_information : pystr :=
  str "I don't have enough information in the knowledge base to answer this question.".

Definition unanswerable : pystr :=
  str "The knowledge base contains related information, but I cannot generate a specific answer without AI capabilities.".

Definition answer_label : pystr := str "Based on the knowledge base: ".

(** [set(s.lower().split())] *)
Definition word_set (s : pystr) : gset pystr :=
  list_to_set (split (lower E s)).

(** The loop that fills [best_sentences]. *)
Definition collect_best_sentences (question_words : gset pystr)
    (context_sentences : list pystr) : list (pystr * nat) :=
  foldl (fun best_sentences sentence =>
           let sentence := strip sentence in
           if len sentence <? 10 then best_sentences
           else
             let sentence_words := word_set sentence in
             let overlap := size (question_words ∩ sentence_words) in
             if (0 <? overlap)%nat
             then best_sentences ++ [(sentence, overlap)]
             else best_sentences)
        [] context_sentences.

(** [best_sentences.sort(key=lambda x: x[1], reverse=True)] *)
Fixpoint insert_by_overlap (x : pystr * nat) (l : list (pystr * nat))
  : list (pystr * nat) :=
  match l with
  | [] => [x]
  | y :: l' =>
      if (x.2 <? y.2)%nat then y :: insert_by_overlap x l' else x :: l
  end.

Definition sort_by_overlap (l : list (pystr * nat)) : list (pystr * nat) :=
  foldr insert_by_overlap [] l.

Definition _generate_fallback_answer (question context : pystr) : pystr :=
  match strip context with
  | [] => insufficient_information
  | _ =>
      let question_words := word_set question in
      let context_sentences := re_split_sentences context in
      let best_sentences :=
        collect_best_sentences question_words context_sentences in
      match sort_by_overlap best_sentences with
      | best :: _ => answer_label ++ best.1
      | [] => unanswerable
      end
  end.

Definition prompt_of (question context : pystr) : pystr :=
  str "Based on the following context, please answer the question. If the context doesn't contain enough information, say so."
  ++ [10; 10]%N ++ str "Context:" ++ [10]%N ++ context ++ [10; 10]%N
  ++ str "Question: " ++ question ++ [10; 10]%N ++ str "Answer:".

Definition _generate_openai_answer
    (chat : pystr -> pystr -> float -> py pystr)
    (question context : pystr) : py pystr :=
  try_except
    (let prompt := prompt_of question context in
     response ← chat (RAGConfig.completion_model (config self)) prompt
                     (RAGConfig.temperature (config self));
     Ok (strip response))
    (fun e => Ok (_generate_fallback_answer question context)).

(** The dict [generate_answer] returns. [list(set(sources))] lists the set
    in an unspecified order: the model keeps the set. *)
Record answer := mk_answer {
  answer_text : pystr;
  context_used : pystr;
  sources : gset pystr;
  context_docs_count : Z
}.

(** The loop that fills [context_parts] and [sources]. *)
Definition collect_context (context_docs : list hit)
  : list pystr * list pystr :=
  foldl (fun '(context_parts, sources) doc_info =>
           let doc := hit_document doc_info in
           let content := strip (default [] (doc_content doc)) in
           let title := default (str "Unknown") (doc_title doc) in
           match content with
           | [] => (context_parts, sources)
           | _ =>
               (context_parts
                  ++ [str "From '" ++ title ++ str "':" ++ [10]%N ++ content],
                sources ++ [title])
           end)
        ([], []) context_docs.

Definition generate_answer (question : pystr)
    (context_docs : option (list hit)) : py answer :=
  context_docs ←
    match context_docs with
    | None => semantic_search question None
    | Some docs => Ok docs
    end;
  let '(context_parts, sources) := collect_context context_docs in
  let context := join [10; 10]%N (slice_to context_parts 3) in
  answer ←
    match openai_chat_completion E with
    | Some chat => _generate_openai_answer chat question context
    | None => Ok (_generate_fallback_answer question context)
    end;
  Ok (mk_answer answer context (list_to_set sources) (len context_docs)).

Definition ask_question (question : pystr) : py answer :=
  context_docs ← semantic_search question None;
  generate_answer question (Some context_docs).

(** *** Ingestion *)

(** [source or 'unknown'] *)
Definition source_or_unknown (source : option pystr) : pystr :=
  match source with
  | Some (c :: s) => c :: s
  | _ => str "unknown"
  end.

(** [re.sub(r'[^\w\-_]', '_', title)] *)
Definition safe_title_of (title : pystr) : pystr :=
  (fun c => if is_word E c || (c =? 45)%N || (c =? 95)%N then c else 95%N)
    <$> title.

(** The body of the [try] inside the loop over the chunks. The builder calls
    are recorded in order and reach the store with the insert. The copy of
    the chunk's metadata is a new dict object. *)
Definition store_chunk (h : heap) (title : pystr) (source : option pystr)
    (i : Z) (chunk : DocumentChunker.chunk) : heap * py pystr :=
  match embed_text E (DocumentChunker.content chunk) with
  | Raise e => (h, Raise e)
  | Ok embedding =>
      let safe_title := safe_title_of title in
      let chunk_path :=
        knowledge_base_path self ++ str "/" ++ safe_title ++ str "/chunk_"
        ++ format_03d i ++ str ".md" in
      match ValidatedPath E chunk_path with
      | Raise e => (h, Raise e)
      | Ok path =>
          let builder :=
            [Path path;
             Title (title ++ str " - Chunk " ++ str_of_int (i + 1));
             Content (DocumentChunker.content chunk);
             AddTag (str "knowledge-base");
             AddTag (str "chunk");
             AddTag (str "source:" ++ source_or_unknown source)] in
          let '(h, chunk_metadata) :=
            alloc h (deref h (DocumentChunker.metadata chunk)) in
          let h :=
            alter (fun d => <[str "embedding" := PList (PFloat <$> embedding)]> d)
                  chunk_metadata h in
          (h,
           dumped ← json_dumps E (deref h chunk_metadata);
           insert_with_builder E
             (builder ++ [AddTag (str "metadata:" ++ dumped)]))
      end
  end.

(** [for i, chunk in enumerate(chunks): try: ... except Exception: continue] *)
Fixpoint store_chunks (h : heap) (title : pystr) (source : option pystr)
    (i : Z) (chunks : list DocumentChunker.chunk) (chunk_ids : list pystr)
  : heap * list pystr :=
  match chunks with
  | [] => (h, chunk_ids)
  | chunk :: chunks =>
      let '(h, r) := store_chunk h title source i chunk in
      let chunk_ids :=
        match r with
        | Ok chunk_id => chunk_ids ++ [chunk_id]
        | Raise e => chunk_ids
        end in
      store_chunks h title source (i + 1) chunks chunk_ids
  end.

(** The entries [ingest_document] writes into the metadata. *)
Definition ingest_entries (content : pystr) (source : option pystr)
  : list (pystr * pyval) :=
  [(str "source", PStr (source_or_unknown source));
   (str "ingested_at", PStr (now_isoformat E));
   (str "content_length", PInt (len content))].

(** Nothing between the outer [try] and the per-chunk [try] raises here, so
    the outer handler ([return []]) is not reached. The heap is returned also
    when the chunker does not come back. *)
Definition ingest_document (fuel : nat) (h : heap) (title content : pystr)
    (source : option pystr) (metadata : option loc)
  : heap * option (list pystr) :=
  let '(h, metadata) := or_empty_dict h metadata in
  let h :=
    alter (fun d => dict_update d (ingest_entries content source)) metadata h in
  let '(h, chunks) :=
    DocumentChunker.chunk_document fuel (chunker self) h content
                                   (Some metadata) in
  match chunks with
  | None => (h, None)
  | Some chunks =>
      let '(h, chunk_ids) := store_chunks h title source 0 chunks [] in
      (h, Some chunk_ids)
  end.

(** *** Statistics *)

(** The dict [get_knowledge_base_stats] returns on success. [list(sources)]
    lists the set in an unspecified order: the model keeps the set. *)
Record stats := mk_stats {
  total_chunks : Z;
  unique_sources : Z;
  total_content_length : Z;
  average_chunk_size : Z;
  stats_sources : gset pystr
}.

(** The loop over the chunks: the sources found so far and the running
    total of the content lengths. *)
Definition collect_stats (chunks : list document) : gset pystr * Z :=
  foldl (fun '(sources, total_content_length) chunk =>
           let total_content_length :=
             total_content_length + len (default [] (doc_content chunk)) in
           let sources :=
             foldl (fun sources tag =>
                      if startswith tag (str "source:")
                      then {[ slice_from tag 7 ]} ∪ sources
                      else sources)
                   sources (default [] (doc_tags chunk)) in
           (sources, total_content_length))
        (∅, 0) chunks.

(** The handler's empty dict is [None]. *)
Definition get_knowledge_base_stats : py (option stats) :=
  try_except
    (results ← query_with_builder E
       [TagFilter (str "knowledge-base"); Limit 1000];
     let chunks := default [] (documents results) in
     let '(sources, total_content_length) := collect_stats chunks in
     Ok (Some (mk_stats
                 (len chunks)
                 (Z.of_nat (size sources))
                 total_content_length
                 (match chunks with
                  | [] => 0
                  | _ => total_content_length `div` len chunks
                  end)
                 sources)))
    (fun e => Ok None).

End methods.
End RAGPipeline.

(* ===================================================================== *)
(** ** EmbeddingProvider *)
(* ===================================================================== *)

Module EmbeddingProvider.

Section provider.

(** The state of a [TfidfVectorizer]. *)
Variable vectorizer : Type.

(** What the provider consumes from outside this file. *)
Record backends := mk_backends {
  HAS_OPENAI : bool;
  HAS_SKLEARN : bool;
  (** [openai.Embedding.create(input, model)['data'][0]['embedding']] *)
  openai_embedding : pystr -> pystr -> py (list float);
  (** [TfidfVectorizer(max_features=512, stop_words='english')] *)
  new_vectorizer : vectorizer;
  (** [v.fit_transform(texts).toarray().tolist()]: the fitted vectorizer
      and the rows, or the vectorizer as the failed call left it. *)
  fit_transform : vectorizer -> list pystr ->
                  vectorizer * py (list (list float));
  (** [v.transform(texts).toarray().tolist()] *)
  transform : vectorizer -> list pystr -> py (list (list float));
  (** [hash(text)] *)
  hash : pystr -> Z;
  (** [np.random.seed(s); np.random.normal(0, 1, 384).tolist()], when the
      module [numpy] could be imported. *)
  numpy_normal : option (Z -> list float)
}.

Variable B : backends.

(** The attributes of a provider. [vectorizer] and [_is_fitted] exist only
    for the provider ["tfidf"] with scikit-learn present. *)
Record t := mk {
  provider : pystr;
  model : pystr;
  tfidf : option (vectorizer * bool)
}.

Definition __init__ (provider : pystr) (model : option pystr) : t :=
  let model :=
    match model with
    | Some (c :: m) => c :: m
    | _ => str "text-embedding-ada-002"
    end in
  if bool_decide (provider = str "openai") && HAS_OPENAI B
  then mk provider model None
  else if bool_decide (provider = str "tfidf") && HAS_SKLEARN B
  then mk provider model (Some (new_vectorizer B, false))
  else mk provider model None.

(** Without [numpy] the name [np] is unbound. *)
Definition _mock_embed (text : pystr) : py (list float) :=
  let hash_val := hash B text `mod` 2 ^ 31 in
  match numpy_normal B with
  | None => Raise (str "NameError")
  | Some normal =>
      if HAS_SKLEARN B then Ok (normal hash_val)
      else Ok (replicate 384 0%float)
  end.

Definition _openai_embed (self : t) (text : pystr) : py (list float) :=
  try_except (openai_embedding B text (model self))
             (fun e => _mock_embed text).

(** [vector.toarray()[0].tolist()]; an attribute that was never set raises. *)
Definition _tfidf_embed (self : t) (text : pystr) : py (list float) :=
  match tfidf self with
  | None => Raise (str "AttributeError")
  | Some (v, is_fitted) =>
      if negb is_fitted then _mock_embed text
      else
        rows ← transform B v [text];
        match rows with
        | row :: _ => Ok row
        | [] => Raise (str "IndexError")
        end
  end.

Definition _tfidf_embed_batch (self : t) (texts : list pystr)
  : t * py (list (list float)) :=
  match tfidf self with
  | None => (self, Raise (str "AttributeError"))
  | Some (v, is_fitted) =>
      if negb is_fitted then
        match fit_transform B v texts with
        | (v', Ok vectors) =>
            (mk (provider self) (model self) (Some (v', true)), Ok vectors)
        | (v', Raise e) =>
            (mk (provider self) (model self) (Some (v', false)), Raise e)
        end
      else (self, transform B v texts)
  end.

Definition embed_text (self : t) (text : pystr) : py (list float) :=
  if bool_decide (provider self = str "openai") && HAS_OPENAI B
  then _openai_embed self text
  else if bool_decide (provider self = str "tfidf") && HAS_SKLEARN B
  then _tfidf_embed self text
  else _mock_embed text.

(** [[self.embed_text(text) for text in texts]] *)
Fixpoint embed_each (self : t) (texts : list pystr) : py (list (list float)) :=
  match texts with
  | [] => Ok []
  | text :: texts =>
      vector ← embed_text self text;
      vectors ← embed_each self texts;
      Ok (vector :: vectors)
  end.

Definition embed_texts (self : t) (texts : list pystr)
  : t * py (list (list float)) :=
  if bool_decide (provider self = str "tfidf") && HAS_SKLEARN B
  then _tfidf_embed_batch self texts
  else (self, embed_each self texts).

End provider.

Arguments mk_backends {vectorizer}.
Arguments HAS_OPENAI {vectorizer}.
Arguments HAS_SKLEARN {vectorizer}.
Arguments openai_embedding {vectorizer}.
Arguments new_vectorizer {vectorizer}.
Arguments fit_transform {vectorizer}.
Arguments transform {vectorizer}.
Arguments hash {vectorizer}.
Arguments numpy_normal {vectorizer}.
Arguments mk {vectorizer}.
Arguments provider {vectorizer}.
Arguments model {vectorizer}.
Arguments tfidf {vectorizer}.
Arguments __init__ {vectorizer}.
Arguments _mock_embed {vectorizer}.
Arguments _openai_embed {vectorizer}.
Arguments _tfidf_embed {vectorizer}.
Arguments _tfidf_embed_batch {vectorizer}.
Arguments embed_text {vectorizer}.
Arguments embed_each {vectorizer}.
Arguments embed_texts {vectorizer}.

End EmbeddingProvider.

(* ===================================================================== *)
(** ** Vocabulary of the properties *)
(* ===================================================================== *)

(** [pat] occurs in [text] at offset [p]. *)
Definition occurs_at (text pat : pystr) (p : Z) : Prop :=
  0 <= p /\ p + len pat <= len text /\
  take (length pat) (drop (Z.to_nat p) text) = pat.

(** A sentence-ending delimiter starts at offset [p] of [text]. *)
Definition delimiter_at (text : pystr) (p : Z) : Prop :=
  exists e, e ∈ DocumentChunker.sentence_endings /\ occurs_at text e p.

(** Offset [p] lies strictly beyond four fifths of [text]. *)
Definition past_four_fifths (text : pystr) (p : Z) : Prop :=
  4 * len text < 5 * p.

(** Offset [p] lies in the trailing 20% of [text]: among the last fifth of
    its characters. *)
Definition in_trailing_fifth (text : pystr) (p : Z) : Prop :=
  4 * len text <= 5 * p.

(** A delimiter: a sentence punctuation mark followed by a character that is
    not one. *)
Definition is_ending (e : pystr) : Prop :=
  exists c1 c2, e = [c1; c2] /\ is_sentence_punct c1 = true /\
                is_sentence_punct c2 = false.

(** What the scan of [_find_sentence_boundary] knows after the endings
    [seen]: either no occurrence of them lies past four fifths, or [best] is
    one more than the rightmost such occurrence. *)
Definition boundary_inv (text : pystr) (seen : list pystr) (best : Z) : Prop :=
  (best = -1 /\
   forall e p, e ∈ seen -> occurs_at text e p -> ~ past_four_fifths text p) \/
  (exists p e, best = p + 1 /\ e ∈ seen /\ occurs_at text e p /\
               past_four_fifths text p /\
               forall e' q, e' ∈ seen -> occurs_at text e' q ->
                            past_four_fifths text q -> q <= p).

(** The cut of the window starting at [start], as the design document words
    it: when the window ends strictly inside the text and a delimiter occurs
    in its trailing 20%, the cut falls just after the rightmost such
    delimiter; when none occurs there, the cut is at [chunk_size]. *)
Definition cut_as_documented (self : DocumentChunker.t) (content : pystr)
    (start : Z) : Prop :=
  let window :=
    slice content start (start + DocumentChunker.chunk_size self) in
  start + DocumentChunker.chunk_size self < len content ->
  (forall p, delimiter_at window p -> in_trailing_fifth window p ->
     (forall q, delimiter_at window q -> in_trailing_fifth window q -> q <= p) ->
     DocumentChunker.window_end self content start = start + p + 2) /\
  ((forall p, delimiter_at window p -> ~ in_trailing_fifth window p) ->
     DocumentChunker.window_end self content start
     = start + DocumentChunker.chunk_size self).

(** A text of 112 characters whose only delimiter starts at offset 80. *)
Definition text_with_delimiter_at_80 : pystr :=
  replicate 80 97%N ++ str ". " ++ replicate 30 97%N.

(** Construction rejects the sizes: building the configuration or building
    the chunker raises. *)
Definition construction_rejects (chunk_size overlap : Z) : Prop :=
  (exists e, forall max_context_length embedding_model completion_model
                    temperature max_results,
      RAGConfig.__init__ chunk_size overlap max_context_length
        embedding_model completion_model temperature max_results = Raise e) \/
  (exists e, DocumentChunker.__init__ chunk_size overlap = Raise e).

(** A text of 105 characters whose only delimiter starts at offset 88. *)
Definition text_with_delimiter_at_88 : pystr :=
  replicate 88 97%N ++ str ". " ++ replicate 15 97%N.

(** ["ab \x01 \x01 \x01 \x01 \x01 \x01 cd"]: removing the control characters
    leaves seven spaces in a row. *)
Definition text_with_blank_window : pystr :=
  str "ab" ++ [32; 1; 32; 1; 32; 1; 32; 1; 32; 1; 32; 1]%N ++ str " cd".

(** *** Retrieval scenarios *)

(** [RAGPipeline(db)] with the default configuration. *)
Definition default_pipeline : RAGPipeline.t :=
  RAGPipeline.mk RAGConfig.default (DocumentChunker.mk 1000 100)
                 (str "/knowledge").

(** A result entry carries the sentinel score of a lexical hit. *)
Definition sentinel_scored (h : RAGPipeline.hit) : Prop :=
  RAGPipeline.similarity h = RAGPipeline.sentinel.

(** The candidate [chunk] carries a usable stored embedding for the query
    embedding [qe]: the loop of [semantic_search] appends an entry for it. *)
Definition usable_embedding (E : RAGPipeline.env) (qe : list float)
    (chunk : RAGPipeline.document) : Prop :=
  exists entry, RAGPipeline.score_chunk E qe chunk = Ok (Some entry).

(** The search answers with sentinel-scored results, as the design document
    words it for every store. *)
Definition returns_sentinel_scored (E : RAGPipeline.env) (self : RAGPipeline.t)
    (query : pystr) (max_results : option Z) : Prop :=
  exists results,
    RAGPipeline.semantic_search E self query max_results = Ok results /\
    Forall sentinel_scored results.

(** The search answers with the hits of the lexical fallback. *)
Definition returns_lexical_hits (E : RAGPipeline.env) (self : RAGPipeline.t)
    (query : pystr) (max_results : option Z) : Prop :=
  RAGPipeline.semantic_search E self query max_results
  = RAGPipeline._fallback_text_search E query
      (RAGPipeline.max_results_or_default self max_results).

(** The JSON text [{"embedding": [1.0]}]. *)
Definition embedding_json : pystr :=
  str "{" ++ [34]%N ++ str "embedding" ++ [34]%N ++ str ": [1.0]}".

(** [str.lower] on ASCII text. *)
Definition ascii_lower (s : pystr) : pystr :=
  (fun c => if (65 <=? c) && (c <=? 90) then c + 32 else c)%N <$> s.

(** A stored chunk about vector search whose metadata tag holds the
    embedding [[1.0]]. *)
Definition embedded_chunk : RAGPipeline.document :=
  RAGPipeline.mk_document
    (Some (str "Vector Search in KotaDB - Chunk 1"))
    (Some (str "KotaDB implements vector search using HNSW."))
    (Some [str "knowledge-base"; str "chunk"; str "source:technical-guide";
           str "metadata:" ++ embedding_json]).

(** The same chunk stored without a metadata tag. *)
Definition bare_chunk : RAGPipeline.document :=
  RAGPipeline.mk_document
    (Some (str "Vector Search in KotaDB - Chunk 1"))
    (Some (str "KotaDB implements vector search using HNSW."))
    (Some [str "knowledge-base"; str "chunk"; str "source:technical-guide"]).

(** A working deployment around a store that answers every query with the
    documents [docs]: every text embeds to [[1.0]], the one metadata string
    in use decodes to its dict, and the similarity of [[1.0]] with the stored
    [[1.0]] is [1.0]. No generative backend; the texts are ASCII. *)
Definition env_with_store (docs : list RAGPipeline.document) : RAGPipeline.env :=
  RAGPipeline.mk_env
    (fun _ => Ok [1%float])
    (fun _ => Ok (RAGPipeline.mk_query_result (Some docs)))
    (fun _ => Ok (str "doc-1"))
    (fun s => if bool_decide (s = embedding_json)
              then Ok (PDict [(str "embedding", PList [PFloat 1%float])])
              else Raise (str "JSONDecodeError"))
    (fun _ => Ok (str "{}"))
    (fun _ _ => Ok 1%float)
    None
    Ok
    (str "2024-01-01T00:00:00")
    ascii_lower
    (fun _ => true).

(** *** Answering vocabulary *)

(** The part of the context a chunk contributes: its whole trimmed content
    under its title, or nothing when the content is blank. *)
Definition context_part (doc_info : RAGPipeline.hit) : option pystr :=
  let doc := RAGPipeline.hit_document doc_info in
  match strip (default [] (RAGPipeline.doc_content doc)) with
  | [] => None
  | content =>
      Some (str "From '" ++ default (str "Unknown") (RAGPipeline.doc_title doc)
            ++ str "':" ++ [10]%N ++ content)
  end.

(** The title a chunk contributes to the sources, or nothing when its
    content is blank. *)
Definition source_title (doc_info : RAGPipeline.hit) : option pystr :=
  let doc := RAGPipeline.hit_document doc_info in
  match strip (default [] (RAGPipeline.doc_content doc)) with
  | [] => None
  | _ => Some (default (str "Unknown") (RAGPipeline.doc_title doc))
  end.

(** The chunks whose content is part of the context string: the first three
    with non-blank content. *)
Definition included_chunks (context_docs : list RAGPipeline.hit)
  : list RAGPipeline.hit :=
  take 3 (filter (fun doc_info => is_Some (context_part doc_info)) context_docs).

(** The pipeline with another [max_context_length]. *)
Definition with_max_context_length (n : Z) (self : RAGPipeline.t)
  : RAGPipeline.t :=
  let c := RAGPipeline.config self in
  RAGPipeline.mk
    (RAGConfig.mk (RAGConfig.chunk_size c) (RAGConfig.chunk_overlap c) n
       (RAGConfig.embedding_model c) (RAGConfig.completion_model c)
       (RAGConfig.temperature c) (RAGConfig.max_results c))
    (RAGPipeline.chunker self) (RAGPipeline.knowledge_base_path self).

(** The context string stays within the configured maximum, as the design
    document words it. *)
Definition context_within_limit (E : RAGPipeline.env) (self : RAGPipeline.t)
    (question : pystr) (context_docs : list RAGPipeline.hit) : Prop :=
  forall a,
    RAGPipeline.generate_answer E self question (Some context_docs) = Ok a ->
    len (RAGPipeline.context_used a)
    <= RAGConfig.max_context_length (RAGPipeline.config self).

(** The sources are the titles of the chunks included in the context, as
    the design document words it. *)
Definition sources_of_included (E : RAGPipeline.env) (self : RAGPipeline.t)
    (question : pystr) (context_docs : list RAGPipeline.hit) : Prop :=
  forall a,
    RAGPipeline.generate_answer E self question (Some context_docs) = Ok a ->
    RAGPipeline.sources a
    = list_to_set (omap source_title (included_chunks context_docs)).

(** A search result for a chunk with the given title and content. *)
Definition hit_of (title content : string) : RAGPipeline.hit :=
  RAGPipeline.mk_hit
    (RAGPipeline.mk_document (Some (str title)) (Some (str content)) (Some []))
    RAGPipeline.sentinel None.

(** The trimmed sentences of a context. *)
Definition sentences (context : pystr) : list pystr :=
  strip <$> re_split_sentences context.

(** The number of distinct lower-cased words a sentence shares with the
    question. *)
Definition word_overlap (E : RAGPipeline.env) (question sentence : pystr) : nat :=
  size (RAGPipeline.word_set E question ∩ RAGPipeline.word_set E sentence).

(** The three cases of the extractive answer, as the design document words
    them: every sentence of the context takes part. *)
Definition fallback_answer_as_documented (E : RAGPipeline.env)
    (question context : pystr) : Prop :=
  let answer := RAGPipeline._generate_fallback_answer E question context in
  (strip context = [] -> answer = RAGPipeline.insufficient_information) /\
  (strip context <> [] ->
   (forall s, s ∈ sentences context -> word_overlap E question s = 0%nat) ->
   answer = RAGPipeline.unanswerable) /\
  (strip context <> [] ->
   (exists s, s ∈ sentences context /\ (0 < word_overlap E question s)%nat) ->
   exists s, s ∈ sentences context /\
     (forall s', s' ∈ sentences context ->
                 (word_overlap E question s' <= word_overlap E question s)%nat) /\
     answer = RAGPipeline.answer_label ++ s).

(** One chunk whose content has 4000 characters. *)
Definition long_hit : RAGPipeline.hit :=
  RAGPipeline.mk_hit
    (RAGPipeline.mk_document (Some (str "Long")) (Some (replicate 4000 97%N))
                             (Some []))
    RAGPipeline.sentinel None.

(** Four chunks from four documents. *)
Definition four_hits : list RAGPipeline.hit :=
  [hit_of "Alpha" "Alpha is the first letter.";
   hit_of "Beta" "Beta is the second letter.";
   hit_of "Gamma" "Gamma is the third letter.";
   hit_of "Delta" "Delta is the fourth letter."].

(** The entry a trimmed sentence contributes to [best_sentences]: itself
    with its overlap, when it has at least 10 characters and shares a word
    with the question. *)
Definition candidate (E : RAGPipeline.env) (question sentence : pystr)
  : option (pystr * nat) :=
  if len sentence <? 10 then None
  else if (0 <? word_overlap E question sentence)%nat
       then Some (sentence, word_overlap E question sentence)
       else None.

(** *** Ingestion vocabulary *)

(** After the call the dict at [l] holds the three entries of the ingestion,
    as the claim words it for every caller-supplied mapping. *)
Definition metadata_mutated_in_place (E : RAGPipeline.env)
    (self : RAGPipeline.t) (fuel : nat) (h : heap) (title content : pystr)
    (source : option pystr) (l : loc) : Prop :=
  exists d',
    (RAGPipeline.ingest_document E self fuel h title content source (Some l)).1
      !! l = Some d' /\
    d' !! str "source" = Some (PStr (RAGPipeline.source_or_unknown source)) /\
    d' !! str "ingested_at" = Some (PStr (RAGPipeline.now_isoformat E)) /\
    d' !! str "content_length" = Some (PInt (len content)).

(* ===================================================================== *)
(** ** Vocabulary of the further properties *)
(* ===================================================================== *)

(** The first character, if any, is not whitespace. *)
Definition head_not_space (s : pystr) : Prop :=
  match s with
  | c :: _ => isspace c = false
  | [] => True
  end.

(** The last character, if any, is not whitespace. *)
Definition last_not_space (s : pystr) : Prop :=
  match last s with
  | Some c => isspace c = false
  | None => True
  end.

(** The entries the chunking loop writes into a chunk's copy of the
    metadata. *)
Definition chunk_entries (idx start end_ : Z) : list (pystr * pyval) :=
  [(str "chunk_index", PInt idx);
   (str "start_char", PInt start);
   (str "end_char", PInt end_)].

(** The value of [metadata or {}]. *)
Definition doc_metadata (h : heap) (metadata : option loc) : dict :=
  match metadata with
  | Some l => deref h l
  | None => ∅
  end.

(** A run of the chunking loop over [content] that reaches the exit of the
    [while], from the window start [start] and the index [idx], together
    with the index and the start of each window whose text was kept. *)
Inductive loop_run (self : DocumentChunker.t) (content : pystr)
  : Z -> Z -> list (Z * Z) -> Prop :=
| loop_run_exit start idx :
    len content <= start -> loop_run self content start idx []
| loop_run_blank start idx ws :
    start < len content ->
    strip (slice content start (DocumentChunker.window_end self content start))
    = [] ->
    loop_run self content
      (DocumentChunker.window_end self content start
       - DocumentChunker.overlap self) (idx + 1) ws ->
    loop_run self content start idx ws
| loop_run_chunk start idx ws :
    start < len content ->
    strip (slice content start (DocumentChunker.window_end self content start))
    <> [] ->
    loop_run self content
      (DocumentChunker.window_end self content start
       - DocumentChunker.overlap self) (idx + 1) ws ->
    loop_run self content start idx ((idx, start) :: ws).

(** The chunk and the metadata dict of a kept window. *)
Definition chunk_of_window (self : DocumentChunker.t) (content : pystr)
    (l : loc) (w : Z * Z) : DocumentChunker.chunk :=
  DocumentChunker.mk_chunk
    (strip (slice content w.2 (DocumentChunker.window_end self content w.2)))
    l w.1 0.

Definition dict_of_window (self : DocumentChunker.t) (content : pystr)
    (d : dict) (w : Z * Z) : dict :=
  dict_update d
    (chunk_entries w.1 w.2 (DocumentChunker.window_end self content w.2)).

(** The character offsets recorded in the metadata of a chunk. *)
Definition chunk_span (h : heap) (c : DocumentChunker.chunk) : option (Z * Z) :=
  d ← h !! DocumentChunker.metadata c;
  match d !! str "start_char", d !! str "end_char" with
  | Some (PInt s), Some (PInt e) => Some (s, e)
  | _, _ => None
  end.

(** The overlap leaves room for the window start to advance past a sentence
    cut: at most four fifths of the chunk size plus two. *)
Definition moderate_overlap (self : DocumentChunker.t) : Prop :=
  0 <= DocumentChunker.overlap self < DocumentChunker.chunk_size self /\
  5 * DocumentChunker.overlap self <= 4 * DocumentChunker.chunk_size self + 10.

(** [R] relates every element of a list to every later one. *)
Definition pairwise {A} (R : A -> A -> Prop) (l : list A) : Prop :=
  forall (i j : nat) a b,
    (i < j)%nat -> l !! i = Some a -> l !! j = Some b -> R a b.

(** A chunker with windows of 20 characters and an overlap of 5, and a text
    of three sentences. *)
Definition small_chunker : DocumentChunker.t := DocumentChunker.mk 20 5.

Definition three_sentences : pystr :=
  str "The cats sat down. They purred a lot. Then they slept.".

(** *** Statistics vocabulary *)

(** The source a tag names, if it is a source tag. *)
Definition source_of_tag (tag : pystr) : option pystr :=
  if startswith tag (str "source:") then Some (slice_from tag 7) else None.

(** The sources named by the tags of the chunks, with repetitions. *)
Definition source_names (chunks : list RAGPipeline.document) : list pystr :=
  chunks ≫= (fun chunk =>
    omap source_of_tag (default [] (RAGPipeline.doc_tags chunk))).

(** The sum of the content lengths of the chunks; an absent content counts
    for nothing. *)
Definition content_total (chunks : list RAGPipeline.document) : Z :=
  foldr (fun chunk total =>
           len (default [] (RAGPipeline.doc_content chunk)) + total) 0 chunks.

(** The query [get_knowledge_base_stats] sends. *)
Definition stats_query : list RAGPipeline.query_op :=
  [RAGPipeline.TagFilter (str "knowledge-base"); RAGPipeline.Limit 1000].

(** Two stored chunks of one document and one of another. *)
Definition three_stored_chunks : list RAGPipeline.document :=
  [RAGPipeline.mk_document (Some (str "Guide - Chunk 1")) (Some (str "abcde"))
     (Some [str "knowledge-base"; str "chunk"; str "source:guide"]);
   RAGPipeline.mk_document (Some (str "Guide - Chunk 2")) (Some (str "fgh"))
     (Some [str "knowledge-base"; str "chunk"; str "source:guide"]);
   RAGPipeline.mk_document (Some (str "Notes - Chunk 1")) (Some (str "ij"))
     (Some [str "knowledge-base"; str "chunk"; str "source:notes"])].

(** *** Retrieval and ingestion vocabulary *)

(** The entry the loop of [semantic_search] appends for a candidate, if
    any. *)
Definition scored (E : RAGPipeline.env) (qe : list float)
    (chunk : RAGPipeline.document) : option RAGPipeline.hit :=
  match RAGPipeline.score_chunk E qe chunk with
  | Ok (Some entry) => Some entry
  | _ => None
  end.

(** The query [semantic_search] sends for the candidates. *)
Definition candidates_query : list RAGPipeline.query_op :=
  [RAGPipeline.TagFilter (str "knowledge-base");
   RAGPipeline.TagFilter (str "chunk"); RAGPipeline.Limit 1000].

(** The tags added by a sequence of builder calls. *)
Definition builder_tags (ops : list RAGPipeline.builder_op) : list pystr :=
  omap (fun op => match op with
                  | RAGPipeline.AddTag tag => Some tag
                  | _ => None
                  end) ops.

(** The tags [ingest_document] attaches to a stored chunk whose metadata
    was serialised to [dumped]. *)
Definition ingest_tags (source : option pystr) (dumped : pystr) : list pystr :=
  [str "knowledge-base"; str "chunk";
   str "source:" ++ RAGPipeline.source_or_unknown source;
   str "metadata:" ++ dumped].

(** A blank chunk, a chunk and a question for the scenarios. *)
Definition blank_hit : RAGPipeline.hit := hit_of "Empty" "   ".

(** The deployment of [env_with_store] with an embedding backend that always
    raises. *)
Definition env_without_embeddings (docs : list RAGPipeline.document)
  : RAGPipeline.env :=
  let E := env_with_store docs in
  RAGPipeline.mk_env
    (fun _ => Raise (str "NameError"))
    (RAGPipeline.query_with_builder E)
    (RAGPipeline.insert_with_builder E)
    (RAGPipeline.json_loads E)
    (RAGPipeline.json_dumps E)
    (RAGPipeline._cosine_similarity E)
    (RAGPipeline.openai_chat_completion E)
    (RAGPipeline.ValidatedPath E)
    (RAGPipeline.now_isoformat E)
    (RAGPipeline.lower E)
    (RAGPipeline.is_word E).

(** The store never takes an insert. *)
Definition store_rejects_inserts (E : RAGPipeline.env) : Prop :=
  forall ops, exists e, RAGPipeline.insert_with_builder E ops = Raise e.

(** Every backend call of the ingestion succeeds. *)
Definition ingestion_backends_work (E : RAGPipeline.env) : Prop :=
  (forall text, exists v, RAGPipeline.embed_text E text = Ok v) /\
  (forall p, exists p', RAGPipeline.ValidatedPath E p = Ok p') /\
  (forall d, exists s, RAGPipeline.json_dumps E d = Ok s) /\
  (forall ops, exists id, RAGPipeline.insert_with_builder E ops = Ok id).

(** The path under which [ingest_document] stores chunk number [i]. *)
Definition chunk_path_of (E : RAGPipeline.env) (self : RAGPipeline.t)
    (title : pystr) (i : Z) : pystr :=
  RAGPipeline.knowledge_base_path self ++ str "/"
  ++ RAGPipeline.safe_title_of E title ++ str "/chunk_"
  ++ format_03d i ++ str ".md".

(** What the loop of [semantic_search] does with a candidate once its
    metadata text is known to be [dumped]. *)
Definition score_with_metadata (E : RAGPipeline.env) (qe : list float)
    (doc : RAGPipeline.document) (dumped : pystr)
  : py (option RAGPipeline.hit) :=
  metadata ← RAGPipeline.json_loads E dumped;
  chunk_embedding ← RAGPipeline.get_embedding metadata;
  if truthy chunk_embedding then
    similarity ← RAGPipeline._cosine_similarity E qe chunk_embedding;
    Ok (Some (RAGPipeline.mk_hit doc similarity (Some metadata)))
  else Ok None.

(** The chunks [ingest_document] gets from its chunker: the metadata object
    is the caller's, or a new one, updated with the ingestion entries.
    [None] when the chunker does not come back within [fuel] rounds. *)
Definition ingest_chunks (E : RAGPipeline.env) (self : RAGPipeline.t)
    (fuel : nat) (h : heap) (content : pystr) (source : option pystr)
    (metadata : option loc) : option (list DocumentChunker.chunk) :=
  let '(h, metadata) := or_empty_dict h metadata in
  let h :=
    alter (fun d => dict_update d (RAGPipeline.ingest_entries E content source))
          metadata h in
  (DocumentChunker.chunk_document fuel (RAGPipeline.chunker self) h content
                                  (Some metadata)).2.

(** The characters [re.sub(r'[^\w\-_]', '_', title)] leaves in place. *)
Definition safe_char (E : RAGPipeline.env) (c : N) : bool :=
  RAGPipeline.is_word E c || (c =? 45)%N || (c =? 95)%N.

(** [\w] on ASCII text. *)
Definition ascii_word (c : N) : bool :=
  ((48 <=? c) && (c <=? 57) || (65 <=? c) && (c <=? 90)
   || (97 <=? c) && (c <=? 122) || (c =? 95))%N.

(** The deployment of [env_with_store] with [\w] as on ASCII text. *)
Definition env_with_ascii_words (docs : list RAGPipeline.document)
  : RAGPipeline.env :=
  let E := env_with_store docs in
  RAGPipeline.mk_env
    (RAGPipeline.embed_text E)
    (RAGPipeline.query_with_builder E)
    (RAGPipeline.insert_with_builder E)
    (RAGPipeline.json_loads E)
    (RAGPipeline.json_dumps E)
    (RAGPipeline._cosine_similarity E)
    (RAGPipeline.openai_chat_completion E)
    (RAGPipeline.ValidatedPath E)
    (RAGPipeline.now_isoformat E)
    (RAGPipeline.lower E)
    ascii_word.

(** The deployment of [env_with_store] with a store that refuses inserts. *)
Definition env_with_full_store (docs : list RAGPipeline.document)
  : RAGPipeline.env :=
  let E := env_with_store docs in
  RAGPipeline.mk_env
    (RAGPipeline.embed_text E)
    (RAGPipeline.query_with_builder E)
    (fun _ => Raise (str "ConnectionError"))
    (RAGPipeline.json_loads E)
    (RAGPipeline.json_dumps E)
    (RAGPipeline._cosine_similarity E)
    (RAGPipeline.openai_chat_completion E)
    (RAGPipeline.ValidatedPath E)
    (RAGPipeline.now_isoformat E)
    (RAGPipeline.lower E)
    (RAGPipeline.is_word E).

(** *** Embedding provider vocabulary *)

(** [self.embedder] of a pipeline:
    [EmbeddingProvider("openai" if HAS_OPENAI else "tfidf")]. *)
Definition pipeline_embedder {V} (B : EmbeddingProvider.backends V)
  : EmbeddingProvider.t V :=
  EmbeddingProvider.__init__ B
    (if EmbeddingProvider.HAS_OPENAI B then str "openai" else str "tfidf")
    None.

(** The provider takes the batch path of [embed_texts]. *)
Definition batches_with_tfidf {V} (B : EmbeddingProvider.backends V)
    (self : EmbeddingProvider.t V) : bool :=
  bool_decide (EmbeddingProvider.provider self = str "tfidf")
  && EmbeddingProvider.HAS_SKLEARN B.

(** Successive calls of [embed_texts] on one provider: the provider after
    the last call and the outcome of each call. *)
Fixpoint embed_batches {V} (B : EmbeddingProvider.backends V)
    (self : EmbeddingProvider.t V) (batches : list (list pystr))
  : EmbeddingProvider.t V * list (py (list (list float))) :=
  match batches with
  | [] => (self, [])
  | texts :: batches =>
      let '(self, r) := EmbeddingProvider.embed_texts B self texts in
      let '(self, rs) := embed_batches B self batches in
      (self, r :: rs)
  end.

(** The seed [_mock_embed] hands to [np.random.seed]. *)
Definition mock_seed {V} (B : EmbeddingProvider.backends V) (text : pystr) : Z :=
  EmbeddingProvider.hash B text `mod` 2 ^ 31.

(** Backends for the scenarios: a vectorizer is the corpus it was fitted on,
    a row has one entry, [hash] is the length of the text. The OpenAI call,
    where the module is present, always fails. *)
Definition scenario_backends (has_openai has_sklearn : bool)
  : EmbeddingProvider.backends (list pystr) :=
  EmbeddingProvider.mk_backends
    has_openai has_sklearn
    (fun _ _ => Raise (str "AuthenticationError"))
    []
    (fun _ texts => (texts, Ok ((fun _ => [1%float]) <$> texts)))
    (fun _ texts => Ok ((fun _ => [0%float]) <$> texts))
    len
    (Some (fun _ => [1%float])).

(** A provider whose vectorizer was fitted on one text. *)
Definition fitted_provider : EmbeddingProvider.t (list pystr) :=
  EmbeddingProvider.mk (str "tfidf") (str "text-embedding-ada-002")
    (Some ([str "first corpus"], true)).

(** *** Ingestion loop vocabulary *)

(** The heap [ingest_document] holds when its chunker has returned. *)
Definition ingest_heap (E : RAGPipeline.env) (self : RAGPipeline.t)
    (fuel : nat) (h : heap) (content : pystr) (source : option pystr)
    (metadata : option loc) : heap :=
  let '(h, metadata) := or_empty_dict h metadata in
  let h :=
    alter (fun d => dict_update d (RAGPipeline.ingest_entries E content source))
          metadata h in
  (DocumentChunker.chunk_document fuel (RAGPipeline.chunker self) h content
                                  (Some metadata)).1.

(** The builder calls for chunk number [i], stored under [path] with its
    metadata serialised to [dumped]. *)
Definition chunk_request (path title : pystr) (i : Z)
    (chunk : DocumentChunker.chunk) (source : option pystr) (dumped : pystr)
  : list RAGPipeline.builder_op :=
  [RAGPipeline.Path path;
   RAGPipeline.Title (title ++ str " - Chunk " ++ str_of_int (i + 1));
   RAGPipeline.Content (DocumentChunker.content chunk);
   RAGPipeline.AddTag (str "knowledge-base");
   RAGPipeline.AddTag (str "chunk");
   RAGPipeline.AddTag (str "source:" ++ RAGPipeline.source_or_unknown source);
   RAGPipeline.AddTag (str "metadata:" ++ dumped)].

(** What becomes of chunk number [i] on its own, given the dict [d] that is
    its metadata: embed the content, validate the path, serialise [d] with
    the embedding added, insert. The first step that raises decides. *)
Definition chunk_outcome (E : RAGPipeline.env) (self : RAGPipeline.t)
    (d : dict) (title : pystr) (source : option pystr) (i : Z)
    (chunk : DocumentChunker.chunk) : py pystr :=
  embedding ← RAGPipeline.embed_text E (DocumentChunker.content chunk);
  path ← RAGPipeline.ValidatedPath E (chunk_path_of E self title i);
  dumped ← RAGPipeline.json_dumps E
             (<[str "embedding" := PList (PFloat <$> embedding)]> d);
  RAGPipeline.insert_with_builder E
    (chunk_request path title i chunk source dumped).

(** The id of a chunk that was stored. *)
Definition stored_id (r : py pystr) : option pystr :=
  match r with
  | Ok chunk_id => Some chunk_id
  | Raise _ => None
  end.

(** The ids of the chunks of [chunks] that get stored, each chunk taken on
    its own with its position as its number, in the order of the chunks;
    [h] holds the chunks' metadata. *)
Definition stored_ids (E : RAGPipeline.env) (self : RAGPipeline.t) (h : heap)
    (title : pystr) (source : option pystr)
    (chunks : list DocumentChunker.chunk) : list pystr :=
  omap id
    (imap (fun i chunk =>
             stored_id (chunk_outcome E self
                          (deref h (DocumentChunker.metadata chunk))
                          title source (Z.of_nat i) chunk))
          chunks).

(** A pipeline with the chunker [small_chunker]. *)
Definition small_pipeline : RAGPipeline.t :=
  RAGPipeline.mk RAGConfig.default small_chunker (str "/knowledge").

(** The deployment of [env_with_store] where embedding the second chunk of
    [three_sentences] raises and the store names a document by its path. *)
Definition env_with_flaky_embedder : RAGPipeline.env :=
  let E := env_with_store [] in
  RAGPipeline.mk_env
    (fun text => if bool_decide (text = str "own. They purred a l")
                 then Raise (str "RateLimitError")
                 else Ok [1%float])
    (RAGPipeline.query_with_builder E)
    (fun ops => match ops with
                | RAGPipeline.Path path :: _ => Ok path
                | _ => Raise (str "ValidationError")
                end)
    (RAGPipeline.json_loads E)
    (RAGPipeline.json_dumps E)
    (RAGPipeline._cosine_similarity E)
    (RAGPipeline.openai_chat_completion E)
    (RAGPipeline.ValidatedPath E)
    (RAGPipeline.now_isoformat E)
    (RAGPipeline.lower E)
    (RAGPipeline.is_word E).

(** *** Retrieval outcomes *)

(** The entries the lexical fallback makes of the documents of a result. *)
Definition lexical_hits (results : RAGPipeline.query_result)
  : list RAGPipeline.hit :=
  (fun chunk => RAGPipeline.mk_hit chunk RAGPipeline.sentinel None)
    <$> default [] (RAGPipeline.documents results).

(** The lexical query of the fallback. *)
Definition lexical_query (query : pystr) (max_results : Z)
  : list RAGPipeline.query_op :=
  [RAGPipeline.Text query; RAGPipeline.TagFilter (str "knowledge-base");
   RAGPipeline.Limit max_results].

(** The entry [r] is the candidate [hit_document r] scored by the cosine
    similarity of the query embedding [qe] with the embedding stored in the
    candidate's metadata. *)
Definition cosine_scored (E : RAGPipeline.env) (qe : list float)
    (r : RAGPipeline.hit) : Prop :=
  RAGPipeline.score_chunk E qe (RAGPipeline.hit_document r) = Ok (Some r) /\
  exists metadata embedding,
    RAGPipeline.hit_metadata r = Some metadata /\
    RAGPipeline.get_embedding metadata = Ok embedding /\
    RAGPipeline._cosine_similarity E qe embedding
    = Ok (RAGPipeline.similarity r).

(** The chunks [small_chunker] makes of [three_sentences] during an
    ingestion into an empty heap: the document metadata is object 0, the
    chunks' metadata are the objects 1 to 4. *)
Definition cats_chunks : list DocumentChunker.chunk :=
  [DocumentChunker.mk_chunk (str "The cats sat down.") 1%nat 0 4;
   DocumentChunker.mk_chunk (str "own. They purred a l") 2%nat 1 4;
   DocumentChunker.mk_chunk (str "d a lot. Then they s") 3%nat 2 4;
   DocumentChunker.mk_chunk (str "hey slept.") 4%nat 3 4].

(* ===================================================================== *)
(** ** Facts about the string primitives *)
(* ===================================================================== *)

Section string_facts.

Lemma matches_at_occurs text pat i :
  matches_at text pat i = true ->
  (i + length pat <= length text)%nat ->
  occurs_at text pat (Z.of_nat i).
Proof.
  intros Hm Hlen. unfold matches_at in Hm. apply bool_decide_eq_true in Hm.
  unfold occurs_at, len. rewrite Nat2Z.id. repeat split; [lia | lia | exact Hm].
Qed.

Lemma occurs_at_matches text pat p :
  occurs_at text pat p -> matches_at text pat (Z.to_nat p) = true.
Proof.
  intros (_ & _ & H). unfold matches_at. by apply bool_decide_eq_true.
Qed.

Lemma rfind_from_cases text pat i :
  (rfind_from text pat i = -1 /\
   forall j, (j <= i)%nat -> matches_at text pat j = false) \/
  (exists r, rfind_from text pat i = Z.of_nat r /\ (r <= i)%nat /\
             matches_at text pat r = true /\
             forall j, (r < j <= i)%nat -> matches_at text pat j = false).
Proof.
  induction i as [|i IH]; simpl.
  - destruct (matches_at text pat 0) eqn:E.
    + right. exists 0%nat. repeat split; [lia | done | intros; lia].
    + left. split; [done|]. intros j Hj. by replace j with 0%nat by lia.
  - destruct (matches_at text pat (S i)) eqn:E.
    + right. exists (S i). repeat split; [lia | done | intros; lia].
    + destruct IH as [[H1 H2] | (r & H1 & H2 & H3 & H4)].
      * left. split; [done|]. intros j Hj.
        destruct (decide (j = S i)) as [->|]; [done | apply H2; lia].
      * right. exists r. repeat split; [done | lia | done |].
        intros j Hj. destruct (decide (j = S i)) as [->|]; [done | apply H4; lia].
Qed.

(** [rfind] returns [-1] exactly when there is no occurrence, and the
    rightmost occurrence otherwise. *)
Lemma rfind_none text pat :
  rfind text pat = -1 -> forall p, ~ occurs_at text pat p.
Proof.
  unfold rfind. intros H p Hocc.
  pose proof (occurs_at_matches _ _ _ Hocc) as Hm.
  destruct Hocc as (Hp & Hle & _). unfold len in Hle.
  destruct (Nat.leb_spec (length pat) (length text)) as [Hl|Hl]; [|lia].
  destruct (rfind_from_cases text pat (length text - length pat))
    as [[_ Hno] | (r & Hr & _)]; [|lia].
  rewrite Hno in Hm; [done | lia].
Qed.

Lemma rfind_some text pat r :
  rfind text pat = r -> r <> -1 ->
  occurs_at text pat r /\ forall p, occurs_at text pat p -> p <= r.
Proof.
  unfold rfind. intros H Hr.
  destruct (Nat.leb_spec (length pat) (length text)) as [Hl|Hl]; [|congruence].
  destruct (rfind_from_cases text pat (length text - length pat))
    as [[Hm _] | (i & Hi & Hle & Hm & Hno)]; [congruence|].
  rewrite Hi in H. subst r. split.
  - apply matches_at_occurs; [done | lia].
  - intros p Hocc. pose proof (occurs_at_matches _ _ _ Hocc) as Hp.
    destruct Hocc as (H0 & Hb & _). unfold len in Hb.
    destruct (Z_le_gt_dec p (Z.of_nat i)) as [|Hgt]; [done|].
    rewrite Hno in Hp; [done | lia].
Qed.

Lemma rfind_range text pat : -1 <= rfind text pat.
Proof.
  unfold rfind. destruct (_ <=? _)%nat; [|lia].
  destruct (rfind_from_cases text pat (length text - length pat))
    as [[-> _] | (r & -> & _)]; lia.
Qed.

(** The characters of a two-character occurrence. *)
Lemma occurs_at_two text c1 c2 p :
  occurs_at text [c1; c2] p ->
  text !! Z.to_nat p = Some c1 /\ text !! S (Z.to_nat p) = Some c2.
Proof.
  intros (_ & _ & H). simpl in H.
  destruct (drop (Z.to_nat p) text) as [|a [|b rest]] eqn:E; simplify_eq/=.
  split.
  - rewrite <- (Nat.add_0_r (Z.to_nat p)), <- lookup_drop, E. done.
  - rewrite <- (Nat.add_1_r (Z.to_nat p)), <- lookup_drop, E. done.
Qed.

Lemma slice_nil {A} (start stop : Z) : slice (@nil A) start stop = [].
Proof. unfold slice. by rewrite drop_nil, take_nil. Qed.

Lemma slice_bound_nonneg (n i : Z) :
  0 <= n -> 0 <= i -> slice_bound n i = Z.min i n.
Proof.
  intros Hn Hi. unfold slice_bound.
  destruct (Z.ltb_spec i 0) as [|_]; [lia|].
  destruct (Z.ltb_spec i 0) as [|_]; [lia|].
  destruct (Z.ltb_spec n i); lia.
Qed.

Lemma slice_to_take {A} (l : list A) (n : Z) :
  0 <= n -> slice_to l n = take (Z.to_nat n) l.
Proof.
  intros Hn. unfold slice_to, slice.
  rewrite !slice_bound_nonneg by (unfold len; lia).
  replace (Z.min 0 (len l)) with 0 by (unfold len; lia).
  rewrite Z.sub_0_r. change (Z.to_nat 0) with 0%nat. rewrite drop_0.
  destruct (Z.le_ge_cases n (len l)) as [Hle|Hge].
  - by rewrite Z.min_l.
  - rewrite Z.min_r by done. unfold len in *.
    rewrite Nat2Z.id, !take_ge; [done | lia | lia].
Qed.

End string_facts.

(* ===================================================================== *)
(** ** The chunker *)
(* ===================================================================== *)

Section chunker_boundary.

Import DocumentChunker.

Lemma sentence_endings_shape : Forall is_ending sentence_endings.
Proof.
  unfold sentence_endings.
  repeat (apply Forall_cons; split; [eexists _, _; repeat split; reflexivity|]).
  apply Forall_nil_2.
Qed.

(** Two delimiters never start at neighbouring offsets. *)
Lemma endings_not_adjacent text e e' p :
  is_ending e -> is_ending e' ->
  occurs_at text e p -> occurs_at text e' (p + 1) -> False.
Proof.
  intros (c1 & c2 & -> & _ & H2) (d1 & d2 & -> & H1 & _) Ho Ho'.
  assert (Hp : 0 <= p) by apply Ho.
  apply occurs_at_two in Ho as [_ Ho], Ho' as [Ho' _].
  replace (Z.to_nat (p + 1)) with (S (Z.to_nat p)) in Ho' by lia.
  congruence.
Qed.

Lemma boundary_fold_inv text (seen es : list pystr) (best : Z) :
  Forall is_ending (seen ++ es) ->
  boundary_inv text seen best ->
  boundary_inv text (seen ++ es)
    (foldl (fun best_pos ending =>
              let pos := rfind text ending in
              if (best_pos <? pos) && (4 * len text <? 5 * pos)
              then pos + len ending - 1
              else best_pos) best es).
Proof.
  revert seen best. induction es as [|e es IH]; intros seen best Hshape Hinv.
  - simpl. by rewrite app_nil_r.
  - simpl. replace (seen ++ e :: es) with ((seen ++ [e]) ++ es) in *
      by (by rewrite <- app_assoc).
    apply IH; [done|].
    assert (He : is_ending e).
    { rewrite Forall_app in Hshape. destruct Hshape as [Hs _].
      rewrite Forall_app in Hs. destruct Hs as [_ Hs]. by inversion Hs. }
    assert (Hseen : Forall is_ending seen).
    { rewrite !Forall_app in Hshape. tauto. }
    assert (Hlen : len e = 2).
    { destruct He as (c1 & c2 & -> & _). reflexivity. }
    pose proof (rfind_range text e) as Hrange.
    destruct (decide (rfind text e = -1)) as [Hnone|Hsome].
    + (* no occurrence of [e] at all *)
      pose proof (rfind_none _ _ Hnone) as Hno.
      rewrite Hnone.
      replace ((best <? -1) && (4 * len text <? 5 * -1)) with false.
      2:{ symmetry. apply andb_false_iff. right. apply Z.ltb_ge.
          unfold len. lia. }
      destruct Hinv as [[-> Hinv] | (p & e0 & -> & Hin & Ho & Hq & Hmax)].
      * left. split; [done|]. intros e' q [Hin| ->%list_elem_of_singleton]%elem_of_app Ho.
        -- by eapply Hinv.
        -- by destruct (Hno q).
      * right. exists p, e0. split_and!; try done.
        -- apply elem_of_app. by left.
        -- intros e' q [Hin'| ->%list_elem_of_singleton]%elem_of_app Ho' Hq'.
           ++ by eapply Hmax.
           ++ by destruct (Hno q).
    + destruct (rfind_some _ _ _ eq_refl Hsome) as [Hocc Hright].
      set (pos := rfind text e) in *.
      destruct ((best <? pos) && (4 * len text <? 5 * pos)) eqn:Hc.
      * (* the new ending wins *)
        apply andb_true_iff in Hc as [Hb%Z.ltb_lt Hf%Z.ltb_lt].
        right. exists pos, e. split_and!.
        -- lia.
        -- apply elem_of_app. right. by apply list_elem_of_singleton.
        -- done.
        -- done.
        -- intros e' q [Hin'| ->%list_elem_of_singleton]%elem_of_app Ho' Hq'.
           ++ destruct Hinv as [[-> Hinv] | (p & e0 & -> & Hin & Ho & Hq & Hmax)].
              ** by destruct (Hinv _ _ Hin' Ho').
              ** specialize (Hmax _ _ Hin' Ho' Hq'). lia.
           ++ by apply Hright.
      * apply andb_false_iff in Hc.
        destruct Hinv as [[-> Hinv] | (p & e0 & -> & Hin & Ho & Hq & Hmax)].
        -- left. split; [done|].
           intros e' q [Hin'| ->%list_elem_of_singleton]%elem_of_app Ho'.
           ++ by eapply Hinv.
           ++ specialize (Hright _ Ho'). unfold past_four_fifths.
              destruct Hc as [Hc%Z.ltb_ge | Hc%Z.ltb_ge]; lia.
        -- right. exists p, e0. split_and!; try done.
           ++ apply elem_of_app. by left.
           ++ intros e' q [Hin'| ->%list_elem_of_singleton]%elem_of_app Ho' Hq'.
              ** by eapply Hmax.
              ** specialize (Hright _ Ho'). unfold past_four_fifths in *.
                 destruct Hc as [Hc%Z.ltb_ge | Hc%Z.ltb_ge]; [|lia].
                 destruct (decide (pos = p + 1)) as [Heq|]; [|lia].
                 exfalso. rewrite Heq in Hocc.
                 eapply (endings_not_adjacent text e0 e p); try done.
                 rewrite Forall_forall in Hseen. by apply Hseen.
Qed.

(** [_find_sentence_boundary] returns [-1] exactly when no delimiter starts
    past four fifths of the text, and otherwise the offset of the second
    character of the rightmost such delimiter. *)
Lemma find_sentence_boundary_spec text :
  boundary_inv text sentence_endings (_find_sentence_boundary text).
Proof.
  unfold _find_sentence_boundary.
  apply (boundary_fold_inv text [] sentence_endings (-1)).
  - apply sentence_endings_shape.
  - left. split; [done|]. intros e p Hin. by apply elem_of_nil in Hin.
Qed.

End chunker_boundary.

Section chunker_cut.

Import DocumentChunker.

Lemma occurs_at_le_rfind text e q : occurs_at text e q -> q <= rfind text e.
Proof.
  intros Ho. destruct (decide (rfind text e = -1)) as [Hn|Hs].
  - by destruct (rfind_none _ _ Hn q).
  - by apply (rfind_some _ _ _ eq_refl Hs).
Qed.

(** C7 (as amended). When the window ends strictly inside the text: if a
    delimiter starts strictly beyond four fifths of the window, the cut falls
    just after the rightmost such delimiter (which exists); if none does, the
    cut is exactly [chunk_size] characters after the window start. *)
Theorem window_cut_at_sentence_boundary (self : t) (content : pystr)
    (start : Z) :
  start + chunk_size self < len content ->
  let window := slice content start (start + chunk_size self) in
  (forall p, delimiter_at window p -> past_four_fifths window p ->
     (forall q, delimiter_at window q -> past_four_fifths window q -> q <= p) ->
     window_end self content start = start + p + 2) /\
  ((exists p, delimiter_at window p /\ past_four_fifths window p) ->
   exists p, delimiter_at window p /\ past_four_fifths window p /\
     (forall q, delimiter_at window q -> past_four_fifths window q -> q <= p) /\
     window_end self content start = start + p + 2) /\
  ((forall p, delimiter_at window p -> ~ past_four_fifths window p) ->
     window_end self content start = start + chunk_size self).
Proof.
  intros Hinside window. unfold window_end.
  apply Z.ltb_lt in Hinside. rewrite Hinside. fold window.
  destruct (find_sentence_boundary_spec window)
    as [[Hb Hnone] | (p & e & Hb & Hin & Ho & Hq & Hmax)].
  - rewrite Hb. simpl. split_and!.
    + intros p (e & Hin & Ho) Hq _. by destruct (Hnone _ _ Hin Ho).
    + intros (p & (e & Hin & Ho) & Hq). by destruct (Hnone _ _ Hin Ho).
    + done.
  - assert (Hp : 0 <= p) by apply Ho.
    assert (Hne : (p + 1 =? -1) = false) by (apply Z.eqb_neq; lia).
    rewrite Hb, Hne. simpl.
    assert (Hd : delimiter_at window p) by (by exists e).
    assert (Hright : forall q, delimiter_at window q ->
                               past_four_fifths window q -> q <= p).
    { intros q (e' & Hin' & Ho') Hq'. by eapply Hmax. }
    split_and!.
    + intros p' Hd' Hq' Hmax'.
      specialize (Hmax' _ Hd Hq). specialize (Hright _ Hd' Hq'). lia.
    + intros _. exists p. split_and!; [done | done | done | lia].
    + intros Hno. by destruct (Hno _ Hd).
Qed.

Lemma window_cut_at_sentence_boundary_witness :
  let self := mk 20 5 in
  let content := str "The cats sat down. They purred a lot." in
  let window := slice content 0 (0 + chunk_size self) in
  0 + chunk_size self < len content /\
  ((forall p, delimiter_at window p -> past_four_fifths window p ->
      (forall q, delimiter_at window q -> past_four_fifths window q -> q <= p) ->
      window_end self content 0 = 0 + p + 2) /\
   ((exists p, delimiter_at window p /\ past_four_fifths window p) ->
    exists p, delimiter_at window p /\ past_four_fifths window p /\
      (forall q, delimiter_at window q -> past_four_fifths window q -> q <= p) /\
      window_end self content 0 = 0 + p + 2) /\
   ((forall p, delimiter_at window p -> ~ past_four_fifths window p) ->
      window_end self content 0 = 0 + chunk_size self)).
Proof.
  intros self content window. split.
  - vm_compute. reflexivity.
  - apply (window_cut_at_sentence_boundary self content 0).
    vm_compute. reflexivity.
Defined.

(** On that text the delimiter at offset 17 of the 20-character window is
    found and the cut falls just after it. *)
Example window_end_after_delimiter :
  window_end (mk 20 5) (str "The cats sat down. They purred a lot.") 0 = 19.
Proof. vm_compute. reflexivity. Qed.

(** The claim as worded fails where the delimiter starts exactly at four
    fifths of the window: for windows of 100 characters a delimiter at offset
    80 lies among the last 20 characters and is the only one, yet the cut
    stays at 100. *)
Lemma cut_as_documented_fails :
  ~ cut_as_documented (mk 100 10) (_clean_content text_with_delimiter_at_80) 0.
Proof.
  unfold cut_as_documented. intros H.
  destruct H as [H _]; [vm_compute; reflexivity|].
  specialize (H 80).
  assert (E : window_end (mk 100 10)
                (_clean_content text_with_delimiter_at_80) 0 = 100)
    by (vm_compute; reflexivity).
  rewrite E in H. cut (100 = 0 + 80 + 2); [lia|]. apply H.
  - exists (str ". "). split; [by left|].
    split_and!; [lia | vm_compute; discriminate | vm_compute; reflexivity].
  - vm_compute. discriminate.
  - intros q (e & Hin & Ho) _. apply occurs_at_le_rfind in Ho.
    assert (R : Forall (fun e => rfind (slice (_clean_content
                   text_with_delimiter_at_80) 0 (0 + chunk_size (mk 100 10))) e
                 <= 80) sentence_endings).
    { unfold sentence_endings.
      repeat (apply Forall_cons; split; [vm_compute; discriminate|]).
      apply Forall_nil_2. }
    rewrite Forall_forall in R. specialize (R _ Hin). lia.
Qed.

End chunker_cut.

Section chunker_loop.

Import DocumentChunker.

(** C2 (as amended). Construction never fails: for every pair of integers,
    [overlap >= chunk_size] included, the configuration and the chunker are
    built and hold the sizes unchanged, and so does the pipeline built from
    that configuration. *)
Theorem construction_accepts_any_sizes (chunk_size overlap : Z)
    (max_context_length : Z) (embedding_model completion_model : pystr)
    (temperature : float) (max_results : Z) :
  let config :=
    RAGConfig.mk chunk_size overlap max_context_length embedding_model
                 completion_model temperature max_results in
  RAGConfig.__init__ chunk_size overlap max_context_length embedding_model
    completion_model temperature max_results = Ok config /\
  DocumentChunker.__init__ chunk_size overlap = Ok (mk chunk_size overlap) /\
  RAGPipeline.__init__ (Some config)
  = Ok (RAGPipeline.mk config (mk chunk_size overlap) (str "/knowledge")).
Proof. intros config. split_and!; reflexivity. Qed.

(** The claim as worded fails: [overlap = chunk_size = 100] is accepted by
    both constructors. *)
Lemma construction_rejects_fails : 100 >= 100 /\ ~ construction_rejects 100 100.
Proof.
  split; [lia|]. intros [[e H] | [e H]].
  - specialize (H 4000 [] [] 0%float 5). discriminate H.
  - discriminate H.
Qed.

Lemma chunk_loop_unfold fuel self content md h start idx chunks :
  chunk_loop (S fuel) self content md h start idx chunks =
  if start <? len content then
    let end_ := window_end self content start in
    let chunk_content := strip (slice content start end_) in
    let '(h, chunks) :=
      match chunk_content with
      | [] => (h, chunks)
      | _ =>
          let '(h, chunk_metadata) := alloc h (deref h md) in
          let h :=
            alter (fun d => dict_update d
                     [(str "chunk_index", PInt idx);
                      (str "start_char", PInt start);
                      (str "end_char", PInt end_)])
                  chunk_metadata h in
          (h, chunks ++ [mk_chunk chunk_content chunk_metadata idx 0])
      end in
    chunk_loop fuel self content md h (end_ - overlap self) (idx + 1) chunks
  else (h, Some chunks).
Proof. reflexivity. Qed.

(** A window whose cut lies exactly [overlap] characters after its start is
    visited again and again: the loop does not come back, whatever the
    fuel. *)
Lemma chunk_loop_stuck self content md start :
  start < len content ->
  window_end self content start - overlap self = start ->
  forall fuel h idx chunks,
    (chunk_loop fuel self content md h start idx chunks).2 = None.
Proof.
  intros Hlt%Z.ltb_lt Hend. induction fuel as [|fuel IH]; intros h idx chunks.
  - reflexivity.
  - rewrite chunk_loop_unfold, Hlt. cbv zeta. rewrite Hend.
    destruct (strip _) as [|c s]; [apply IH|].
    destruct (alloc h (deref h md)) as [h' fresh]. apply IH.
Qed.

(** C3 (failing input). With [chunk_size = 100] and [overlap = 90] the first
    window of [text_with_delimiter_at_88] is cut after the delimiter, at
    offset 90, and the next window starts at [90 - 90 = 0] again: no amount
    of fuel lets [chunk_document] return. *)
Theorem chunk_document_does_not_terminate :
  0 < chunk_size (mk 100 90) /\
  0 <= overlap (mk 100 90) < chunk_size (mk 100 90) /\
  forall fuel h metadata,
    (chunk_document fuel (mk 100 90) h text_with_delimiter_at_88 metadata).2
    = None.
Proof.
  split; [done|]. split; [done|]. intros fuel h metadata.
  unfold chunk_document. destruct (or_empty_dict h metadata) as [h' md].
  assert (Hlen : len (_clean_content text_with_delimiter_at_88) = 105)
    by (vm_compute; reflexivity).
  rewrite Hlen. change (105 <=? chunk_size (mk 100 90)) with false. cbv iota.
  pose proof (chunk_loop_stuck (mk 100 90)
                (_clean_content text_with_delimiter_at_88) md 0) as H.
  specialize (H ltac:(rewrite Hlen; lia) ltac:(vm_compute; reflexivity)
                fuel h' 0 []).
  destruct (chunk_loop _ _ _ _ _ _ _ _) as [h'' r].
  cbn [snd] in H. rewrite H. reflexivity.
Qed.

(** The [chunk_count] written on every returned chunk is the number of
    returned chunks. *)
Lemma chunk_count_is_total fuel self h content metadata h' chunks :
  chunk_document fuel self h content metadata = (h', Some chunks) ->
  Forall (fun c => chunk_count c = len chunks) chunks.
Proof.
  unfold chunk_document. destruct (or_empty_dict h metadata) as [h1 md].
  destruct (_ <=? _).
  - intros [= _ <-]. by repeat constructor.
  - destruct (chunk_loop _ _ _ _ _ _ _ _) as [h2 [cs|]]; [|done].
    intros [= _ <-]. unfold len. rewrite length_fmap.
    apply Forall_fmap, Forall_forall. done.
Qed.

(** C8 (failing input). With [chunk_size = 4] and [overlap = 1] the second
    window of the cleaned text is blank and dropped, but it consumes index 1:
    the three returned chunks carry the indices 0, 2 and 3 and the count 3,
    so the last one has [chunk_index = chunk_count]. *)
Theorem chunk_index_reaches_chunk_count :
  exists h chunks,
    chunk_document 10 (mk 4 1) [] text_with_blank_window None
    = (h, Some chunks) /\
    content <$> chunks = [str "ab"; str "c"; str "cd"] /\
    chunk_index <$> chunks = [0; 2; 3] /\
    chunk_count <$> chunks = [3; 3; 3] /\
    ~ Forall (fun c => chunk_index c < chunk_count c) chunks.
Proof.
  destruct (chunk_document 10 (mk 4 1) [] text_with_blank_window None)
    as [h r] eqn:E.
  assert (Hr : r = Some [mk_chunk (str "ab") 1 0 3; mk_chunk (str "c") 2 2 3;
                         mk_chunk (str "cd") 3 3 3]).
  { assert (Hr : (chunk_document 10 (mk 4 1) [] text_with_blank_window None).2
                = Some [mk_chunk (str "ab") 1 0 3; mk_chunk (str "c") 2 2 3;
                        mk_chunk (str "cd") 3 3 3])
      by (vm_compute; reflexivity).
    rewrite E in Hr. exact Hr. }
  subst r. eexists _, _. split; [reflexivity|].
  split_and!; try reflexivity.
  intros H. apply Forall_cons in H as [_ H]. apply Forall_cons in H as [_ H].
  apply Forall_cons in H as [H _]. cbn [chunk_index chunk_count] in H. lia.
Qed.

End chunker_loop.

Section chunker_progress.

Import DocumentChunker.

Lemma len_slice {A} (l : list A) (lo hi : Z) :
  0 <= lo -> lo <= hi -> hi <= len l -> len (slice l lo hi) = hi - lo.
Proof.
  intros Hlo Hhi Hlen. unfold slice.
  rewrite !slice_bound_nonneg by (unfold len in *; lia).
  rewrite !Z.min_l by lia. unfold len in *.
  rewrite length_take, length_drop. lia.
Qed.

(** With an overlap of at most four fifths of the chunk size plus two, every
    window that starts inside the text is followed by one that starts
    further right. *)
Lemma window_start_advances self content start :
  0 <= start ->
  0 <= overlap self < chunk_size self ->
  5 * overlap self <= 4 * chunk_size self + 10 ->
  start < window_end self content start - overlap self.
Proof.
  intros Hstart Hov Hsmall. unfold window_end.
  destruct (Z.ltb_spec (start + chunk_size self) (len content)) as [Hin|Hout];
    [|lia].
  set (window := slice content start (start + chunk_size self)).
  assert (Hw : len window = chunk_size self).
  { unfold window. rewrite len_slice; lia. }
  destruct (find_sentence_boundary_spec window)
    as [[-> _] | (p & e & -> & _ & Ho & Hq & _)]; simpl.
  - lia.
  - unfold past_four_fifths in Hq. rewrite Hw in Hq.
    assert (Hp : 0 <= p) by apply Ho.
    replace (p + 1 =? -1) with false by (symmetry; apply Z.eqb_neq; lia).
    simpl. lia.
Qed.

Lemma chunk_loop_returns self content md :
  0 <= overlap self < chunk_size self ->
  5 * overlap self <= 4 * chunk_size self + 10 ->
  forall fuel h start idx chunks,
    0 <= start ->
    (Z.to_nat (len content - start) < fuel)%nat ->
    exists h' chunks',
      chunk_loop fuel self content md h start idx chunks = (h', Some chunks').
Proof.
  intros Hov Hsmall. induction fuel as [|fuel IH];
    intros h start idx chunks Hstart Hfuel; [lia|].
  rewrite chunk_loop_unfold.
  destruct (Z.ltb_spec start (len content)) as [Hlt|Hge]; [|by eexists _, _].
  cbv zeta.
  pose proof (window_start_advances self content start Hstart Hov Hsmall) as Hadv.
  destruct (strip _) as [|c s].
  - apply IH; lia.
  - destruct (alloc h (deref h md)) as [h1 fresh]. apply IH; lia.
Qed.

(** X9. When the overlap is non-negative, below the chunk size and at most
    four fifths of the chunk size plus two, [chunk_document] returns for
    every text, on fuel beyond the length of the cleaned text. *)
Lemma chunk_document_returns self h content metadata :
  0 <= overlap self < chunk_size self ->
  5 * overlap self <= 4 * chunk_size self + 10 ->
  exists h' chunks,
    chunk_document (S (length (_clean_content content))) self h content metadata
    = (h', Some chunks).
Proof.
  intros Hov Hsmall. unfold chunk_document.
  destruct (or_empty_dict h metadata) as [h1 md].
  destruct (_ <=? _); [by eexists _, _|].
  destruct (chunk_loop_returns self (_clean_content content) md Hov Hsmall
              (S (length (_clean_content content))) h1 0 0 [])
    as (h' & chunks & ->); [lia | unfold len; lia |].
  by eexists _, _.
Qed.

End chunker_progress.

(* ===================================================================== *)
(** ** The retriever *)
(* ===================================================================== *)

Section retriever.

Import RAGPipeline.

Variable E : env.
Variable self : t.

Lemma collect_similarities_returns qe chunks sims :
  exists l, collect_similarities E qe chunks sims = Ok l.
Proof.
  revert sims. induction chunks as [|chunk chunks IH]; intros sims; simpl.
  - by eexists.
  - destruct (score_chunk E qe chunk) as [[entry|]|e]; simpl; apply IH.
Qed.

(** Candidates without a usable embedding add nothing. *)
Lemma collect_similarities_unusable qe chunks sims :
  Forall (fun chunk => ~ usable_embedding E qe chunk) chunks ->
  collect_similarities E qe chunks sims = Ok sims.
Proof.
  revert sims. induction chunks as [|chunk chunks IH]; intros sims Hall.
  - reflexivity.
  - apply Forall_cons in Hall as [Hchunk Hall]. simpl.
    destruct (score_chunk E qe chunk) as [[entry|]|e] eqn:Hs; simpl.
    + destruct Hchunk. by exists entry.
    + by apply IH.
    + by apply IH.
Qed.

Lemma fallback_text_search_returns query max_results :
  exists l, _fallback_text_search E query max_results = Ok l /\
            Forall sentinel_scored l.
Proof.
  unfold _fallback_text_search.
  destruct (query_with_builder E _) as [results|e]; simpl.
  - eexists. split; [reflexivity|]. apply Forall_fmap, Forall_forall. done.
  - exists []. split; [reflexivity | constructor].
Qed.

Lemma fallback_text_search_store_down query max_results :
  (forall ops, exists e, query_with_builder E ops = Raise e) ->
  _fallback_text_search E query max_results = Ok [].
Proof.
  intros Hdown. unfold _fallback_text_search.
  destruct (Hdown [Text query; TagFilter (str "knowledge-base");
                   Limit max_results]) as [e ->].
  reflexivity.
Qed.

(** C4 (as amended). When the candidate fetch returns at least one chunk and
    no candidate carries a usable stored embedding, [semantic_search] returns
    the empty list; the lexical fallback is not consulted. *)
Theorem no_usable_embedding_returns_empty (query : pystr)
    (max_results : option Z) (qe : list float) (results : query_result)
    (chunks : list document) :
  embed_text E query = Ok qe ->
  query_with_builder E
    [TagFilter (str "knowledge-base"); TagFilter (str "chunk"); Limit 1000]
  = Ok results ->
  documents results = Some chunks ->
  chunks <> [] ->
  Forall (fun chunk => ~ usable_embedding E qe chunk) chunks ->
  semantic_search E self query max_results = Ok [].
Proof.
  intros Hembed Hquery Hdocs Hne Hall. unfold semantic_search.
  rewrite Hembed. simpl. rewrite Hquery. simpl. rewrite Hdocs. simpl.
  destruct chunks as [|chunk chunks]; [done|].
  rewrite (collect_similarities_unusable qe _ [] Hall). simpl.
  unfold slice_to. by rewrite slice_nil.
Qed.

End retriever.

Section retriever_scenarios.

Import RAGPipeline.

Lemma one_is_not_sentinel : 1%float <> sentinel.
Proof.
  intros H.
  assert (Heq : PrimFloat.eqb 1%float sentinel = PrimFloat.eqb sentinel sentinel)
    by (by rewrite H).
  vm_compute in Heq. discriminate.
Qed.

(** The claim as worded fails on a working store: the stored chunk carries
    an embedding, so the result is scored by the similarity [1.0], not by
    the sentinel. *)
Lemma semantic_results_are_not_sentinel_scored :
  ~ returns_sentinel_scored (env_with_store [embedded_chunk]) default_pipeline
      (str "vector search") None.
Proof.
  intros (results & Hres & Hall).
  assert (Hrun : semantic_search (env_with_store [embedded_chunk])
                   default_pipeline (str "vector search") None
                 = Ok [mk_hit embedded_chunk 1%float
                         (Some (PDict [(str "embedding",
                                        PList [PFloat 1%float])]))])
    by (vm_compute; reflexivity).
  rewrite Hrun in Hres. injection Hres as <-.
  apply Forall_cons in Hall as [Hscore _].
  by apply one_is_not_sentinel.
Qed.

Lemma bare_chunk_unusable qe :
  ~ usable_embedding (env_with_store [bare_chunk]) qe bare_chunk.
Proof. intros [entry H]. vm_compute in H. discriminate. Qed.

Lemma no_usable_embedding_returns_empty_witness :
  let E := env_with_store [bare_chunk] in
  embed_text E (str "vector search") = Ok [1%float] /\
  query_with_builder E
    [TagFilter (str "knowledge-base"); TagFilter (str "chunk"); Limit 1000]
  = Ok (mk_query_result (Some [bare_chunk])) /\
  semantic_search E default_pipeline (str "vector search") None = Ok [].
Proof.
  intros E. split; [reflexivity|]. split; [reflexivity|].
  apply (no_usable_embedding_returns_empty E default_pipeline
           (str "vector search") None [1%float]
           (mk_query_result (Some [bare_chunk])) [bare_chunk]).
  - reflexivity.
  - reflexivity.
  - reflexivity.
  - discriminate.
  - apply Forall_cons. split; [|apply Forall_nil_2].
    intros [entry H]. vm_compute in H. discriminate.
Defined.

(** The claim as worded fails: the store returns one candidate without a
    metadata tag, the lexical query would return that chunk with the sentinel
    score, and [semantic_search] returns the empty list instead. *)
Lemma lexical_fallback_not_taken :
  let E := env_with_store [bare_chunk] in
  query_with_builder E
    [TagFilter (str "knowledge-base"); TagFilter (str "chunk"); Limit 1000]
  = Ok (mk_query_result (Some [bare_chunk])) /\
  ~ usable_embedding E [1%float] bare_chunk /\
  _fallback_text_search E (str "vector search") 5
  = Ok [mk_hit bare_chunk sentinel None] /\
  ~ returns_lexical_hits E default_pipeline (str "vector search") None.
Proof.
  intros E. split; [reflexivity|]. split; [apply bare_chunk_unusable|].
  split; [reflexivity|].
  unfold returns_lexical_hits. intros H. vm_compute in H. discriminate.
Qed.

End retriever_scenarios.

(* ===================================================================== *)
(** ** The answerer *)
(* ===================================================================== *)

Section answerer.

Import RAGPipeline.

Variable E : env.
Variable self : t.

Lemma collect_context_spec (context_docs : list hit) :
  collect_context context_docs
  = (omap context_part context_docs, omap source_title context_docs).
Proof.
  unfold collect_context.
  enough (forall parts srcs,
    foldl (fun '(context_parts, sources) doc_info =>
             let doc := hit_document doc_info in
             let content := strip (default [] (doc_content doc)) in
             let title := default (str "Unknown") (doc_title doc) in
             match content with
             | [] => (context_parts, sources)
             | _ =>
                 (context_parts
                    ++ [str "From '" ++ title ++ str "':" ++ [10]%N ++ content],
                  sources ++ [title])
             end) (parts, srcs) context_docs
    = (parts ++ omap context_part context_docs,
       srcs ++ omap source_title context_docs)) as H by apply (H [] []).
  induction context_docs as [|d docs IH]; intros parts srcs.
  - simpl. by rewrite !app_nil_r.
  - destruct (strip (default [] (doc_content (hit_document d))))
      as [|c s] eqn:Hc.
    + assert (Hp : context_part d = None)
        by (unfold context_part; by rewrite Hc).
      assert (Ht : source_title d = None)
        by (unfold source_title; by rewrite Hc).
      simpl. rewrite Hc, Hp, Ht. apply IH.
    + assert (Hp : context_part d
                   = Some (str "From '"
                           ++ default (str "Unknown") (doc_title (hit_document d))
                           ++ str "':" ++ [10]%N ++ c :: s))
        by (unfold context_part; by rewrite Hc).
      assert (Ht : source_title d
                   = Some (default (str "Unknown") (doc_title (hit_document d))))
        by (unfold source_title; by rewrite Hc).
      simpl. rewrite Hc, Hp, Ht, IH. simpl. by rewrite <- !app_assoc.
Qed.

(** What [generate_answer] returns for a given list of chunks. *)
Lemma generate_answer_spec (question : pystr) (context_docs : list hit) :
  exists a,
    generate_answer E self question (Some context_docs) = Ok a /\
    context_used a = join [10; 10]%N (take 3 (omap context_part context_docs)) /\
    sources a = list_to_set (omap source_title context_docs) /\
    context_docs_count a = len context_docs.
Proof.
  unfold generate_answer. cbn [mbind py_mbind Py.bind].
  rewrite collect_context_spec. rewrite slice_to_take by lia.
  destruct (openai_chat_completion E) as [chat|].
  - unfold _generate_openai_answer.
    destruct (chat _ _ _) as [response|e]; cbn; eexists; split_and!; reflexivity.
  - cbn. eexists. split_and!; reflexivity.
Qed.

Lemma take_omap {A B} (f : A -> option B) (l : list A) (n : nat) :
  take n (omap f l) = omap f (take n (filter (fun x => is_Some (f x)) l)).
Proof.
  revert n. induction l as [|x l IH]; intros n.
  - by destruct n.
  - destruct (f x) as [y|] eqn:Hx.
    + rewrite filter_cons_True by (by rewrite Hx).
      destruct n as [|n]; [done|]. simpl. rewrite Hx. simpl. by rewrite IH.
    + rewrite filter_cons_False by (rewrite Hx; by intros [? ?]).
      simpl. rewrite Hx. apply IH.
Qed.

(** C5 (as amended). For every list of ranked chunks [generate_answer]
    returns, and its context string is the blank-line join of the whole
    trimmed contents, each under its title, of the first three chunks with
    non-blank content, in ranking order. The configured maximum context
    length plays no part: the result is the same for every value of it. *)
Theorem context_is_first_three_whole_chunks (question : pystr)
    (context_docs : list hit) :
  exists a,
    generate_answer E self question (Some context_docs) = Ok a /\
    context_used a
    = join [10; 10]%N (omap context_part (included_chunks context_docs)) /\
    (length (included_chunks context_docs) <= 3)%nat /\
    included_chunks context_docs `sublist_of` context_docs /\
    forall n,
      generate_answer E (with_max_context_length n self) question
                      (Some context_docs) = Ok a.
Proof.
  destruct (generate_answer_spec question context_docs) as (a & Ha & Hc & _).
  exists a. split_and!.
  - done.
  - rewrite Hc. unfold included_chunks. by rewrite take_omap.
  - unfold included_chunks. rewrite length_take. lia.
  - unfold included_chunks. etrans; [apply sublist_take | apply sublist_filter].
  - intros n. rewrite <- Ha. reflexivity.
Qed.

(** C9 (as amended). The returned sources are the set of titles of all the
    chunks passed in whose content is not blank, whether or not the chunk is
    among the three included in the context string. *)
Theorem sources_are_titles_of_nonblank_chunks (question : pystr)
    (context_docs : list hit) :
  exists a,
    generate_answer E self question (Some context_docs) = Ok a /\
    sources a = list_to_set (omap source_title context_docs) /\
    forall title, title ∈ sources a <->
      exists doc_info, doc_info ∈ context_docs /\
                       source_title doc_info = Some title.
Proof.
  destruct (generate_answer_spec question context_docs) as (a & Ha & _ & Hs & _).
  exists a. split_and!; [done | done |].
  intros title. rewrite Hs, elem_of_list_to_set, list_elem_of_omap. done.
Qed.

End answerer.

Section answerer_scenarios.

Import RAGPipeline.

(** The claim as worded fails: one chunk of 4000 characters under its title
    makes a context longer than the default maximum of 4000. *)
Lemma context_exceeds_limit :
  ~ context_within_limit (env_with_store []) default_pipeline
      (str "What is it?") [long_hit].
Proof.
  intros H.
  destruct (generate_answer_spec (env_with_store []) default_pipeline
              (str "What is it?") [long_hit]) as (a & Ha & Hc & _).
  specialize (H a Ha). rewrite Hc in H.
  vm_compute in H. by apply H.
Qed.

(** The claim as worded fails: the fourth chunk is not part of the context
    string, yet its title is among the sources. *)
Lemma sources_include_excluded_chunk :
  ~ sources_of_included (env_with_store []) default_pipeline
      (str "Which letter?") four_hits.
Proof.
  intros H.
  destruct (generate_answer_spec (env_with_store []) default_pipeline
              (str "Which letter?") four_hits) as (a & Ha & _ & Hs & _).
  specialize (H a Ha). rewrite Hs in H.
  assert (Hin : str "Delta" ∈@{gset pystr}
                  list_to_set (omap source_title four_hits)).
  { apply elem_of_list_to_set, list_elem_of_omap.
    exists (hit_of "Delta" "Delta is the fourth letter."). split.
    - unfold four_hits. do 3 apply list_elem_of_further. apply list_elem_of_here.
    - vm_compute. reflexivity. }
  rewrite H in Hin. apply elem_of_list_to_set, list_elem_of_omap in Hin.
  destruct Hin as (d & Hd & Ht).
  assert (Hinc : included_chunks four_hits
                 = [hit_of "Alpha" "Alpha is the first letter.";
                    hit_of "Beta" "Beta is the second letter.";
                    hit_of "Gamma" "Gamma is the third letter."])
    by (vm_compute; reflexivity).
  rewrite Hinc in Hd.
  repeat (apply elem_of_cons in Hd as [->|Hd]);
    [vm_compute in Ht; discriminate..|].
  by apply elem_of_nil in Hd.
Qed.

End answerer_scenarios.

Section fallback_answer.

Import RAGPipeline.

Variable E : env.

Lemma collect_best_sentences_spec (question context : pystr) :
  collect_best_sentences E (word_set E question) (re_split_sentences context)
  = omap (candidate E question) (sentences context).
Proof.
  unfold collect_best_sentences, sentences.
  generalize (re_split_sentences context). intros pieces.
  enough (forall acc,
    foldl (fun best_sentences sentence =>
             let sentence := strip sentence in
             if len sentence <? 10 then best_sentences
             else
               let sentence_words := word_set E sentence in
               let overlap := size (word_set E question ∩ sentence_words) in
               if (0 <? overlap)%nat
               then best_sentences ++ [(sentence, overlap)]
               else best_sentences) acc pieces
    = acc ++ omap (candidate E question) (strip <$> pieces)) as H
    by apply (H []).
  induction pieces as [|p pieces IH]; intros acc.
  - simpl. by rewrite app_nil_r.
  - simpl. rewrite IH. unfold candidate, word_overlap.
    destruct (len (strip p) <? 10); [done|].
    destruct (0 <? _)%nat; [|done].
    by rewrite <- app_assoc.
Qed.

Lemma sort_by_overlap_head (l : list (pystr * nat)) :
  match sort_by_overlap l with
  | [] => l = []
  | x :: _ => x ∈ l /\ forall y, y ∈ l -> (y.2 <= x.2)%nat
  end.
Proof.
  induction l as [|a l IH]; [done|].
  unfold sort_by_overlap in *. simpl.
  destruct (foldr insert_by_overlap [] l) as [|h t]; simpl.
  - subst l. split; [apply list_elem_of_here|].
    intros y ->%list_elem_of_singleton. done.
  - destruct IH as [Hh Hmax].
    destruct (Nat.ltb_spec a.2 h.2) as [Hlt|Hge].
    + split; [by apply list_elem_of_further|].
      intros y [->|Hy]%elem_of_cons; [lia | by apply Hmax].
    + split; [apply list_elem_of_here|].
      intros y [->|Hy]%elem_of_cons; [done|]. specialize (Hmax _ Hy). lia.
Qed.

Lemma candidate_Some question s x :
  candidate E question s = Some x ->
  x = (s, word_overlap E question s) /\ 10 <= len s /\
  (0 < word_overlap E question s)%nat.
Proof.
  unfold candidate. destruct (Z.ltb_spec (len s) 10); [done|].
  destruct (Nat.ltb_spec 0 (word_overlap E question s)); [|done].
  by intros [= <-].
Qed.

Lemma candidate_eligible question s :
  10 <= len s -> (0 < word_overlap E question s)%nat ->
  candidate E question s = Some (s, word_overlap E question s).
Proof.
  intros Hlen Hov. unfold candidate.
  destruct (Z.ltb_spec (len s) 10); [lia|].
  destruct (Nat.ltb_spec 0 (word_overlap E question s)); [done | lia].
Qed.

(** C6 (as amended). The extractive answer follows a three-way split over
    the trimmed sentences of at least 10 characters: a blank context yields
    the insufficient-information message; a non-blank context in which no
    such sentence shares a word with the question yields the unanswerable
    message; otherwise the answer is the label followed by such a sentence
    of largest word overlap. Shorter sentences are never considered. *)
Theorem fallback_answer_cases (question context : pystr) :
  let answer := _generate_fallback_answer E question context in
  (strip context = [] -> answer = insufficient_information) /\
  (strip context <> [] ->
   (forall s, s ∈ sentences context -> 10 <= len s ->
              word_overlap E question s = 0%nat) ->
   answer = unanswerable) /\
  (strip context <> [] ->
   (exists s, s ∈ sentences context /\ 10 <= len s /\
              (0 < word_overlap E question s)%nat) ->
   exists s, s ∈ sentences context /\ 10 <= len s /\
     (0 < word_overlap E question s)%nat /\
     (forall s', s' ∈ sentences context -> 10 <= len s' ->
                 (word_overlap E question s' <= word_overlap E question s)%nat) /\
     answer = answer_label ++ s).
Proof.
  intros answer. subst answer. unfold _generate_fallback_answer.
  destruct (strip context) as [|c rest] eqn:Hctx.
  { split_and!; [done | done..]. }
  rewrite collect_best_sentences_spec.
  pose proof (sort_by_overlap_head
                (omap (candidate E question) (sentences context))) as Hsort.
  destruct (sort_by_overlap _) as [|best tail].
  - split_and!; [done | done |].
    intros _ (s & Hs & Hlen & Hov). exfalso.
    assert (Hin : (s, word_overlap E question s)
                  ∈ omap (candidate E question) (sentences context)).
    { apply list_elem_of_omap. exists s. split; [done|].
      by apply candidate_eligible. }
    rewrite Hsort in Hin. by apply elem_of_nil in Hin.
  - destruct Hsort as [Hbest Hmax].
    apply list_elem_of_omap in Hbest as (s & Hs & Hcand).
    apply candidate_Some in Hcand as (-> & Hlen & Hov).
    split_and!; [done | |].
    + intros _ Hnone. specialize (Hnone s Hs Hlen). lia.
    + intros _ _. exists s. split_and!; try done.
      intros s' Hs' Hlen'.
      destruct (Nat.eq_dec (word_overlap E question s') 0%nat) as [Hz|Hpos]; [lia|].
      apply (Hmax (s', word_overlap E question s')).
      apply list_elem_of_omap. exists s'. split; [done|].
      apply candidate_eligible; [done | lia].
Qed.

End fallback_answer.

Section fallback_answer_scenarios.

Import RAGPipeline.

(** An overlapping sentence of at least 10 characters is returned under the
    label. *)
Example fallback_answer_overlap :
  _generate_fallback_answer (env_with_store [])
    (str "What is KotaDB") (str "KotaDB is a database. It is fast")
  = str "Based on the knowledge base: KotaDB is a database".
Proof. vm_compute. reflexivity. Qed.

(** The claim as worded fails: the only sentence of the context shares the
    word [cats] with the question but has 9 characters, so the answer is the
    unanswerable message and no sentence is returned. *)
Lemma short_sentence_is_ignored :
  ~ fallback_answer_as_documented (env_with_store [])
      (str "cats") (str "Cats purr.").
Proof.
  intros (_ & _ & H).
  destruct H as (s & _ & _ & Hans).
  - vm_compute. discriminate.
  - exists (str "Cats purr"). split.
    + unfold sentences.
      assert (Hsplit : re_split_sentences (str "Cats purr.")
                       = [str "Cats purr"; []]) by (vm_compute; reflexivity).
      rewrite Hsplit. apply list_elem_of_here.
    + assert (Hov : word_overlap (env_with_store []) (str "cats")
                      (str "Cats purr") = 1%nat) by (vm_compute; reflexivity).
      rewrite Hov. lia.
  - assert (Hrun : _generate_fallback_answer (env_with_store [])
                     (str "cats") (str "Cats purr.") = unanswerable)
      by (vm_compute; reflexivity).
    rewrite Hrun in Hans. vm_compute in Hans. discriminate.
Qed.

End fallback_answer_scenarios.

(* ===================================================================== *)
(** ** Ingestion and the caller's metadata *)
(* ===================================================================== *)

Section ingestion.

Import RAGPipeline.

Variable E : env.
Variable self : t.

(** A fresh object written right after its allocation leaves the older part
    of the heap as it was. *)
Lemma alloc_alter_prefix (h : heap) (d : dict) (f : dict -> dict) :
  h `prefix_of` alter f (alloc h d).2 (alloc h d).1.
Proof.
  unfold alloc. simpl.
  rewrite <- (Nat.add_0_r (length h)), alter_app_r. by apply prefix_app_r.
Qed.

Lemma chunk_loop_prefix fuel chunker content md h start idx chunks :
  h `prefix_of`
    (DocumentChunker.chunk_loop fuel chunker content md h start idx chunks).1.
Proof.
  revert h start idx chunks.
  induction fuel as [|fuel IH]; intros h start idx chunks; [done|].
  rewrite chunk_loop_unfold. destruct (start <? len content); [|done].
  cbv zeta. destruct (strip _) as [|c s]; [apply IH|].
  etrans; [|apply IH]. apply alloc_alter_prefix.
Qed.

Lemma or_empty_dict_prefix h metadata :
  h `prefix_of` (or_empty_dict h metadata).1.
Proof.
  unfold or_empty_dict, alloc. destruct metadata as [l|].
  - destruct (bool_decide _); simpl; [by apply prefix_app_r | done].
  - simpl. by apply prefix_app_r.
Qed.

Lemma chunk_document_prefix fuel chunker h content metadata :
  h `prefix_of`
    (DocumentChunker.chunk_document fuel chunker h content metadata).1.
Proof.
  unfold DocumentChunker.chunk_document.
  pose proof (or_empty_dict_prefix h metadata) as Hp.
  destruct (or_empty_dict h metadata) as [h1 md]. simpl in Hp.
  destruct (_ <=? _); [done|].
  pose proof (chunk_loop_prefix fuel chunker
                (DocumentChunker._clean_content content) md h1 0 0 []) as Hl.
  destruct (DocumentChunker.chunk_loop _ _ _ _ _ _ _ _) as [h2 r].
  simpl in *. by etrans.
Qed.

Lemma store_chunk_prefix h title source i chunk :
  h `prefix_of` (store_chunk E self h title source i chunk).1.
Proof.
  unfold store_chunk. destruct (embed_text E _) as [embedding|e]; [|done].
  destruct (ValidatedPath E _) as [path|e]; [|done].
  apply alloc_alter_prefix.
Qed.

Lemma store_chunks_prefix h title source i chunks chunk_ids :
  h `prefix_of` (store_chunks E self h title source i chunks chunk_ids).1.
Proof.
  revert h i chunk_ids.
  induction chunks as [|chunk chunks IH]; intros h i chunk_ids; [done|].
  simpl. pose proof (store_chunk_prefix h title source i chunk) as Hp.
  destruct (store_chunk E self h title source i chunk) as [h1 r].
  etrans; [exact Hp | apply IH].
Qed.

(** The only write [ingest_document] makes to an object that existed before
    the call is the update of the metadata it works on. *)
Lemma ingest_document_frame fuel h title content source metadata l :
  (l < length (or_empty_dict h metadata).1)%nat ->
  (ingest_document E self fuel h title content source metadata).1 !! l
  = alter (fun d => dict_update d (ingest_entries E content source))
          (or_empty_dict h metadata).2 (or_empty_dict h metadata).1 !! l.
Proof.
  intros Hl. unfold ingest_document.
  destruct (or_empty_dict h metadata) as [h1 md]. simpl in *.
  set (h2 := alter _ md h1).
  assert (Hlen : (l < length h2)%nat) by (unfold h2; by rewrite length_alter).
  pose proof (chunk_document_prefix fuel (chunker self) h2 content (Some md))
    as Hp.
  destruct (DocumentChunker.chunk_document _ _ _ _ _) as [h3 [chunks|]].
  - pose proof (store_chunks_prefix h3 title source 0 chunks []) as Hs.
    destruct (store_chunks E self h3 title source 0 chunks []) as [h4 ids].
    simpl in *. symmetry.
    rewrite <- (prefix_lookup_lt h2 h4); [done | done | by etrans].
  - simpl in *. symmetry. by rewrite <- (prefix_lookup_lt h2 h3).
Qed.

Lemma ingest_keys_distinct :
  str "source" <> str "ingested_at" /\ str "source" <> str "content_length" /\
  str "ingested_at" <> str "content_length".
Proof. split_and!; intros H; vm_compute in H; discriminate H. Qed.

Lemma ingest_entries_lookup (d : dict) content source :
  let d' := dict_update d (ingest_entries E content source) in
  d' !! str "source" = Some (PStr (source_or_unknown source)) /\
  d' !! str "ingested_at" = Some (PStr (now_isoformat E)) /\
  d' !! str "content_length" = Some (PInt (len content)) /\
  forall k, k <> str "source" -> k <> str "ingested_at" ->
            k <> str "content_length" -> d' !! k = d !! k.
Proof.
  destruct ingest_keys_distinct as (H1 & H2 & H3).
  unfold dict_update, ingest_entries. cbn [foldl fst snd]. split_and!.
  - rewrite lookup_insert_ne by done. rewrite lookup_insert_ne by done.
    apply lookup_insert_eq.
  - rewrite lookup_insert_ne by done. apply lookup_insert_eq.
  - apply lookup_insert_eq.
  - intros k Hk1 Hk2 Hk3. by rewrite !lookup_insert_ne.
Qed.

(** C10 (as amended). When the caller passes a non-empty metadata mapping,
    that very object is updated: after the call (and at every point of it
    after the first statement, whether or not the chunker comes back) it
    holds ['source'], ['ingested_at'] and ['content_length'] with the new
    values, and every other entry as before. When the caller passes an empty
    mapping, it is left empty: the entries go to a fresh dict. *)
Theorem ingest_document_updates_caller_metadata (fuel : nat) (h : heap)
    (title content : pystr) (source : option pystr) (l : loc) (d : dict) :
  h !! l = Some d ->
  let h' := (ingest_document E self fuel h title content source (Some l)).1 in
  (d <> ∅ ->
   exists d', h' !! l = Some d' /\
     d' !! str "source" = Some (PStr (source_or_unknown source)) /\
     d' !! str "ingested_at" = Some (PStr (now_isoformat E)) /\
     d' !! str "content_length" = Some (PInt (len content)) /\
     forall k, k <> str "source" -> k <> str "ingested_at" ->
               k <> str "content_length" -> d' !! k = d !! k) /\
  (d = ∅ -> h' !! l = Some ∅).
Proof.
  intros Hl h'. subst h'.
  assert (Hlt : (l < length h)%nat) by (by eapply lookup_lt_Some).
  assert (Hderef : deref h l = d) by (unfold deref; by rewrite Hl).
  split.
  - intros Hne. rewrite ingest_document_frame.
    + unfold or_empty_dict. rewrite Hderef, bool_decide_eq_false_2 by done.
      cbn [fst snd]. rewrite list_lookup_alter_eq, Hl. cbn [fmap option_fmap option_map].
      eexists. split; [reflexivity|]. apply ingest_entries_lookup.
    + unfold or_empty_dict. rewrite Hderef, bool_decide_eq_false_2 by done.
      done.
  - intros ->. rewrite ingest_document_frame.
    + unfold or_empty_dict, alloc. rewrite Hderef, bool_decide_eq_true_2 by done.
      cbn [fst snd]. rewrite list_lookup_alter_ne by lia.
      by rewrite lookup_app_l.
    + unfold or_empty_dict, alloc. rewrite Hderef, bool_decide_eq_true_2 by done.
      cbn [fst snd]. rewrite length_app. lia.
Qed.

End ingestion.

Section ingestion_scenarios.

Import RAGPipeline.

Lemma ingest_document_updates_caller_metadata_witness :
  let E := env_with_store [] in
  let d : dict := {[ str "author" := PStr (str "kota") ]} in
  let h' := (ingest_document E default_pipeline 10 [d] (str "Note")
               (str "KotaDB is fast.") (Some (str "docs")) (Some 0%nat)).1 in
  [d] !! 0%nat = Some d /\
  ((d <> ∅ ->
    exists d', h' !! 0%nat = Some d' /\
      d' !! str "source" = Some (PStr (source_or_unknown (Some (str "docs")))) /\
      d' !! str "ingested_at" = Some (PStr (now_isoformat E)) /\
      d' !! str "content_length" = Some (PInt (len (str "KotaDB is fast."))) /\
      forall k, k <> str "source" -> k <> str "ingested_at" ->
                k <> str "content_length" -> d' !! k = d !! k) /\
   (d = ∅ -> h' !! 0%nat = Some ∅)).
Proof.
  intros E d h'. split; [reflexivity|].
  apply (ingest_document_updates_caller_metadata E default_pipeline 10 [d]
           (str "Note") (str "KotaDB is fast.") (Some (str "docs")) 0%nat d).
  reflexivity.
Defined.

(** The claim as worded fails for an empty mapping: [metadata or {}] swaps
    it for a fresh dict, and the caller's object has no ['source'] entry
    after the call. *)
Lemma empty_metadata_is_not_mutated :
  ~ metadata_mutated_in_place (env_with_store []) default_pipeline 10 [∅]
      (str "Note") (str "KotaDB is fast.") (Some (str "docs")) 0%nat.
Proof.
  intros (d' & Hd & Hsrc & _).
  rewrite ingest_document_frame in Hd by (vm_compute; lia).
  assert (Hempty : d' = ∅).
  { vm_compute in Hd. injection Hd as <-. vm_compute. reflexivity. }
  subst d'. rewrite lookup_empty in Hsrc. discriminate.
Qed.

End ingestion_scenarios.

(* ===================================================================== *)
(** ** More facts about the string primitives *)
(* ===================================================================== *)

Section strip_facts.

Lemma lstrip_spec (s : pystr) :
  exists k, (k <= length s)%nat /\ lstrip s = drop k s /\
    Forall (fun c => isspace c = true) (take k s) /\
    head_not_space (lstrip s).
Proof.
  induction s as [|c s IH]; simpl.
  - exists 0%nat. split_and!; [lia | done | constructor | done].
  - destruct (isspace c) eqn:Hc.
    + destruct IH as (k & Hk & Hd & Hall & Hh).
      exists (S k). split_and!; [lia | done | by constructor | done].
    + exists 0%nat. split_and!; [lia | done | constructor | done].
Qed.

Lemma lstrip_id (s : pystr) : head_not_space s -> lstrip s = s.
Proof. destruct s as [|c s]; [done|]. simpl. by intros ->. Qed.

Lemma lstrip_idemp (s : pystr) : lstrip (lstrip s) = lstrip s.
Proof. apply lstrip_id. by destruct (lstrip_spec s) as (k & _ & _ & _ & H). Qed.

Lemma rstrip_spec (s : pystr) :
  exists m, (m <= length s)%nat /\ rstrip s = take m s /\
    Forall (fun c => isspace c = true) (drop m s) /\
    last_not_space (rstrip s).
Proof.
  unfold rstrip.
  destruct (lstrip_spec (reverse s)) as (k & Hk & Hd & Hall & Hh).
  rewrite length_reverse in Hk.
  exists (length s - k)%nat. split_and!.
  - lia.
  - by rewrite Hd, drop_reverse, list.reverse_involutive.
  - rewrite take_reverse, Forall_reverse in Hall. exact Hall.
  - unfold last_not_space, head_not_space in *. rewrite last_reverse.
    by destruct (lstrip (reverse s)).
Qed.

Lemma rstrip_idemp (s : pystr) : rstrip (rstrip s) = rstrip s.
Proof. unfold rstrip. by rewrite list.reverse_involutive, lstrip_idemp. Qed.

Lemma rstrip_keeps_head (s : pystr) :
  head_not_space s -> head_not_space (rstrip s).
Proof.
  intros Hh. destruct (rstrip_spec s) as (m & Hm & -> & Hall & _).
  destruct s as [|c s]; [by rewrite take_nil|].
  destruct m as [|m]; [done|]. done.
Qed.

Lemma strip_idemp (s : pystr) : strip (strip s) = strip s.
Proof.
  unfold strip. rewrite (lstrip_id (rstrip (lstrip s))).
  - apply rstrip_idemp.
  - apply rstrip_keeps_head. by destruct (lstrip_spec s) as (k & _ & _ & _ & H).
Qed.

Lemma strip_spec (s : pystr) :
  exists k m, strip s = take m (drop k s) /\
    Forall (fun c => isspace c = true) (take k s) /\
    Forall (fun c => isspace c = true) (drop m (drop k s)) /\
    head_not_space (strip s) /\ last_not_space (strip s).
Proof.
  unfold strip.
  destruct (lstrip_spec s) as (k & Hk & Hd & Hall & Hh).
  destruct (rstrip_spec (lstrip s)) as (m & Hm & Hr & Hall' & Hl).
  exists k, m. split_and!.
  - by rewrite Hr, Hd.
  - done.
  - by rewrite <- Hd.
  - by apply rstrip_keeps_head.
  - done.
Qed.

Lemma len_strip_le (s : pystr) : len (strip s) <= len s.
Proof.
  destruct (strip_spec s) as (k & m & -> & _). unfold len.
  rewrite length_take, length_drop. lia.
Qed.

Lemma Forall_strip (P : N -> Prop) (s : pystr) :
  Forall P s -> Forall P (strip s).
Proof.
  intros H. destruct (strip_spec s) as (k & m & -> & _).
  by apply Forall_take, Forall_drop.
Qed.

(** Stripping leaves nothing exactly when every character is whitespace. *)
Lemma strip_nil_iff (s : pystr) :
  strip s = [] <-> Forall (fun c => isspace c = true) s.
Proof.
  split.
  - intros Hs. destruct (strip_spec s) as (k & m & Heq & Hk & Hm & _).
    rewrite Hs in Heq.
    rewrite <- (take_drop k s). apply Forall_app. split; [done|].
    rewrite <- (take_drop m (drop k s)), <- Heq. done.
  - intros Hall. destruct (strip_spec s) as (k & m & Heq & _ & _ & Hh & _).
    destruct (strip s) as [|c t] eqn:Hs; [done|]. exfalso.
    assert (Hc : isspace c = true).
    { assert (Hin : Forall (fun c => isspace c = true) (c :: t)).
      { rewrite Heq. by apply Forall_take, Forall_drop. }
      by apply Forall_cons in Hin as [? _]. }
    simpl in Hh. congruence.
Qed.

End strip_facts.

Section slice_facts.

Lemma slice_sublist {A} (l : list A) (lo hi : Z) : slice l lo hi `sublist_of` l.
Proof. unfold slice. etrans; [apply sublist_take | apply sublist_drop]. Qed.

Lemma Forall_slice {A} (P : A -> Prop) (l : list A) (lo hi : Z) :
  Forall P l -> Forall P (slice l lo hi).
Proof. intros H. unfold slice. by apply Forall_take, Forall_drop. Qed.

(** A slice is never longer than the distance of its bounds. *)
Lemma len_slice_le {A} (l : list A) (lo hi : Z) :
  lo <= hi -> len (slice l lo hi) <= hi - lo.
Proof.
  intros Hle. unfold slice, slice_bound, len.
  rewrite length_take, length_drop.
  destruct (Z.ltb_spec lo 0), (Z.ltb_spec hi 0);
    repeat match goal with
           | |- context [Z.ltb ?a ?b] => destruct (Z.ltb_spec a b)
           end; lia.
Qed.

Lemma lookup_slice {A} (l : list A) (lo hi : Z) (i : nat) :
  0 <= lo -> lo <= Z.of_nat i < hi ->
  slice l lo hi !! (i - Z.to_nat lo)%nat = l !! i.
Proof.
  intros Hlo Hi. unfold slice.
  rewrite !slice_bound_nonneg by (unfold len; lia).
  destruct (l !! i) as [x|] eqn:Hx.
  - apply lookup_lt_Some in Hx as Hlt.
    rewrite lookup_take_lt by (unfold len; lia).
    rewrite lookup_drop. rewrite <- Hx. f_equal. unfold len. lia.
  - apply lookup_ge_None in Hx. apply lookup_ge_None.
    rewrite length_take, length_drop. unfold len. lia.
Qed.

End slice_facts.

(* ===================================================================== *)
(** ** More about the chunker *)
(* ===================================================================== *)

Section clean_content.

Import DocumentChunker.

Lemma collapse_ws_spaces b (s : pystr) :
  Forall (fun c => isspace c = true -> c = 32%N) (collapse_ws b s).
Proof.
  revert b. induction s as [|c s IH]; intros b; simpl; [constructor|].
  destruct (isspace c) eqn:Hc.
  - destruct b; [apply IH|]. constructor; [done | apply IH].
  - constructor; [congruence | apply IH].
Qed.

Lemma clean_content_chars (content : pystr) :
  Forall (fun c => is_control c = false /\ (isspace c = true -> c = 32%N))
         (_clean_content content).
Proof.
  unfold _clean_content. apply Forall_strip. unfold remove_control.
  apply Forall_forall. intros c Hc.
  apply list_elem_of_filter in Hc as [Hctl Hin]. split; [done|].
  pose proof (collapse_ws_spaces false content) as Hall.
  rewrite Forall_forall in Hall. by apply Hall.
Qed.

Lemma clean_content_ends (content : pystr) :
  head_not_space (_clean_content content) /\
  last_not_space (_clean_content content).
Proof.
  unfold _clean_content.
  by destruct (strip_spec (remove_control (collapse_ws false content)))
    as (k & m & _ & _ & _ & H1 & H2).
Qed.

(** X2. The cleaned text holds no control character and no whitespace other
    than the plain space, and neither starts nor ends with whitespace:
    stripping it again changes nothing. *)
Theorem clean_content_normal_form (content : pystr) :
  Forall (fun c => is_control c = false /\ (isspace c = true -> c = 32%N))
         (_clean_content content) /\
  head_not_space (_clean_content content) /\
  last_not_space (_clean_content content) /\
  strip (_clean_content content) = _clean_content content.
Proof.
  split; [apply clean_content_chars|].
  split; [apply clean_content_ends|]. split; [apply clean_content_ends|].
  unfold _clean_content. apply strip_idemp.
Qed.

(** X3. The three newline-terminated sentence endings are never found in a
    window of the cleaned text: a newline is whitespace and a control
    character, and cleaning leaves none. *)
Theorem newline_endings_never_found (content : pystr) (start stop : Z)
    (ending : pystr) :
  ending ∈ [[46; 10]; [33; 10]; [63; 10]]%N ->
  rfind (slice (_clean_content content) start stop) ending = -1.
Proof.
  intros Hin.
  destruct (decide (rfind (slice (_clean_content content) start stop) ending
                    = -1)) as [|Hfound]; [done|].
  exfalso. destruct (rfind_some _ _ _ eq_refl Hfound) as [Hocc _].
  assert (Hnl : exists c, ending = [c; 10%N]).
  { repeat (apply elem_of_cons in Hin as [->|Hin]); try by eexists.
    by apply elem_of_nil in Hin. }
  destruct Hnl as [c ->]. apply occurs_at_two in Hocc as [_ Hnl].
  apply list_elem_of_lookup_2 in Hnl.
  pose proof (clean_content_chars content) as Hall.
  apply (Forall_slice _ _ start stop) in Hall.
  rewrite Forall_forall in Hall. by destruct (Hall _ Hnl) as [Hctl _].
Qed.

Lemma newline_endings_never_found_witness :
  [46; 10]%N ∈ [[46; 10]; [33; 10]; [63; 10]]%N /\
  rfind (slice (_clean_content [72; 105; 46; 10; 89; 111; 46; 10]%N) 0 100)
        [46; 10]%N = -1.
Proof.
  split; [apply list_elem_of_here|].
  apply (newline_endings_never_found _ 0 100). apply list_elem_of_here.
Defined.

End clean_content.

Section chunk_loop_runs.

Import DocumentChunker.

Variable self : t.
Variable content : pystr.

Lemma pairwise_cons {A} (R : A -> A -> Prop) (a : A) (l : list A) :
  Forall (R a) l -> pairwise R l -> pairwise R (a :: l).
Proof.
  intros Hall Hl i j x y Hij Hi Hj.
  destruct j as [|j]; [lia|]. simpl in Hj.
  destruct i as [|i]; simpl in Hi.
  - injection Hi as <-. rewrite Forall_lookup in Hall. by eapply Hall.
  - apply (Hl i j); [lia | done | done].
Qed.

Lemma pairwise_fmap {A B} (f : A -> B) (R : B -> B -> Prop) (l : list A) :
  pairwise (fun a b => R (f a) (f b)) l -> pairwise R (f <$> l).
Proof.
  intros Hl i j x y Hij Hi Hj.
  apply list_lookup_fmap_Some in Hi as (a & -> & Ha).
  apply list_lookup_fmap_Some in Hj as (b & -> & Hb).
  by apply (Hl i j).
Qed.

(** The cut of a window lies between its start and [chunk_size] characters
    later. *)
Lemma window_end_range (start : Z) :
  0 <= chunk_size self ->
  start <= window_end self content start <= start + chunk_size self.
Proof.
  intros Hcs. unfold window_end.
  destruct (Z.ltb_spec (start + chunk_size self) (len content)); [|lia].
  set (window := slice content start (start + chunk_size self)).
  assert (Hw : len window <= chunk_size self).
  { unfold window. pose proof (len_slice_le content start
      (start + chunk_size self)). lia. }
  destruct (find_sentence_boundary_spec window)
    as [[-> _] | (p & e & -> & Hin & Ho & _ & _)]; simpl; [lia|].
  assert (He : len e = 2).
  { pose proof sentence_endings_shape as Hs. rewrite Forall_forall in Hs.
    destruct (Hs _ Hin) as (c1 & c2 & -> & _). reflexivity. }
  destruct Ho as (Hp & Hle & _).
  replace (p + 1 =? -1) with false by (symmetry; apply Z.eqb_neq; lia).
  simpl. lia.
Qed.

(** The loop, when it returns, has gone through a run; the dicts it has
    allocated and the chunks it has appended are those of the kept windows
    of the run, in order. *)
Lemma chunk_loop_run fuel md h start idx chunks h' chunks' :
  (md < length h)%nat ->
  chunk_loop fuel self content md h start idx chunks = (h', Some chunks') ->
  exists ws,
    loop_run self content start idx ws /\
    h' = h ++ (dict_of_window self content (deref h md) <$> ws) /\
    chunks' = chunks ++
      imap (fun k w => chunk_of_window self content (length h + k)%nat w) ws.
Proof.
  revert h start idx chunks.
  induction fuel as [|fuel IH]; intros h start idx chunks Hmd Hrun; [done|].
  rewrite chunk_loop_unfold in Hrun.
  destruct (Z.ltb_spec start (len content)) as [Hlt|Hge].
  2:{ injection Hrun as <- <-. exists []. split_and!.
      - by constructor.
      - by rewrite app_nil_r.
      - by rewrite app_nil_r. }
  cbv zeta in Hrun.
  destruct (strip (slice content start (window_end self content start)))
    as [|c s] eqn:Hstrip.
  - apply IH in Hrun as (ws & Hws & Hh & Hc); [|done].
    exists ws. split_and!; [|done|done]. by apply loop_run_blank.
  - unfold alloc in Hrun. cbn [fst snd] in Hrun.
    assert (Halt : alter (fun d => dict_update d
                     [(str "chunk_index", PInt idx);
                      (str "start_char", PInt start);
                      (str "end_char", PInt (window_end self content start))])
                     (length h) (h ++ [deref h md])
                   = h ++ [dict_of_window self content (deref h md)
                             (idx, start)]).
    { rewrite <- (Nat.add_0_r (length h)), alter_app_r. reflexivity. }
    rewrite Halt in Hrun.
    apply IH in Hrun as (ws & Hws & Hh & Hc).
    2:{ rewrite length_app. simpl. lia. }
    assert (Hderef : deref (h ++ [dict_of_window self content (deref h md)
                                    (idx, start)]) md = deref h md).
    { unfold deref. by rewrite lookup_app_l. }
    rewrite Hderef in Hh.
    exists ((idx, start) :: ws). split_and!.
    + apply loop_run_chunk; [done | by rewrite Hstrip | done].
    + rewrite Hh, <- app_assoc. reflexivity.
    + rewrite Hc, <- app_assoc. f_equal. rewrite imap_cons. simpl.
      unfold chunk_of_window at 2. cbn [fst snd]. rewrite Hstrip.
      rewrite Nat.add_0_r. f_equal.
      apply imap_ext. intros k w _. simpl. rewrite length_app. simpl.
      f_equal. lia.
Qed.

Lemma loop_run_kept start idx ws :
  loop_run self content start idx ws ->
  Forall (fun w => w.2 < len content /\
            strip (slice content w.2 (window_end self content w.2)) <> []) ws.
Proof.
  induction 1; [constructor | done | by constructor].
Qed.

Lemma loop_run_indices start idx ws :
  loop_run self content start idx ws ->
  Forall (fun w => idx <= w.1) ws /\ pairwise (fun a b => a.1 < b.1) ws.
Proof.
  induction 1 as [start idx Hge | start idx ws Hlt Hs Hrun [IH1 IH2]
                 | start idx ws Hlt Hs Hrun [IH1 IH2]].
  - split; [constructor|]. intros i j a b _ Hi. by rewrite lookup_nil in Hi.
  - split; [|done]. eapply Forall_impl; [exact IH1|]. simpl. lia.
  - split.
    + constructor; [simpl; lia|]. eapply Forall_impl; [exact IH1|]. simpl. lia.
    + apply pairwise_cons; [|done].
      eapply Forall_impl; [exact IH1|]. simpl. lia.
Qed.

(** With a moderate overlap the windows of a run that starts inside the text
    start further and further right, and so do their cuts. *)
Lemma loop_run_offsets start idx ws :
  moderate_overlap self ->
  0 <= start ->
  loop_run self content start idx ws ->
  Forall (fun w => start <= w.2) ws /\
  pairwise (fun a b => a.2 < b.2 /\
              window_end self content a.2 < window_end self content b.2) ws.
Proof.
  intros [Hov Hsmall] Hstart Hrun.
  induction Hrun as [start idx Hge | start idx ws Hlt Hs Hrun IH
                    | start idx ws Hlt Hs Hrun IH].
  - split; [constructor|]. intros i j a b _ Hi. by rewrite lookup_nil in Hi.
  - pose proof (window_start_advances self content start Hstart Hov Hsmall).
    destruct IH as [IH1 IH2]; [lia|]. split; [|done].
    eapply Forall_impl; [exact IH1|]. simpl. lia.
  - pose proof (window_start_advances self content start Hstart Hov Hsmall)
      as Hadv.
    destruct IH as [IH1 IH2]; [lia|]. split.
    + constructor; [simpl; lia|]. eapply Forall_impl; [exact IH1|]. simpl. lia.
    + apply pairwise_cons; [|done].
      eapply Forall_impl; [exact IH1|]. simpl. intros w Hw.
      pose proof (window_start_advances self content w.2 ltac:(lia) Hov Hsmall).
      lia.
Qed.

(** With a moderate overlap every character of the text that is not
    whitespace lies in a kept window of the run. *)
Lemma loop_run_covers start idx ws :
  moderate_overlap self ->
  0 <= start ->
  loop_run self content start idx ws ->
  forall (i : nat) c,
    start <= Z.of_nat i -> content !! i = Some c -> isspace c = false ->
    exists w, w ∈ ws /\ w.2 <= Z.of_nat i < window_end self content w.2.
Proof.
  intros [Hov Hsmall] Hstart Hrun.
  induction Hrun as [start idx Hge | start idx ws Hlt Hs Hrun IH
                    | start idx ws Hlt Hs Hrun IH]; intros i c Hi Hc Hsp.
  - apply lookup_lt_Some in Hc. unfold len in Hge. lia.
  - pose proof (window_start_advances self content start Hstart Hov Hsmall).
    destruct (Z_lt_le_dec (Z.of_nat i) (window_end self content start))
      as [Hin|Hout].
    + exfalso. apply strip_nil_iff in Hs. rewrite Forall_lookup in Hs.
      pose proof (lookup_slice content start (window_end self content start)
                    i Hstart ltac:(lia)) as Hl.
      rewrite Hc in Hl. apply Hs in Hl. congruence.
    + apply (IH ltac:(lia) i c); [lia | done | done].
  - pose proof (window_start_advances self content start Hstart Hov Hsmall).
    destruct (Z_lt_le_dec (Z.of_nat i) (window_end self content start))
      as [Hin|Hout].
    + exists (idx, start). split; [apply list_elem_of_here | simpl; lia].
    + destruct (IH ltac:(lia) i c) as (w & Hw & Hr); [lia | done | done |].
      exists w. split; [by apply list_elem_of_further | done].
Qed.

End chunk_loop_runs.

Section chunk_document_long.

Import DocumentChunker.

Variable self : t.

Lemma loop_run_index_lower content start idx ws :
  loop_run self content start idx ws ->
  forall (k : nat) w, ws !! k = Some w -> idx + Z.of_nat k <= w.1.
Proof.
  induction 1 as [start idx Hge | start idx ws Hlt Hs Hrun IH
                 | start idx ws Hlt Hs Hrun IH]; intros k w Hk.
  - by rewrite lookup_nil in Hk.
  - specialize (IH k w Hk). lia.
  - destruct k as [|k]; simpl in Hk.
    + injection Hk as <-. simpl. lia.
    + specialize (IH k w Hk). lia.
Qed.

Lemma or_empty_dict_valid h metadata :
  ((or_empty_dict h metadata).2 < length (or_empty_dict h metadata).1)%nat /\
  deref (or_empty_dict h metadata).1 (or_empty_dict h metadata).2
  = doc_metadata h metadata.
Proof.
  unfold or_empty_dict, alloc, doc_metadata. destruct metadata as [l|].
  - destruct (bool_decide (deref h l = ∅)) eqn:Hd; cbn [fst snd].
    + apply bool_decide_eq_true in Hd. rewrite Hd. split.
      * rewrite length_app. simpl. lia.
      * unfold deref. by rewrite lookup_app_r, Nat.sub_diag.
    + apply bool_decide_eq_false in Hd. split; [|done].
      unfold deref in Hd. destruct (h !! l) eqn:Hl; [|done].
      by eapply lookup_lt_Some.
  - cbn [fst snd]. split.
    + rewrite length_app. simpl. lia.
    + unfold deref. by rewrite lookup_app_r, Nat.sub_diag.
Qed.

Lemma chunk_entries_lookup (d : dict) idx s e :
  let d' := dict_update d (chunk_entries idx s e) in
  d' !! str "chunk_index" = Some (PInt idx) /\
  d' !! str "start_char" = Some (PInt s) /\
  d' !! str "end_char" = Some (PInt e) /\
  forall k, k <> str "chunk_index" -> k <> str "start_char" ->
            k <> str "end_char" -> d' !! k = d !! k.
Proof.
  assert (H1 : str "chunk_index" <> str "start_char")
    by (intros H; vm_compute in H; discriminate H).
  assert (H2 : str "chunk_index" <> str "end_char")
    by (intros H; vm_compute in H; discriminate H).
  assert (H3 : str "start_char" <> str "end_char")
    by (intros H; vm_compute in H; discriminate H).
  unfold dict_update, chunk_entries. cbn [foldl fst snd]. split_and!.
  - rewrite lookup_insert_ne by done. rewrite lookup_insert_ne by done.
    apply lookup_insert_eq.
  - rewrite lookup_insert_ne by done. apply lookup_insert_eq.
  - apply lookup_insert_eq.
  - intros k Hk1 Hk2 Hk3. by rewrite !lookup_insert_ne.
Qed.

(** What [chunk_document] returns for a text longer than the chunk size:
    the chunks and the new dicts of the kept windows of a run from the start
    of the cleaned text. *)
Lemma chunk_document_long_spec fuel h text md0 h' chunks :
  chunk_size self < len (_clean_content text) ->
  chunk_document fuel self h text md0 = (h', Some chunks) ->
  exists ws,
    loop_run self (_clean_content text) 0 0 ws /\
    length chunks = length ws /\
    h `prefix_of` h' /\
    forall (k : nat) c, chunks !! k = Some c ->
      exists w, ws !! k = Some w /\
        chunk_index c = w.1 /\
        chunk_count c = len chunks /\
        content c
        = strip (slice (_clean_content text) w.2
                   (window_end self (_clean_content text) w.2)) /\
        (length h <= metadata c)%nat /\
        metadata c
        = (length (or_empty_dict h md0).1 + k)%nat /\
        h' !! metadata c
        = Some (dict_of_window self (_clean_content text)
                  (doc_metadata h md0) w) /\
        chunk_span h' c
        = Some (w.2, window_end self (_clean_content text) w.2).
Proof.
  intros Hlong Hrun. unfold chunk_document in Hrun.
  destruct (or_empty_dict_valid h md0) as [Hmd Hderef].
  pose proof (or_empty_dict_prefix h md0) as Hpre.
  destruct (or_empty_dict h md0) as [h1 md]. cbn [fst snd] in *.
  destruct (Z.leb_spec (len (_clean_content text)) (chunk_size self));
    [lia|].
  destruct (chunk_loop fuel self (_clean_content text) md h1 0 0 [])
    as [h2 [cs|]] eqn:Hloop; [|done].
  injection Hrun as <- <-.
  apply chunk_loop_run in Hloop as (ws & Hws & -> & ->); [|done].
  rewrite Hderef. simpl.
  exists ws. split; [done|]. split.
  { by rewrite length_fmap, length_imap. }
  split.
  { etrans; [exact Hpre|]. by apply prefix_app_r. }
  intros k c Hk.
  apply list_lookup_fmap_Some in Hk as (c0 & -> & Hk).
  apply list_lookup_imap_Some in Hk as (w & Hw & ->).
  exists w. cbn [chunk_index chunk_count content metadata set_chunk_count
                 chunk_of_window].
  assert (Hh : (h1 ++ (dict_of_window self (_clean_content text)
                         (doc_metadata h md0) <$> ws))
               !! (length h1 + k)%nat
             = Some (dict_of_window self (_clean_content text)
                       (doc_metadata h md0) w)).
  { rewrite lookup_app_r by lia.
    replace (length h1 + k - length h1)%nat with k by lia.
    by rewrite list_lookup_fmap, Hw. }
  split_and!; try done.
  - unfold len. by rewrite length_fmap.
  - apply prefix_length in Hpre. lia.
  - unfold chunk_span, set_chunk_count, chunk_of_window. cbn [metadata].
    rewrite Hh. unfold mbind, option_bind, dict_of_window.
    destruct (chunk_entries_lookup (doc_metadata h md0) w.1 w.2
                (window_end self (_clean_content text) w.2))
      as (_ & -> & -> & _).
    reflexivity.
Qed.

End chunk_document_long.

Section chunk_document_properties.

Import DocumentChunker.

Variable self : t.

Lemma clean_content_blank (text : pystr) :
  Forall (fun c => isspace c = true) text -> _clean_content text = [].
Proof.
  intros Hall. unfold _clean_content. apply strip_nil_iff.
  unfold remove_control. apply Forall_forall. intros c Hc.
  apply list_elem_of_filter in Hc as [_ Hc].
  assert (H : forall b, Forall (fun c => c = 32%N) (collapse_ws b text)).
  { clear c Hc. induction Hall as [|c s Hc Hs IH]; intros b; simpl;
      [constructor|].
    rewrite Hc. destruct b; [apply IH|]. constructor; [done | apply IH]. }
  specialize (H false). rewrite Forall_forall in H. by rewrite (H c Hc).
Qed.

(** X1. A text whose cleaned form is not longer than the chunk size gives
    exactly one chunk, on any fuel: its content is the cleaned text, its
    index 0 and its count 1. Given a non-empty metadata dict, the chunk holds
    that very dict and the heap is unchanged. Given none, or an empty dict,
    the chunk holds a new empty dict, the only object the call adds; an
    empty dict of the caller is not the one the chunk holds. *)
Theorem short_text_single_chunk (fuel : nat) (h : heap) (text : pystr)
    (md0 : option loc) :
  len (_clean_content text) <= chunk_size self ->
  (forall l, md0 = Some l -> deref h l <> ∅ ->
     chunk_document fuel self h text md0
     = (h, Some [mk_chunk (_clean_content text) l 0 1])) /\
  (md0 = None \/ (exists l, md0 = Some l /\ deref h l = ∅) ->
   chunk_document fuel self h text md0
   = (h ++ [∅], Some [mk_chunk (_clean_content text) (length h) 0 1]) /\
   (h ++ [∅]) !! length h = Some ∅ /\
   forall l, is_Some (h !! l) -> l <> length h).
Proof.
  intros Hshort. apply Z.leb_le in Hshort.
  unfold chunk_document, or_empty_dict, alloc. split.
  - intros l -> Hd. rewrite bool_decide_eq_false_2 by done.
    by rewrite Hshort.
  - intros Hnew. split_and!.
    + destruct Hnew as [-> | (l & -> & Hd)].
      * by rewrite Hshort.
      * rewrite bool_decide_eq_true_2 by done. by rewrite Hshort.
    + by rewrite lookup_app_r, Nat.sub_diag.
    + intros l Hl ->. apply lookup_lt_is_Some in Hl. lia.
Qed.

(** X10. A text of whitespace only (the empty text included) is not
    dropped: it gives one chunk whose content is empty. *)
Theorem blank_text_single_empty_chunk (fuel : nat) (h : heap) (text : pystr)
    (md0 : option loc) :
  Forall (fun c => isspace c = true) text ->
  0 <= chunk_size self ->
  exists h' l, chunk_document fuel self h text md0
               = (h', Some [mk_chunk [] l 0 1]).
Proof.
  intros Hblank Hcs. unfold chunk_document.
  destruct (or_empty_dict h md0) as [h1 md].
  rewrite (clean_content_blank _ Hblank).
  replace (len [] <=? chunk_size self) with true
    by (symmetry; apply Z.leb_le; unfold len; simpl; lia).
  by eexists _, _.
Qed.

(** X4. No returned chunk is longer than the chunk size, and none starts or
    ends with whitespace; the chunks of a text longer than the chunk size
    are not empty. *)
Theorem chunk_contents_bounded (fuel : nat) (h : heap) (text : pystr)
    (md0 : option loc) (h' : heap) (chunks : list chunk) :
  0 <= chunk_size self ->
  chunk_document fuel self h text md0 = (h', Some chunks) ->
  Forall (fun c => len (content c) <= chunk_size self /\
                   head_not_space (content c) /\
                   last_not_space (content c)) chunks /\
  (chunk_size self < len (_clean_content text) ->
   Forall (fun c => content c <> []) chunks).
Proof.
  intros Hcs Hrun.
  destruct (Z_lt_le_dec (chunk_size self) (len (_clean_content text)))
    as [Hlong|Hshort].
  - destruct (chunk_document_long_spec self _ _ _ _ _ _ Hlong Hrun)
      as (ws & Hws & _ & _ & Hk).
    pose proof (loop_run_kept _ _ _ _ _ Hws) as Hkept.
    rewrite Forall_lookup in Hkept.
    split; [|intros _]; apply Forall_lookup; intros k c Hc;
      destruct (Hk k c Hc) as (w & Hw & _ & _ & -> & _).
    + split_and!.
      * etrans; [apply len_strip_le|].
        pose proof (window_end_range self (_clean_content text) w.2 Hcs).
        pose proof (len_slice_le (_clean_content text) w.2
                      (window_end self (_clean_content text) w.2)).
        lia.
      * by destruct (strip_spec (slice (_clean_content text) w.2
          (window_end self (_clean_content text) w.2)))
          as (? & ? & _ & _ & _ & ? & _).
      * by destruct (strip_spec (slice (_clean_content text) w.2
          (window_end self (_clean_content text) w.2)))
          as (? & ? & _ & _ & _ & _ & ?).
    + by destruct (Hkept k w Hw).
  - split; [|lia]. unfold chunk_document in Hrun.
    destruct (or_empty_dict h md0) as [h1 md].
    rewrite (proj2 (Z.leb_le _ _) Hshort) in Hrun.
    injection Hrun as _ <-. constructor; [|constructor].
    cbn [content]. split; [done|]. apply clean_content_ends.
Qed.

(** X5. Along the returned list the chunk indices strictly increase, and
    the index of a chunk is at least its position in the list: indices are
    distinct, but not always consecutive. *)
Theorem chunk_indices_increase (fuel : nat) (h : heap) (text : pystr)
    (md0 : option loc) (h' : heap) (chunks : list chunk) :
  chunk_document fuel self h text md0 = (h', Some chunks) ->
  pairwise (fun a b => chunk_index a < chunk_index b) chunks /\
  forall (k : nat) c, chunks !! k = Some c -> Z.of_nat k <= chunk_index c.
Proof.
  intros Hrun.
  destruct (Z_lt_le_dec (chunk_size self) (len (_clean_content text)))
    as [Hlong|Hshort].
  - destruct (chunk_document_long_spec self _ _ _ _ _ _ Hlong Hrun)
      as (ws & Hws & _ & _ & Hk).
    destruct (loop_run_indices _ _ _ _ _ Hws) as [_ Hsorted].
    pose proof (loop_run_index_lower _ _ _ _ _ Hws) as Hlow.
    split.
    + intros i j a b Hij Ha Hb.
      destruct (Hk i a Ha) as (wa & Hwa & -> & _).
      destruct (Hk j b Hb) as (wb & Hwb & -> & _).
      by apply (Hsorted i j).
    + intros k c Hc. destruct (Hk k c Hc) as (w & Hw & -> & _).
      specialize (Hlow k w Hw). lia.
  - unfold chunk_document in Hrun.
    destruct (or_empty_dict h md0) as [h1 md].
    rewrite (proj2 (Z.leb_le _ _) Hshort) in Hrun.
    injection Hrun as _ <-. split.
    + intros i j a b Hij Ha Hb. destruct j as [|j]; [lia|].
      simpl in Hb. by rewrite lookup_nil in Hb.
    + intros [|k] c Hc; simpl in Hc; [injection Hc as <-; simpl; lia|].
      by rewrite lookup_nil in Hc.
Qed.

(** X6. For a text longer than the chunk size every chunk gets a metadata
    dict of its own, allocated by the call: it holds the chunk's index, a
    start and an end offset, and every other entry of the document metadata
    as it was; the chunk's content is the stripped text between the two
    offsets. The dicts that existed before the call are untouched. *)
Theorem chunk_metadata_extended_copy (fuel : nat) (h : heap) (text : pystr)
    (md0 : option loc) (h' : heap) (chunks : list chunk) :
  chunk_size self < len (_clean_content text) ->
  chunk_document fuel self h text md0 = (h', Some chunks) ->
  h `prefix_of` h' /\
  pairwise (fun a b => metadata a <> metadata b) chunks /\
  forall c, c ∈ chunks ->
    (length h <= metadata c)%nat /\
    exists d s e,
      h' !! metadata c = Some d /\
      d !! str "chunk_index" = Some (PInt (chunk_index c)) /\
      d !! str "start_char" = Some (PInt s) /\
      d !! str "end_char" = Some (PInt e) /\
      (forall key, key <> str "chunk_index" -> key <> str "start_char" ->
                   key <> str "end_char" ->
                   d !! key = doc_metadata h md0 !! key) /\
      content c = strip (slice (_clean_content text) s e).
Proof.
  intros Hlong Hrun.
  destruct (chunk_document_long_spec self _ _ _ _ _ _ Hlong Hrun)
    as (ws & Hws & _ & Hpre & Hk).
  split; [done|]. split.
  - intros i j a b Hij Ha Hb.
    destruct (Hk i a Ha) as (wa & _ & _ & _ & _ & _ & -> & _).
    destruct (Hk j b Hb) as (wb & _ & _ & _ & _ & _ & -> & _). lia.
  - intros c [k Hc]%list_elem_of_lookup.
    destruct (Hk k c Hc) as (w & Hw & Hi & _ & Hcont & Hfresh & _ & Hd & _).
    split; [done|].
    destruct (chunk_entries_lookup (doc_metadata h md0) w.1 w.2
                (window_end self (_clean_content text) w.2))
      as (H1 & H2 & H3 & H4).
    eexists _, _, _. split; [exact Hd|]. rewrite Hi.
    split_and!; [exact H1 | exact H2 | exact H3 | exact H4 | exact Hcont].
Qed.

(** X7. With a moderate overlap, for a text longer than the chunk size, the
    metadata of every chunk records offsets [0 <= start < end <= start +
    chunk_size], and both the start and the end offsets strictly increase
    along the returned list. *)
Theorem chunk_offsets_increase (fuel : nat) (h : heap) (text : pystr)
    (md0 : option loc) (h' : heap) (chunks : list chunk) :
  moderate_overlap self ->
  chunk_size self < len (_clean_content text) ->
  chunk_document fuel self h text md0 = (h', Some chunks) ->
  (forall c, c ∈ chunks ->
     exists s e, chunk_span h' c = Some (s, e) /\
                 0 <= s /\ s < e <= s + chunk_size self) /\
  forall (i j : nat) a b sa ea sb eb,
    (i < j)%nat -> chunks !! i = Some a -> chunks !! j = Some b ->
    chunk_span h' a = Some (sa, ea) -> chunk_span h' b = Some (sb, eb) ->
    sa < sb /\ ea < eb.
Proof.
  intros Hmod Hlong Hrun.
  destruct (chunk_document_long_spec self _ _ _ _ _ _ Hlong Hrun)
    as (ws & Hws & _ & _ & Hk).
  destruct (loop_run_offsets self _ 0 0 ws Hmod ltac:(lia) Hws)
    as [Hlow Hsorted].
  rewrite Forall_lookup in Hlow. destruct Hmod as [Hov Hsmall]. split.
  - intros c [k Hc]%list_elem_of_lookup.
    destruct (Hk k c Hc) as (w & Hw & _ & _ & _ & _ & _ & _ & Hspan).
    eexists _, _. split; [exact Hspan|]. specialize (Hlow k w Hw).
    pose proof (window_start_advances self (_clean_content text) w.2
                  Hlow Hov Hsmall).
    pose proof (window_end_range self (_clean_content text) w.2
                  ltac:(lia)).
    lia.
  - intros i j a b sa ea sb eb Hij Ha Hb Hsa Hsb.
    destruct (Hk i a Ha) as (wa & Hwa & _ & _ & _ & _ & _ & _ & Hspa).
    destruct (Hk j b Hb) as (wb & Hwb & _ & _ & _ & _ & _ & _ & Hspb).
    rewrite Hspa in Hsa. rewrite Hspb in Hsb.
    injection Hsa as <- <-. injection Hsb as <- <-.
    by apply (Hsorted i j).
Qed.

(** X8. With a moderate overlap, for a text longer than the chunk size,
    every character of the cleaned text that is not whitespace lies between
    the recorded start and end offsets of some returned chunk: chunking
    loses no text. *)
Theorem chunks_cover_text (fuel : nat) (h : heap) (text : pystr)
    (md0 : option loc) (h' : heap) (chunks : list chunk) :
  moderate_overlap self ->
  chunk_size self < len (_clean_content text) ->
  chunk_document fuel self h text md0 = (h', Some chunks) ->
  forall (i : nat) ch,
    _clean_content text !! i = Some ch -> isspace ch = false ->
    exists c s e, c ∈ chunks /\ chunk_span h' c = Some (s, e) /\
                  s <= Z.of_nat i < e.
Proof.
  intros Hmod Hlong Hrun i ch Hi Hch.
  destruct (chunk_document_long_spec self _ _ _ _ _ _ Hlong Hrun)
    as (ws & Hws & Hlen & _ & Hk).
  destruct (loop_run_covers self _ 0 0 ws Hmod ltac:(lia) Hws i ch
              ltac:(lia) Hi Hch) as (w & [k Hw]%list_elem_of_lookup & Hin).
  destruct (lookup_lt_is_Some_2 chunks k) as [c Hc].
  { rewrite Hlen. by eapply lookup_lt_Some. }
  destruct (Hk k c Hc) as (w' & Hw' & _ & _ & _ & _ & _ & _ & Hspan).
  assert (w' = w) as -> by congruence.
  exists c, w.2, (window_end self (_clean_content text) w.2).
  split; [by eapply list_elem_of_lookup_2 | done].
Qed.

End chunk_document_properties.

Section chunk_document_scenarios.

Import DocumentChunker.

Lemma small_chunker_moderate : moderate_overlap small_chunker.
Proof. unfold moderate_overlap, small_chunker. simpl. lia. Defined.

Lemma three_sentences_long :
  chunk_size small_chunker < len (_clean_content three_sentences).
Proof. vm_compute. reflexivity. Defined.

(** The first window is cut after its full stop; the later ones find no
    delimiter in their last fifth and are cut at 20 characters. *)
Example three_sentences_chunks :
  content <$> default []
    (chunk_document 60 small_chunker [] three_sentences None).2
  = [str "The cats sat down."; str "own. They purred a l";
     str "d a lot. Then they s"; str "hey slept."].
Proof. vm_compute. reflexivity. Qed.

Lemma short_text_single_chunk_witness :
  let d : dict := {[ str "author" := PStr (str "kota") ]} in
  let h : heap := [d; ∅] in
  let text := str "  KotaDB is fast.  " in
  len (_clean_content text) <= chunk_size small_chunker /\
  deref h 0%nat <> ∅ /\ deref h 1%nat = ∅ /\
  chunk_document 0 small_chunker h text (Some 0%nat)
  = (h, Some [mk_chunk (_clean_content text) 0%nat 0 1]) /\
  chunk_document 0 small_chunker h text (Some 1%nat)
  = (h ++ [∅], Some [mk_chunk (_clean_content text) 2%nat 0 1]) /\
  chunk_document 0 small_chunker h text None
  = (h ++ [∅], Some [mk_chunk (_clean_content text) 2%nat 0 1]).
Proof.
  intros d h text.
  assert (H1 : len (_clean_content text) <= chunk_size small_chunker)
    by (vm_compute; discriminate).
  assert (H2 : deref h 0%nat <> ∅) by apply map_non_empty_singleton.
  assert (H3 : deref h 1%nat = ∅) by reflexivity.
  split; [exact H1|]. split; [exact H2|]. split; [exact H3|].
  split_and!.
  - exact (proj1 (short_text_single_chunk small_chunker 0 h text
                    (Some 0%nat) H1) 0%nat eq_refl H2).
  - exact (proj1 (proj2 (short_text_single_chunk small_chunker 0 h text
                           (Some 1%nat) H1)
                    (or_intror (ex_intro _ 1%nat (conj eq_refl H3))))).
  - exact (proj1 (proj2 (short_text_single_chunk small_chunker 0 h text
                           None H1) (or_introl eq_refl))).
Defined.

Lemma blank_text_single_empty_chunk_witness :
  Forall (fun c => isspace c = true) (str "   ") /\
  0 <= chunk_size small_chunker /\
  exists h' l, chunk_document 0 small_chunker [] (str "   ") None
               = (h', Some [mk_chunk [] l 0 1]).
Proof.
  assert (H1 : Forall (fun c => isspace c = true) (str "   "))
    by (repeat constructor).
  assert (H2 : 0 <= chunk_size small_chunker) by (simpl; lia).
  split; [exact H1|]. split; [exact H2|].
  apply (blank_text_single_empty_chunk small_chunker 0 [] (str "   ") None
           H1 H2).
Defined.

Lemma chunk_document_returns_witness :
  0 <= overlap small_chunker < chunk_size small_chunker /\
  5 * overlap small_chunker <= 4 * chunk_size small_chunker + 10 /\
  exists h' chunks,
    chunk_document (S (length (_clean_content three_sentences)))
                   small_chunker [] three_sentences None
    = (h', Some chunks).
Proof.
  assert (H1 : 0 <= overlap small_chunker < chunk_size small_chunker)
    by (simpl; lia).
  assert (H2 : 5 * overlap small_chunker <= 4 * chunk_size small_chunker + 10)
    by (simpl; lia).
  split; [exact H1|]. split; [exact H2|].
  apply (chunk_document_returns small_chunker [] three_sentences None H1 H2).
Defined.

Lemma three_sentences_run :
  exists h' chunks,
    chunk_document 60 small_chunker [] three_sentences None
    = (h', Some chunks).
Proof.
  destruct (chunk_document 60 small_chunker [] three_sentences None)
    as [h' [chunks|]] eqn:E.
  - by exists h', chunks.
  - exfalso. apply (f_equal snd) in E. vm_compute in E. discriminate E.
Defined.

Lemma chunk_contents_bounded_witness :
  exists h' chunks,
    0 <= chunk_size small_chunker /\
    chunk_document 60 small_chunker [] three_sentences None
    = (h', Some chunks) /\
    Forall (fun c => len (content c) <= chunk_size small_chunker /\
                     head_not_space (content c) /\
                     last_not_space (content c)) chunks /\
    (chunk_size small_chunker < len (_clean_content three_sentences) ->
     Forall (fun c => content c <> []) chunks).
Proof.
  destruct three_sentences_run as (h' & chunks & E). exists h', chunks.
  assert (H : 0 <= chunk_size small_chunker) by (simpl; lia).
  split; [exact H|]. split; [exact E|].
  apply (chunk_contents_bounded small_chunker 60 [] three_sentences None
           h' chunks H E).
Defined.

Lemma chunk_indices_increase_witness :
  exists h' chunks,
    chunk_document 60 small_chunker [] three_sentences None
    = (h', Some chunks) /\
    pairwise (fun a b => chunk_index a < chunk_index b) chunks /\
    forall (k : nat) c, chunks !! k = Some c -> Z.of_nat k <= chunk_index c.
Proof.
  destruct three_sentences_run as (h' & chunks & E). exists h', chunks.
  split; [exact E|].
  apply (chunk_indices_increase small_chunker 60 [] three_sentences None
           h' chunks E).
Defined.

Lemma chunk_metadata_extended_copy_witness :
  exists h' chunks,
    chunk_size small_chunker < len (_clean_content three_sentences) /\
    chunk_document 60 small_chunker [] three_sentences None
    = (h', Some chunks) /\
    [] `prefix_of` h' /\
    pairwise (fun a b => metadata a <> metadata b) chunks /\
    forall c, c ∈ chunks ->
      (length (@nil dict) <= metadata c)%nat /\
      exists d s e,
        h' !! metadata c = Some d /\
        d !! str "chunk_index" = Some (PInt (chunk_index c)) /\
        d !! str "start_char" = Some (PInt s) /\
        d !! str "end_char" = Some (PInt e) /\
        (forall key, key <> str "chunk_index" -> key <> str "start_char" ->
                     key <> str "end_char" ->
                     d !! key = doc_metadata [] None !! key) /\
        content c = strip (slice (_clean_content three_sentences) s e).
Proof.
  destruct three_sentences_run as (h' & chunks & E). exists h', chunks.
  split; [exact three_sentences_long|]. split; [exact E|].
  apply (chunk_metadata_extended_copy small_chunker 60 [] three_sentences
           None h' chunks three_sentences_long E).
Defined.

Lemma chunk_offsets_increase_witness :
  exists h' chunks,
    moderate_overlap small_chunker /\
    chunk_size small_chunker < len (_clean_content three_sentences) /\
    chunk_document 60 small_chunker [] three_sentences None
    = (h', Some chunks) /\
    (forall c, c ∈ chunks ->
       exists s e, chunk_span h' c = Some (s, e) /\
                   0 <= s /\ s < e <= s + chunk_size small_chunker) /\
    forall (i j : nat) a b sa ea sb eb,
      (i < j)%nat -> chunks !! i = Some a -> chunks !! j = Some b ->
      chunk_span h' a = Some (sa, ea) -> chunk_span h' b = Some (sb, eb) ->
      sa < sb /\ ea < eb.
Proof.
  destruct three_sentences_run as (h' & chunks & E). exists h', chunks.
  split; [exact small_chunker_moderate|].
  split; [exact three_sentences_long|]. split; [exact E|].
  apply (chunk_offsets_increase small_chunker 60 [] three_sentences None
           h' chunks small_chunker_moderate three_sentences_long E).
Defined.

Lemma chunks_cover_text_witness :
  exists h' chunks,
    moderate_overlap small_chunker /\
    chunk_size small_chunker < len (_clean_content three_sentences) /\
    chunk_document 60 small_chunker [] three_sentences None
    = (h', Some chunks) /\
    forall (i : nat) ch,
      _clean_content three_sentences !! i = Some ch -> isspace ch = false ->
      exists c s e, c ∈ chunks /\ chunk_span h' c = Some (s, e) /\
                    s <= Z.of_nat i < e.
Proof.
  destruct three_sentences_run as (h' & chunks & E). exists h', chunks.
  split; [exact small_chunker_moderate|].
  split; [exact three_sentences_long|]. split; [exact E|].
  apply (chunks_cover_text small_chunker 60 [] three_sentences None
           h' chunks small_chunker_moderate three_sentences_long E).
Defined.

End chunk_document_scenarios.

(* ===================================================================== *)
(** ** Statistics *)
(* ===================================================================== *)

Section statistics.

Import RAGPipeline.

Variable E : env.

Lemma collect_stats_spec (chunks : list document) :
  collect_stats chunks
  = (list_to_set (source_names chunks), content_total chunks).
Proof.
  unfold collect_stats.
  enough (forall (acc : gset pystr) total,
    foldl (fun '(sources, total_content_length) chunk =>
             let total_content_length :=
               total_content_length + len (default [] (doc_content chunk)) in
             let sources :=
               foldl (fun sources tag =>
                        if startswith tag (str "source:")
                        then {[ slice_from tag 7 ]} ∪ sources
                        else sources)
                     sources (default [] (doc_tags chunk)) in
             (sources, total_content_length))
          (acc, total) chunks
    = (acc ∪ list_to_set (source_names chunks), total + content_total chunks))
    as H.
  { rewrite H. f_equal; first [lia | set_solver]. }
  induction chunks as [|chunk chunks IH]; intros acc total.
  - simpl. f_equal; first [lia | set_solver].
  - cbn [foldl]. cbv zeta. rewrite IH. f_equal.
    + unfold source_names. cbn [mbind list_bind]. fold (source_names chunks).
      rewrite list_to_set_app_L.
      enough (forall tags (acc : gset pystr),
        foldl (fun sources tag =>
                 if startswith tag (str "source:")
                 then {[ slice_from tag 7 ]} ∪ sources
                 else sources) acc tags
        = acc ∪ list_to_set (omap source_of_tag tags)) as Htags.
      { rewrite Htags. set_solver. }
      clear. induction tags as [|tag tags IHt]; intros acc.
      * simpl. set_solver.
      * cbn [foldl omap list_omap]. rewrite IHt. unfold source_of_tag at 2.
        destruct (startswith tag (str "source:")); simpl; set_solver.
    + simpl. lia.
Qed.

Lemma content_total_nonneg (chunks : list document) : 0 <= content_total chunks.
Proof.
  induction chunks as [|c chunks IH]; simpl; [lia|]. unfold len. lia.
Qed.

(** X11. [get_knowledge_base_stats] never raises: when the store query
    raises it returns the empty dict, and when the query returns it returns
    the statistics. *)
Theorem stats_never_raise :
  exists r,
    get_knowledge_base_stats E = Ok r /\
    ((exists e, query_with_builder E stats_query = Raise e) -> r = None) /\
    ((exists results, query_with_builder E stats_query = Ok results) ->
     exists s, r = Some s).
Proof.
  unfold get_knowledge_base_stats, stats_query.
  destruct (query_with_builder E _) as [results|e]; simpl.
  - destruct (collect_stats _) as [sources total]. eexists.
    split; [reflexivity|]. split; [by intros [e He] | by eexists].
  - exists None. split; [done|]. split; [done | by intros [results Hr]].
Qed.

(** X12. When the store query returns, the statistics count the returned
    chunks, sum their content lengths (an absent content counts for
    nothing), and report the floor of the mean as the average: it is 0 for
    an empty knowledge base, with no division by zero, and otherwise
    [average * count <= total < (average + 1) * count]. *)
Theorem stats_totals (results : query_result) :
  query_with_builder E stats_query = Ok results ->
  let chunks := default [] (documents results) in
  exists s,
    get_knowledge_base_stats E = Ok (Some s) /\
    total_chunks s = len chunks /\
    total_content_length s = content_total chunks /\
    0 <= average_chunk_size s /\
    (chunks = [] -> average_chunk_size s = 0 /\ total_content_length s = 0) /\
    (chunks <> [] ->
     average_chunk_size s * total_chunks s <= total_content_length s
     < (average_chunk_size s + 1) * total_chunks s).
Proof.
  intros Hq chunks. unfold get_knowledge_base_stats. fold stats_query.
  rewrite Hq. simpl. fold chunks. rewrite collect_stats_spec.
  eexists. split; [reflexivity|]. cbn [total_chunks total_content_length
    average_chunk_size].
  pose proof (content_total_nonneg chunks) as Hnn.
  split; [done|]. split; [done|].
  destruct chunks as [|c chunks'] eqn:Hc.
  - split; [lia|]. split; [done|]. done.
  - assert (Hpos : 0 < len (c :: chunks')) by (unfold len; simpl; lia).
    split; [by apply Z.div_pos|]. split; [done|]. intros _.
    pose proof (Z.mul_div_le (content_total (c :: chunks')) _ Hpos).
    pose proof (Z.mul_succ_div_gt (content_total (c :: chunks')) _ Hpos).
    lia.
Qed.

(** X13. When the store query returns, the reported sources are exactly
    the names that follow ['source:'] in the tags of the returned chunks,
    each counted once: [unique_sources] is the size of that set and never
    exceeds the number of source tags. *)
Theorem stats_sources_are_tag_names (results : query_result) :
  query_with_builder E stats_query = Ok results ->
  let chunks := default [] (documents results) in
  exists s,
    get_knowledge_base_stats E = Ok (Some s) /\
    (forall name, name ∈ stats_sources s <->
       exists chunk tag, chunk ∈ chunks /\
         tag ∈ default [] (doc_tags chunk) /\
         startswith tag (str "source:") = true /\
         name = slice_from tag 7) /\
    unique_sources s = Z.of_nat (size (stats_sources s)) /\
    unique_sources s <= len (source_names chunks).
Proof.
  intros Hq chunks. unfold get_knowledge_base_stats. fold stats_query.
  rewrite Hq. simpl. fold chunks. rewrite collect_stats_spec.
  eexists. split; [reflexivity|]. cbn [stats_sources unique_sources].
  split_and!.
  - intros name. rewrite elem_of_list_to_set. unfold source_names.
    rewrite list_elem_of_bind. split.
    + intros (chunk & Hname & Hchunk).
      apply list_elem_of_omap in Hname as (tag & Htag & Hsrc).
      unfold source_of_tag in Hsrc.
      destruct (startswith tag (str "source:")) eqn:Hs; [|done].
      injection Hsrc as <-. by exists chunk, tag.
    + intros (chunk & tag & Hchunk & Htag & Hs & ->).
      exists chunk. split; [|done]. apply list_elem_of_omap.
      exists tag. split; [done|]. unfold source_of_tag. by rewrite Hs.
  - done.
  - unfold len. apply inj_le. unfold size, set_size. simpl.
    pose proof (NoDup_elements (list_to_set (C:=gset pystr)
                  (source_names chunks))) as Hnd.
    apply submseteq_length, NoDup_submseteq; [done|].
    intros x Hx. apply elem_of_elements in Hx.
    by apply elem_of_list_to_set in Hx.
Qed.

End statistics.

Section statistics_scenarios.

Import RAGPipeline.

(** Three chunks from two sources, 10 characters in all. *)
Example stats_of_three_chunks :
  match get_knowledge_base_stats (env_with_store three_stored_chunks) with
  | Ok (Some s) =>
      (total_chunks s, unique_sources s, total_content_length s,
       average_chunk_size s) = (3, 2, 10, 3)
  | _ => False
  end.
Proof. vm_compute. reflexivity. Qed.

Lemma stats_totals_witness :
  let E := env_with_store three_stored_chunks in
  query_with_builder E stats_query
  = Ok (mk_query_result (Some three_stored_chunks)) /\
  exists s,
    get_knowledge_base_stats E = Ok (Some s) /\
    total_chunks s = len three_stored_chunks /\
    total_content_length s = content_total three_stored_chunks /\
    0 <= average_chunk_size s /\
    (three_stored_chunks = [] ->
     average_chunk_size s = 0 /\ total_content_length s = 0) /\
    (three_stored_chunks <> [] ->
     average_chunk_size s * total_chunks s <= total_content_length s
     < (average_chunk_size s + 1) * total_chunks s).
Proof.
  intros E. split; [reflexivity|].
  apply (stats_totals E (mk_query_result (Some three_stored_chunks))).
  reflexivity.
Defined.

Lemma stats_sources_are_tag_names_witness :
  let E := env_with_store three_stored_chunks in
  query_with_builder E stats_query
  = Ok (mk_query_result (Some three_stored_chunks)) /\
  exists s,
    get_knowledge_base_stats E = Ok (Some s) /\
    (forall name, name ∈ stats_sources s <->
       exists chunk tag, chunk ∈ three_stored_chunks /\
         tag ∈ default [] (doc_tags chunk) /\
         startswith tag (str "source:") = true /\
         name = slice_from tag 7) /\
    unique_sources s = Z.of_nat (size (stats_sources s)) /\
    unique_sources s <= len (source_names three_stored_chunks).
Proof.
  intros E. split; [reflexivity|].
  apply (stats_sources_are_tag_names E
           (mk_query_result (Some three_stored_chunks))).
  reflexivity.
Defined.

End statistics_scenarios.

(* ===================================================================== *)
(** ** More about answering *)
(* ===================================================================== *)

Lemma length_omap_le {A B} (f : A -> option B) (l : list A) :
  (length (omap f l) <= length l)%nat.
Proof.
  induction l as [|a l IH]; [done|]. simpl.
  destruct (f a); simpl; [by apply le_n_S | by apply le_S].
Qed.

Section answering.

Import RAGPipeline.

Variable E : env.
Variable self : t.

Lemma semantic_search_returns (query : pystr) (max_results : option Z) :
  exists results, semantic_search E self query max_results = Ok results.
Proof.
  unfold semantic_search.
  destruct (fallback_text_search_returns E query
              (max_results_or_default self max_results)) as (fb & Hfb & _).
  destruct (embed_text E query) as [qe|e]; simpl; [|by exists fb].
  destruct (query_with_builder E _) as [results|e]; simpl; [|by exists fb].
  destruct (default [] (documents results)) as [|chunk chunks];
    [by eexists|].
  destruct (collect_similarities_returns E qe (chunk :: chunks) [])
    as [sims Hsims].
  rewrite Hsims. simpl. by eexists.
Qed.

Lemma generate_answer_without_context (question : pystr) :
  generate_answer E self question None
  = (context_docs ← semantic_search E self question None;
     generate_answer E self question (Some context_docs)).
Proof.
  unfold generate_answer. cbn [mbind py_mbind Py.bind].
  by destruct (semantic_search E self question None).
Qed.

(** X14. [ask_question] gives what [generate_answer] gives when no chunks
    are passed: both search with the default limit, the search returns for
    every store and backend, and the answer is the one [generate_answer]
    gives on the search results. When the call returns, its
    [context_docs_count] is the number of search results and its sources
    are the titles of the results with non-blank content: results with
    blank content are counted although they add neither context nor
    source, so the count is at least the number of sources. *)
Theorem ask_question_answers_on_search_results (question : pystr) :
  ask_question E self question = generate_answer E self question None /\
  exists results,
    semantic_search E self question None = Ok results /\
    ask_question E self question
    = generate_answer E self question (Some results) /\
    forall a, ask_question E self question = Ok a ->
      context_docs_count a = len results /\
      sources a = list_to_set (omap source_title results) /\
      Z.of_nat (size (sources a)) <= context_docs_count a.
Proof.
  destruct (semantic_search_returns question None) as [results Hres].
  assert (Hask : ask_question E self question
                 = generate_answer E self question (Some results)).
  { unfold ask_question. by rewrite Hres. }
  split; [by rewrite generate_answer_without_context|].
  exists results. split; [done|]. split; [done|].
  intros a Ha. rewrite Hask in Ha.
  destruct (generate_answer_spec E self question results)
    as (a' & Ha' & _ & Hsrc & Hcount).
  rewrite Ha in Ha'. injection Ha' as <-.
  split; [done|]. split; [done|].
  rewrite Hcount, Hsrc. unfold len. apply inj_le.
  unfold size, set_size. simpl.
  pose proof (NoDup_elements (list_to_set (C:=gset pystr)
                (omap source_title results))) as Hnd.
  etrans; [|apply (length_omap_le source_title results)].
  apply submseteq_length, NoDup_submseteq; [done|].
  intros x Hx. apply elem_of_elements in Hx.
  by apply elem_of_list_to_set in Hx.
Qed.

(** X15. The answer text comes from the generative backend only when one is
    configured and its call returns: then it is the stripped response to the
    prompt built from the context and the question. Without a backend, or
    when the call raises, it is the extractive answer on the same context. *)
Theorem answer_backend_or_fallback (question : pystr)
    (context_docs : list hit) :
  exists a,
    generate_answer E self question (Some context_docs) = Ok a /\
    match openai_chat_completion E with
    | None =>
        answer_text a = _generate_fallback_answer E question (context_used a)
    | Some chat =>
        match chat (RAGConfig.completion_model (config self))
                   (prompt_of question (context_used a))
                   (RAGConfig.temperature (config self)) with
        | Ok response => answer_text a = strip response
        | Raise e =>
            answer_text a
            = _generate_fallback_answer E question (context_used a)
        end
    end.
Proof.
  unfold generate_answer. cbn [mbind py_mbind Py.bind].
  destruct (collect_context context_docs) as [parts srcs].
  set (ctx := join [10; 10]%N (slice_to parts 3)).
  destruct (openai_chat_completion E) as [chat|].
  - unfold _generate_openai_answer. cbv zeta.
    destruct (chat (RAGConfig.completion_model (config self))
                   (prompt_of question ctx)
                   (RAGConfig.temperature (config self)))
      as [response|e] eqn:Hchat;
      unfold try_except; cbn [mbind py_mbind Py.bind];
      eexists; (split; [reflexivity|]); cbn [context_used answer_text];
      by rewrite Hchat.
  - eexists. split; [reflexivity|]. reflexivity.
Qed.

(** X16. When no chunk with non-blank content is passed in (none at all, or
    only blank ones) and no generative backend is configured, the context is
    empty, there are no sources, and the answer is the
    insufficient-information message; no search is made for a replacement. *)
Theorem no_content_no_answer (question : pystr) (context_docs : list hit) :
  Forall (fun doc_info => context_part doc_info = None) context_docs ->
  openai_chat_completion E = None ->
  generate_answer E self question (Some context_docs)
  = Ok (mk_answer insufficient_information [] ∅ (len context_docs)).
Proof.
  intros Hblank Hnone. unfold generate_answer. cbn [mbind py_mbind Py.bind].
  rewrite collect_context_spec.
  assert (Hparts : omap context_part context_docs = []).
  { induction Hblank as [|d docs Hd _ IH]; [done|]. simpl. by rewrite Hd. }
  assert (Hsrcs : omap source_title context_docs = []).
  { clear Hparts. induction Hblank as [|d docs Hd _ IH]; [done|]. simpl.
    unfold context_part in Hd. unfold source_title.
    destruct (strip _); [exact IH | done]. }
  rewrite Hparts, Hsrcs, Hnone. unfold slice_to. rewrite slice_nil.
  reflexivity.
Qed.

End answering.

Section fallback_answer_order.

Import RAGPipeline.

Variable E : env.

Lemma sort_by_overlap_first (l : list (pystr * nat)) (x : pystr * nat)
    (rest : list (pystr * nat)) :
  sort_by_overlap l = x :: rest ->
  exists l1 l2, l = l1 ++ x :: l2 /\
    Forall (fun y => (y.2 < x.2)%nat) l1 /\
    Forall (fun y => (y.2 <= x.2)%nat) l2.
Proof.
  revert x rest. induction l as [|a l IH]; intros x rest Hsort; [done|].
  unfold sort_by_overlap in *. simpl in Hsort.
  destruct (foldr insert_by_overlap [] l) as [|h t] eqn:Hl.
  - simpl in Hsort. injection Hsort as <- <-.
    pose proof (sort_by_overlap_head l) as Hh. unfold sort_by_overlap in Hh.
    rewrite Hl in Hh. subst l. exists [], []. by repeat constructor.
  - destruct (IH h t eq_refl) as (l1 & l2 & -> & H1 & H2).
    simpl in Hsort. destruct (Nat.ltb_spec a.2 h.2) as [Hlt|Hge].
    + injection Hsort as <- <-. exists (a :: l1), l2.
      split; [done|]. split; [by constructor | done].
    + injection Hsort as <- <-. exists [], (l1 ++ h :: l2).
      split; [done|]. split; [constructor|].
      apply Forall_app. split.
      * eapply Forall_impl; [exact H1|]. simpl. lia.
      * constructor; [done|]. eapply Forall_impl; [exact H2|]. simpl. lia.
Qed.

Lemma omap_app_cons_inv {A B} (f : A -> option B) (l : list A)
    (k1 k2 : list B) (y : B) :
  omap f l = k1 ++ y :: k2 ->
  exists l1 x l2, l = l1 ++ x :: l2 /\ omap f l1 = k1 /\ f x = Some y /\
                  omap f l2 = k2.
Proof.
  revert k1. induction l as [|a l IH]; intros k1 Hl.
  - by destruct k1.
  - simpl in Hl. destruct (f a) as [b|] eqn:Ha.
    + destruct k1 as [|b' k1]; simpl in Hl.
      * injection Hl as -> Hl. exists [], a, l. by rewrite Ha.
      * injection Hl as -> Hl.
        destruct (IH k1 Hl) as (l1 & x & l2 & -> & <- & Hx & <-).
        exists (a :: l1), x, l2. split; [done|]. split; [|done].
        simpl. by rewrite Ha.
    + destruct (IH k1 Hl) as (l1 & x & l2 & -> & <- & Hx & <-).
      exists (a :: l1), x, l2. split; [done|]. split; [|done].
      simpl. by rewrite Ha.
Qed.

Lemma omap_candidate_lt question (l : list pystr) (n : nat) :
  Forall (fun y => (y.2 < n)%nat) (omap (candidate E question) l) ->
  (0 < n)%nat ->
  Forall (fun s => 10 <= len s -> (word_overlap E question s < n)%nat) l.
Proof.
  intros Hall Hn. apply Forall_forall. intros s Hs Hlen.
  destruct (Nat.eq_dec (word_overlap E question s) 0%nat) as [Hz|Hpos]; [lia|].
  rewrite Forall_forall in Hall.
  apply (Hall (s, word_overlap E question s)).
  apply list_elem_of_omap. exists s. split; [done|].
  apply candidate_eligible; [done | lia].
Qed.

(** X17. Among the sentences of largest word overlap the extractive answer
    takes the first one: when an answer is given under the label, every
    sentence of at least 10 characters that comes earlier in the context
    has a strictly smaller overlap with the question. *)
Theorem fallback_answer_takes_first_best (question context : pystr)
    (s : pystr) :
  _generate_fallback_answer E question context = answer_label ++ s ->
  exists before after,
    sentences context = before ++ s :: after /\
    10 <= len s /\ (0 < word_overlap E question s)%nat /\
    Forall (fun s' => 10 <= len s' ->
              (word_overlap E question s' < word_overlap E question s)%nat)
           before /\
    Forall (fun s' => 10 <= len s' ->
              (word_overlap E question s' <= word_overlap E question s)%nat)
           after.
Proof.
  unfold _generate_fallback_answer.
  destruct (strip context) as [|c rest] eqn:Hctx.
  { intros H. vm_compute in H. discriminate H. }
  rewrite collect_best_sentences_spec.
  destruct (sort_by_overlap _) as [|best tail] eqn:Hsort.
  { intros H. vm_compute in H. discriminate H. }
  intros Heq. apply app_inv_head in Heq. subst s.
  apply sort_by_overlap_first in Hsort as (l1 & l2 & Hl & H1 & H2).
  apply omap_app_cons_inv in Hl as (before & s & after & Hs & <- & Hc & <-).
  apply candidate_Some in Hc as (-> & Hlen & Hov).
  exists before, after. simpl in *. split_and!; try done.
  - by apply omap_candidate_lt.
  - apply Forall_forall. intros s' Hs' Hlen'.
    destruct (Nat.eq_dec (word_overlap E question s') 0%nat) as [Hz|Hpos];
      [lia|].
    rewrite Forall_forall in H2.
    apply (H2 (s', word_overlap E question s')).
    apply list_elem_of_omap. exists s'. split; [done|].
    apply candidate_eligible; [done | lia].
Qed.

(** X18. A question without words (empty or whitespace only after
    lower-casing) never gets a sentence: the answer is one of the two fixed
    messages. *)
Theorem wordless_question_gets_fixed_message (question context : pystr) :
  split (lower E question) = [] ->
  _generate_fallback_answer E question context
  = (match strip context with
     | [] => insufficient_information
     | _ => unanswerable
     end).
Proof.
  intros Hq. unfold _generate_fallback_answer.
  destruct (strip context) as [|c rest]; [done|].
  rewrite collect_best_sentences_spec.
  assert (Hnone : omap (candidate E question) (sentences context) = []).
  { induction (sentences context) as [|s l IH]; [done|]. simpl.
    unfold candidate at 1, word_overlap, word_set. rewrite Hq.
    destruct (len s <? 10); [exact IH|].
    replace (size (list_to_set [] ∩ list_to_set (split (lower E s))))
      with 0%nat; [exact IH|].
    symmetry. apply size_empty_iff. set_solver. }
  by rewrite Hnone.
Qed.

End fallback_answer_order.

Section answering_scenarios.

Import RAGPipeline.

Lemma no_content_no_answer_witness :
  let E := env_with_store [] in
  Forall (fun doc_info => context_part doc_info = None) [blank_hit] /\
  openai_chat_completion E = None /\
  generate_answer E default_pipeline (str "What is it?") (Some [blank_hit])
  = Ok (mk_answer insufficient_information [] ∅ (len [blank_hit])).
Proof.
  intros E.
  assert (H : Forall (fun doc_info => context_part doc_info = None) [blank_hit])
    by (constructor; [vm_compute; reflexivity | constructor]).
  split; [exact H|]. split; [reflexivity|].
  apply (no_content_no_answer E default_pipeline (str "What is it?")
           [blank_hit] H eq_refl).
Defined.

Lemma fallback_answer_takes_first_best_witness :
  let E := env_with_store [] in
  let question := str "What is KotaDB" in
  let context := str "KotaDB is a database. It is fast" in
  let s := str "KotaDB is a database" in
  _generate_fallback_answer E question context = answer_label ++ s /\
  exists before after,
    sentences context = before ++ s :: after /\
    10 <= len s /\ (0 < word_overlap E question s)%nat /\
    Forall (fun s' => 10 <= len s' ->
              (word_overlap E question s' < word_overlap E question s)%nat)
           before /\
    Forall (fun s' => 10 <= len s' ->
              (word_overlap E question s' <= word_overlap E question s)%nat)
           after.
Proof.
  intros E question context s.
  assert (H : _generate_fallback_answer E question context = answer_label ++ s)
    by (vm_compute; reflexivity).
  split; [exact H|].
  apply (fallback_answer_takes_first_best E question context s H).
Defined.

Lemma wordless_question_gets_fixed_message_witness :
  let E := env_with_store [] in
  split (lower E (str "   ")) = [] /\
  _generate_fallback_answer E (str "   ") (str "KotaDB is a database.")
  = (match strip (str "KotaDB is a database.") with
     | [] => insufficient_information
     | _ => unanswerable
     end).
Proof.
  intros E. split; [reflexivity|].
  apply (wordless_question_gets_fixed_message E (str "   ")
           (str "KotaDB is a database.")).
  reflexivity.
Defined.

End answering_scenarios.

Section asking_scenarios.

Import RAGPipeline.

Lemma ask_question_answers_on_search_results_witness :
  let E := env_with_store [embedded_chunk] in
  exists results a,
    semantic_search E default_pipeline (str "vector search") None = Ok results /\
    ask_question E default_pipeline (str "vector search") = Ok a /\
    context_docs_count a = len results /\
    Z.of_nat (size (sources a)) <= context_docs_count a.
Proof.
  intros E.
  destruct (ask_question_answers_on_search_results E default_pipeline
              (str "vector search")) as (_ & results & Hres & Hask & Hall).
  destruct (generate_answer_spec E default_pipeline (str "vector search")
              results) as (a & Ha & _).
  rewrite <- Hask in Ha.
  destruct (Hall a Ha) as (Hcount & _ & Hle).
  by exists results, a.
Defined.

End asking_scenarios.

(* ===================================================================== *)
(** ** More about retrieval *)
(* ===================================================================== *)

Section retrieval.

Import RAGPipeline.

Variable E : env.
Variable self : t.

Lemma collect_similarities_spec qe chunks sims :
  collect_similarities E qe chunks sims
  = Ok (sims ++ omap (scored E qe) chunks).
Proof.
  revert sims. induction chunks as [|chunk chunks IH]; intros sims.
  - simpl. by rewrite app_nil_r.
  - destruct (score_chunk E qe chunk) as [[entry|]|e] eqn:Hs.
    + assert (Hsc : scored E qe chunk = Some entry)
        by (unfold scored; by rewrite Hs).
      simpl. rewrite Hs, Hsc. simpl. rewrite IH. by rewrite <- app_assoc.
    + assert (Hsc : scored E qe chunk = None)
        by (unfold scored; by rewrite Hs).
      simpl. rewrite Hs, Hsc. simpl. by rewrite IH.
    + assert (Hsc : scored E qe chunk = None)
        by (unfold scored; by rewrite Hs).
      simpl. rewrite Hs, Hsc. simpl. by rewrite IH.
Qed.

Lemma insert_by_similarity_perm x l : insert_by_similarity x l ≡ₚ x :: l.
Proof.
  induction l as [|y l IH]; [done|]. simpl.
  destruct (PrimFloat.ltb _ _); [|done].
  rewrite IH. apply Permutation_swap.
Qed.

Lemma sort_by_similarity_perm l : sort_by_similarity l ≡ₚ l.
Proof.
  induction l as [|x l IH]; [done|]. unfold sort_by_similarity in *. simpl.
  by rewrite insert_by_similarity_perm, IH.
Qed.

(** The entry of a candidate keeps the candidate as its document, carries
    the decoded metadata, and is scored by the similarity backend. *)
Lemma score_chunk_entry qe chunk entry :
  score_chunk E qe chunk = Ok (Some entry) ->
  hit_document entry = chunk /\
  exists metadata embedding,
    hit_metadata entry = Some metadata /\
    get_embedding metadata = Ok embedding /\ truthy embedding = true /\
    _cosine_similarity E qe embedding = Ok (similarity entry).
Proof.
  unfold score_chunk.
  destruct (filter _ _) as [|tag tags]; [done|].
  destruct (json_loads E _) as [metadata|e]; [|done]. simpl.
  destruct (get_embedding metadata) as [embedding|e] eqn:Hemb; [|done]. simpl.
  destruct (truthy embedding) eqn:Ht; [|done].
  destruct (_cosine_similarity E qe embedding) as [s|e] eqn:Hcos; [|done].
  simpl. intros [= <-]. simpl. split; [done|]. by eexists _, _.
Qed.

Lemma semantic_search_on_candidates (query : pystr) (max_results : option Z)
    (qe : list float) (cands : query_result) :
  embed_text E query = Ok qe ->
  query_with_builder E candidates_query = Ok cands ->
  semantic_search E self query max_results
  = Ok (slice_to (sort_by_similarity
                    (omap (scored E qe) (default [] (documents cands))))
                 (max_results_or_default self max_results)).
Proof.
  intros Hembed Hquery. unfold candidates_query in Hquery.
  unfold semantic_search. rewrite Hembed. simpl. rewrite Hquery. simpl.
  destruct (default [] (documents cands)) as [|chunk chunks].
  - simpl. unfold slice_to. by rewrite slice_nil.
  - rewrite collect_similarities_spec. simpl app.
    cbn [mbind py_mbind Py.bind try_except]. done.
Qed.

Lemma semantic_search_on_failure (query : pystr) (max_results : option Z) :
  (exists e, embed_text E query = Raise e) \/
  (exists e, query_with_builder E candidates_query = Raise e) ->
  semantic_search E self query max_results
  = _fallback_text_search E query (max_results_or_default self max_results).
Proof.
  intros Hfail. unfold semantic_search, candidates_query in *.
  destruct (embed_text E query) as [qe|e]; simpl; [|done].
  destruct Hfail as [[e He] | [e He]]; [done|]. by rewrite He.
Qed.

Lemma scored_cosine qe chunk entry :
  scored E qe chunk = Some entry ->
  hit_document entry = chunk /\ cosine_scored E qe entry.
Proof.
  unfold scored. intros Hs.
  destruct (score_chunk E qe chunk) as [[entry'|]|e] eqn:Hsc; try done.
  injection Hs as ->.
  destruct (score_chunk_entry _ _ _ Hsc) as (Hdoc & m & emb & Hm & He & _ & Hc).
  split; [done|]. unfold cosine_scored. rewrite Hdoc.
  split; [done|]. by exists m, emb.
Qed.

(** C1 (as amended). For every query, every store and every backend
    [semantic_search] returns a list and raises nothing. When the store
    raises on every call the list is empty. When embedding the query or
    fetching the candidates raises, the list is the outcome of the lexical
    query: one sentinel-scored entry, without metadata, for each document
    that query returns, and no entry when that query raises too. When the
    query embeds and the candidates are fetched, every result is a fetched
    candidate scored by the cosine similarity of the query embedding with
    the embedding stored in the candidate's metadata, and, for a
    non-negative limit, every candidate with a usable embedding is returned
    when these are no more than the limit. *)
Theorem semantic_search_never_raises (query : pystr) (max_results : option Z) :
  exists results,
    semantic_search E self query max_results = Ok results /\
    ((forall ops, exists e, query_with_builder E ops = Raise e) ->
     results = []) /\
    ((exists e, embed_text E query = Raise e) \/
     (exists e, query_with_builder E
                  [TagFilter (str "knowledge-base"); TagFilter (str "chunk");
                   Limit 1000] = Raise e) ->
     Forall sentinel_scored results /\
     (forall lex,
        query_with_builder E
          (lexical_query query (max_results_or_default self max_results))
        = Ok lex ->
        results = lexical_hits lex) /\
     ((exists e,
         query_with_builder E
           (lexical_query query (max_results_or_default self max_results))
         = Raise e) ->
      results = [])) /\
    (forall qe cands,
       embed_text E query = Ok qe ->
       query_with_builder E
         [TagFilter (str "knowledge-base"); TagFilter (str "chunk");
          Limit 1000] = Ok cands ->
       (forall r, r ∈ results ->
          hit_document r ∈ default [] (documents cands) /\
          cosine_scored E qe r) /\
       (0 <= max_results_or_default self max_results ->
        len (omap (scored E qe) (default [] (documents cands)))
        <= max_results_or_default self max_results ->
        results ≡ₚ omap (scored E qe) (default [] (documents cands)))).
Proof.
  set (mr := max_results_or_default self max_results).
  destruct (fallback_text_search_returns E query mr) as (fb & Hfb & Hfbs).
  assert (Hfail : (exists e, embed_text E query = Raise e) \/
                  (exists e, query_with_builder E candidates_query = Raise e) ->
                  semantic_search E self query max_results = Ok fb /\
                  ((forall ops, exists e, query_with_builder E ops = Raise e) ->
                   fb = []) /\
                  (forall lex, query_with_builder E (lexical_query query mr)
                               = Ok lex -> fb = lexical_hits lex) /\
                  ((exists e, query_with_builder E (lexical_query query mr)
                              = Raise e) -> fb = [])).
  { intros Hf. rewrite (semantic_search_on_failure query max_results Hf).
    fold mr. split; [done|]. split_and!.
    - intros Hdown.
      rewrite (fallback_text_search_store_down E _ _ Hdown) in Hfb. congruence.
    - intros lex Hlex. unfold _fallback_text_search, lexical_query in *.
      rewrite Hlex in Hfb. simpl in Hfb. by injection Hfb as <-.
    - intros [e He]. unfold _fallback_text_search, lexical_query in *.
      rewrite He in Hfb. simpl in Hfb. by injection Hfb as <-. }
  destruct (embed_text E query) as [qe|e] eqn:Hembed.
  - destruct (query_with_builder E candidates_query) as [cands|e] eqn:Hquery.
    + pose proof (semantic_search_on_candidates query max_results qe cands
                    Hembed Hquery) as Hrun.
      fold mr in Hrun. eexists. split; [exact Hrun|].
      unfold candidates_query in Hquery. split_and!.
      * intros Hdown. destruct (Hdown
          [TagFilter (str "knowledge-base"); TagFilter (str "chunk");
           Limit 1000]) as [e He]. congruence.
      * intros [[e He] | [e He]]; congruence.
      * intros qe' cands' [= <-] Hc. rewrite Hquery in Hc.
        injection Hc as <-.
        pose proof (sort_by_similarity_perm
                      (omap (scored E qe) (default [] (documents cands))))
          as Hperm.
        split.
        -- intros r Hr.
           unfold slice_to, slice in Hr.
           apply subseteq_take, subseteq_drop in Hr.
           rewrite Hperm in Hr.
           apply list_elem_of_omap in Hr as (chunk & Hchunk & Hs).
           destruct (scored_cosine _ _ _ Hs) as [Hdoc Hcos].
           by rewrite Hdoc.
        -- intros Hmr Hfew. rewrite slice_to_take by done.
           rewrite take_ge; [done|]. rewrite Hperm. unfold len in Hfew. lia.
    + destruct Hfail as (Hrun & Hdown & Hlex & Hnone);
        [right; by exists e|].
      exists fb. split; [done|]. split; [done|]. split; [done|].
      intros qe' cands' _ Hc. unfold candidates_query in Hquery. congruence.
  - destruct Hfail as (Hrun & Hdown & Hlex & Hnone); [left; by exists e|].
    exists fb. split; [done|]. split; [done|]. split; [done|].
    intros qe' cands' Hq. congruence.
Qed.

(** X19. When the query embeds and the candidates are fetched, the result of
    [semantic_search] holds only entries of fetched candidates that carry a
    usable embedding, each with its decoded metadata, and at most
    [max_results] of them (for a non-negative limit); when the usable
    candidates are no more than the limit, all of them are returned. *)
Theorem semantic_results_are_scored_candidates (query : pystr)
    (max_results : option Z) (qe : list float) (results : query_result) :
  embed_text E query = Ok qe ->
  query_with_builder E candidates_query = Ok results ->
  0 <= max_results_or_default self max_results ->
  let chunks := default [] (documents results) in
  exists found,
    semantic_search E self query max_results = Ok found /\
    len found <= max_results_or_default self max_results /\
    len found <= len chunks /\
    (forall r, r ∈ found ->
       hit_document r ∈ chunks /\
       score_chunk E qe (hit_document r) = Ok (Some r) /\
       hit_metadata r <> None) /\
    (len (omap (scored E qe) chunks) <= max_results_or_default self max_results ->
     found ≡ₚ omap (scored E qe) chunks).
Proof.
  intros Hembed Hquery Hmr chunks. unfold candidates_query in Hquery.
  set (mr := max_results_or_default self max_results) in *.
  assert (Hrun : semantic_search E self query max_results
                 = Ok (take (Z.to_nat mr)
                         (sort_by_similarity (omap (scored E qe) chunks)))).
  { unfold semantic_search. fold mr. rewrite Hembed. simpl.
    rewrite Hquery. simpl. fold chunks.
    destruct chunks as [|chunk chunks'] eqn:Hc.
    - simpl. by rewrite take_nil.
    - rewrite collect_similarities_spec. simpl app.
      cbn [mbind py_mbind Py.bind try_except].
      by rewrite slice_to_take. }
  eexists. split; [exact Hrun|].
  pose proof (sort_by_similarity_perm (omap (scored E qe) chunks)) as Hperm.
  split_and!.
  - unfold len. rewrite length_take. lia.
  - unfold len. rewrite length_take, Hperm.
    pose proof (length_omap_le (scored E qe) chunks). lia.
  - intros r Hr. apply (subseteq_take (Z.to_nat mr)) in Hr.
    rewrite Hperm in Hr. apply list_elem_of_omap in Hr as (chunk & Hchunk & Hs).
    unfold scored in Hs.
    destruct (score_chunk E qe chunk) as [[entry|]|e] eqn:Hsc; try done.
    injection Hs as ->.
    destruct (score_chunk_entry _ _ _ Hsc) as (Hdoc & m & emb & Hm & _).
    rewrite Hdoc. split; [done|]. split; [done|]. by rewrite Hm.
  - intros Hfew. rewrite take_ge; [done|].
    rewrite Hperm. unfold len in Hfew. lia.
Qed.

(** X20. When embedding the query raises, or the candidate fetch raises,
    and the lexical query returns, the result is one entry per document the
    lexical query returned, in the store's order, each with the sentinel
    score and without metadata. The list is not cut to [max_results] here:
    the limit is only passed on to the store. *)
Theorem search_falls_back_to_store_hits (query : pystr)
    (max_results : option Z) (results : query_result) :
  (exists e, embed_text E query = Raise e) \/
  (exists e, query_with_builder E candidates_query = Raise e) ->
  query_with_builder E
    [Text query; TagFilter (str "knowledge-base");
     Limit (max_results_or_default self max_results)] = Ok results ->
  semantic_search E self query max_results
  = Ok ((fun chunk => mk_hit chunk sentinel None)
          <$> default [] (documents results)).
Proof.
  intros Hfail Hlex.
  assert (Hfb : _fallback_text_search E query
                  (max_results_or_default self max_results)
                = Ok ((fun chunk => mk_hit chunk sentinel None)
                        <$> default [] (documents results))).
  { unfold _fallback_text_search. by rewrite Hlex. }
  unfold semantic_search, candidates_query in *.
  destruct (embed_text E query) as [qe|e]; simpl.
  - destruct Hfail as [[e He] | [e He]]; [done|]. by rewrite He.
  - exact Hfb.
Qed.

End retrieval.

Section retrieval_scenarios.

Import RAGPipeline.

Lemma semantic_results_are_scored_candidates_witness :
  let E := env_with_store [embedded_chunk] in
  let results := mk_query_result (Some [embedded_chunk]) in
  embed_text E (str "vector search") = Ok [1%float] /\
  query_with_builder E candidates_query = Ok results /\
  0 <= max_results_or_default default_pipeline None /\
  exists found,
    semantic_search E default_pipeline (str "vector search") None = Ok found /\
    len found <= max_results_or_default default_pipeline None /\
    len found <= len (default [] (documents results)) /\
    (forall r, r ∈ found ->
       hit_document r ∈ default [] (documents results) /\
       score_chunk E [1%float] (hit_document r) = Ok (Some r) /\
       hit_metadata r <> None) /\
    (len (omap (scored E [1%float]) (default [] (documents results)))
     <= max_results_or_default default_pipeline None ->
     found ≡ₚ omap (scored E [1%float]) (default [] (documents results))).
Proof.
  intros E results.
  assert (H : 0 <= max_results_or_default default_pipeline None)
    by (vm_compute; discriminate).
  split; [reflexivity|]. split; [reflexivity|]. split; [exact H|].
  apply (semantic_results_are_scored_candidates E default_pipeline
           (str "vector search") None [1%float] results eq_refl eq_refl H).
Defined.

Lemma search_falls_back_to_store_hits_witness :
  let E := env_without_embeddings [bare_chunk] in
  let results := mk_query_result (Some [bare_chunk]) in
  ((exists e, embed_text E (str "vector") = Raise e) \/
   (exists e, query_with_builder E candidates_query = Raise e)) /\
  query_with_builder E
    [Text (str "vector"); TagFilter (str "knowledge-base");
     Limit (max_results_or_default default_pipeline None)] = Ok results /\
  semantic_search E default_pipeline (str "vector") None
  = Ok ((fun chunk => mk_hit chunk sentinel None)
          <$> default [] (documents results)).
Proof.
  intros E results.
  assert (H : (exists e, embed_text E (str "vector") = Raise e) \/
              (exists e, query_with_builder E candidates_query = Raise e))
    by (left; by eexists).
  split; [exact H|]. split; [reflexivity|].
  apply (search_falls_back_to_store_hits E default_pipeline (str "vector")
           None results H eq_refl).
Defined.

Lemma semantic_search_never_raises_witness :
  let E := env_with_store [embedded_chunk] in
  let cands := mk_query_result (Some [embedded_chunk]) in
  embed_text E (str "vector search") = Ok [1%float] /\
  query_with_builder E
    [TagFilter (str "knowledge-base"); TagFilter (str "chunk"); Limit 1000]
  = Ok cands /\
  exists results,
    semantic_search E default_pipeline (str "vector search") None
    = Ok results /\
    Forall (cosine_scored E [1%float]) results /\
    results ≡ₚ omap (scored E [1%float]) (default [] (documents cands)).
Proof.
  intros E cands. split; [reflexivity|]. split; [reflexivity|].
  destruct (semantic_search_never_raises E default_pipeline
              (str "vector search") None)
    as (results & Hrun & _ & _ & Hwork).
  destruct (Hwork [1%float] cands eq_refl eq_refl) as [Hall Hperm].
  exists results. split; [exact Hrun|]. split.
  - apply Forall_forall. intros r Hr. exact (proj2 (Hall r Hr)).
  - apply Hperm; vm_compute; discriminate.
Defined.

End retrieval_scenarios.

(* ===================================================================== *)
(** ** Ingestion: what reaches the store *)
(* ===================================================================== *)

Lemma startswith_app (p s : pystr) : startswith (p ++ s) p = true.
Proof.
  unfold startswith. apply bool_decide_eq_true.
  by rewrite take_app_length.
Qed.

Lemma slice_from_app (p s : pystr) : slice_from (p ++ s) (len p) = s.
Proof.
  unfold slice_from, slice.
  rewrite !slice_bound_nonneg by (unfold len; lia).
  rewrite Z.min_id. rewrite Z.min_l by (unfold len; rewrite length_app; lia).
  unfold len. rewrite Nat2Z.id, drop_app_length, length_app.
  replace (Z.to_nat _) with (length s) by lia.
  apply firstn_all.
Qed.

Lemma startswith_other_head (c d : N) (p s t : pystr) :
  c <> d -> startswith (c :: s) (d :: p ++ t) = false.
Proof.
  intros Hcd. unfold startswith. apply bool_decide_eq_false.
  simpl. intros H. by injection H.
Qed.

Section ingestion_facts.

Import RAGPipeline.

Variable E : env.
Variable self : t.

Lemma store_chunk_rejected h title source i chunk :
  store_rejects_inserts E ->
  exists e, (store_chunk E self h title source i chunk).2 = Raise e.
Proof.
  intros Hrej. unfold store_chunk.
  destruct (embed_text E _) as [embedding|e]; [|by eexists].
  destruct (ValidatedPath E _) as [path|e]; [|by eexists].
  cbn [alloc fst snd].
  destruct (json_dumps E _) as [dumped|e]; [|by eexists].
  cbn [mbind py_mbind Py.bind]. apply Hrej.
Qed.

Lemma store_chunk_stored h title source i chunk :
  ingestion_backends_work E ->
  exists id, (store_chunk E self h title source i chunk).2 = Ok id.
Proof.
  intros (Hemb & Hpath & Hdump & Hins). unfold store_chunk.
  destruct (Hemb (DocumentChunker.content chunk)) as [embedding ->].
  destruct (Hpath (knowledge_base_path self ++ str "/" ++ safe_title_of E title
                   ++ str "/chunk_" ++ format_03d i ++ str ".md"))
    as [path ->].
  cbn [alloc fst snd].
  match goal with |- context [json_dumps E ?d] =>
    destruct (Hdump d) as [dumped ->] end.
  cbn [mbind py_mbind Py.bind]. apply Hins.
Qed.

Lemma store_chunks_ids h title source i chunks chunk_ids :
  exists new,
    (store_chunks E self h title source i chunks chunk_ids).2
    = chunk_ids ++ new /\
    (length new <= length chunks)%nat /\
    (store_rejects_inserts E -> new = []) /\
    (ingestion_backends_work E -> length new = length chunks).
Proof.
  revert h i chunk_ids.
  induction chunks as [|chunk chunks IH]; intros h i chunk_ids.
  { exists []. simpl. by rewrite app_nil_r. }
  simpl.
  pose proof (store_chunk_rejected h title source i chunk) as Hrej.
  pose proof (store_chunk_stored h title source i chunk) as Hsto.
  destruct (store_chunk E self h title source i chunk) as [h1 r].
  simpl in Hrej, Hsto. destruct r as [id|e].
  - destruct (IH h1 (i + 1) (chunk_ids ++ [id])) as (new & -> & Hlen & Hr & Hs).
    exists (id :: new). split_and!.
    + by rewrite <- app_assoc.
    + simpl. lia.
    + intros H. destruct (Hrej H) as [e He]. discriminate.
    + intros H. simpl. by rewrite (Hs H).
  - destruct (IH h1 (i + 1) chunk_ids) as (new & -> & Hlen & Hr & Hs).
    exists new. split_and!; [done | simpl; lia | done |].
    intros H. destruct (Hsto H) as [id Hid]. discriminate.
Qed.

Lemma deref_prefix (h h' : heap) (l : loc) :
  h `prefix_of` h' -> (l < length h)%nat -> deref h' l = deref h l.
Proof.
  intros [k ->] Hl. unfold deref. by rewrite lookup_app_l.
Qed.

Lemma chunk_document_metadata_valid fuel chunker0 h text md0 h' chunks :
  DocumentChunker.chunk_document fuel chunker0 h text md0 = (h', Some chunks) ->
  Forall (fun c => (DocumentChunker.metadata c < length h')%nat) chunks.
Proof.
  intros Hrun.
  destruct (Z_lt_le_dec (DocumentChunker.chunk_size chunker0)
              (len (DocumentChunker._clean_content text))) as [Hlong|Hshort].
  - destruct (chunk_document_long_spec chunker0 _ _ _ _ _ _ Hlong Hrun)
      as (ws & _ & _ & _ & Hk).
    apply Forall_lookup. intros k c Hc.
    destruct (Hk k c Hc) as (w & _ & _ & _ & _ & _ & _ & Hlook & _).
    by eapply lookup_lt_Some.
  - apply Z.leb_le in Hshort. unfold DocumentChunker.chunk_document in Hrun.
    destruct (or_empty_dict_valid h md0) as [Hmd _].
    destruct (or_empty_dict h md0) as [h1 md]. cbn [fst snd] in Hmd.
    rewrite Hshort in Hrun. injection Hrun as <- <-.
    by repeat constructor.
Qed.

Lemma store_chunk_outcome h title source i chunk :
  (store_chunk E self h title source i chunk).2
  = chunk_outcome E self (deref h (DocumentChunker.metadata chunk))
                  title source i chunk.
Proof.
  unfold store_chunk, chunk_outcome, chunk_path_of, chunk_request.
  destruct (embed_text E _) as [embedding|e]; [|done].
  cbn [mbind py_mbind Py.bind].
  destruct (ValidatedPath E _) as [path|e]; [|done].
  cbn [mbind py_mbind Py.bind alloc fst snd].
  assert (Hd : deref
                 (alter (fun d => <[str "embedding" := PList (PFloat <$> embedding)]> d)
                        (length h) (h ++ [deref h (DocumentChunker.metadata chunk)]))
                 (length h)
               = <[str "embedding" := PList (PFloat <$> embedding)]>
                   (deref h (DocumentChunker.metadata chunk))).
  { unfold deref at 1.
    rewrite <- (Nat.add_0_r (length h)) at 1 2.
    rewrite alter_app_r, lookup_app_r by lia.
    replace (length h + 0 - length h)%nat with 0%nat by lia. done. }
  by rewrite Hd.
Qed.

(** The loop over the chunks takes every chunk on its own: what an earlier
    chunk did, or failed to do, changes neither the number nor the metadata
    of a later one. *)
Lemma store_chunks_spec h0 h title source (n : nat) chunks chunk_ids :
  h0 `prefix_of` h ->
  Forall (fun c => (DocumentChunker.metadata c < length h0)%nat) chunks ->
  (store_chunks E self h title source (Z.of_nat n) chunks chunk_ids).2
  = chunk_ids
    ++ omap id
         (imap (fun k chunk =>
                  stored_id (chunk_outcome E self
                               (deref h0 (DocumentChunker.metadata chunk))
                               title source (Z.of_nat (n + k)) chunk))
               chunks).
Proof.
  revert h n chunk_ids.
  induction chunks as [|chunk chunks IH]; intros h n chunk_ids Hpre Hvalid.
  { simpl. by rewrite app_nil_r. }
  apply Forall_cons in Hvalid as [Hc Hvalid].
  cbn [store_chunks].
  pose proof (store_chunk_outcome h title source (Z.of_nat n) chunk) as Hout.
  pose proof (store_chunk_prefix E self h title source (Z.of_nat n) chunk)
    as Hgrow.
  destruct (store_chunk E self h title source (Z.of_nat n) chunk) as [h1 r].
  cbn [fst snd] in Hout, Hgrow.
  rewrite (deref_prefix h0 h _ Hpre Hc) in Hout.
  replace (Z.of_nat n + 1) with (Z.of_nat (S n)) by lia.
  rewrite IH by (by etrans || done).
  rewrite imap_cons. cbn [omap list_omap]. rewrite Nat.add_0_r, <- Hout.
  assert (Hext : imap (fun k chunk0 =>
                         stored_id (chunk_outcome E self
                                      (deref h0 (DocumentChunker.metadata chunk0))
                                      title source (Z.of_nat (S n + k)) chunk0))
                      chunks
                 = imap ((fun k chunk0 =>
                            stored_id (chunk_outcome E self
                                         (deref h0 (DocumentChunker.metadata chunk0))
                                         title source (Z.of_nat (n + k)) chunk0))
                         ∘ S) chunks).
  { apply imap_ext. intros k c _. simpl. by rewrite Nat.add_succ_r. }
  rewrite <- Hext.
  destruct r as [chunk_id|e]; cbn [stored_id id]; [|done].
  by rewrite <- app_assoc.
Qed.

(** X21. [ingest_document] returns the ids of the chunks that were stored,
    and nothing else. Whenever the chunker returns, the call returns, for
    the chunks in their order, the id the store gave to each chunk whose
    embedding, path validation, metadata serialisation and insert all went
    through; a chunk on which one of these raises is left out and the
    chunks after it are still processed, under their own numbers. So the
    list is no longer than the list of chunks, empty when the store takes
    no insert, and has one id per chunk when every step succeeds. When the
    chunker does not return, neither does the call. *)
Theorem ingest_returns_ids_of_stored_chunks (fuel : nat) (h : heap)
    (title content : pystr) (source : option pystr) (metadata : option loc) :
  (forall chunks,
     ingest_chunks E self fuel h content source metadata = Some chunks ->
     exists ids,
       (ingest_document E self fuel h title content source metadata).2
       = Some ids /\
       ids = stored_ids E self
               (ingest_heap E self fuel h content source metadata)
               title source chunks /\
       len ids <= len chunks /\
       (store_rejects_inserts E -> ids = []) /\
       (ingestion_backends_work E -> len ids = len chunks)) /\
  (ingest_chunks E self fuel h content source metadata = None ->
   (ingest_document E self fuel h title content source metadata).2 = None).
Proof.
  unfold ingest_chunks, ingest_heap, ingest_document.
  destruct (or_empty_dict h metadata) as [h1 md].
  destruct (DocumentChunker.chunk_document _ _ _ _ _) as [h2 [chunks|]] eqn:Hrun;
    cbn [fst snd]; split; try discriminate; try done.
  intros ? [= <-].
  pose proof (chunk_document_metadata_valid _ _ _ _ _ _ _ Hrun) as Hvalid.
  pose proof (store_chunks_spec h2 h2 title source 0 chunks []
                (reflexivity _) Hvalid) as Hspec.
  destruct (store_chunks_ids h2 title source 0 chunks [])
    as (new & Hids & Hlen & Hr & Hs).
  change (Z.of_nat 0) with 0 in Hspec.
  destruct (store_chunks E self h2 title source 0 chunks []) as [h3 ids].
  cbn [fst snd] in Hspec, Hids. simpl in Hids, Hspec.
  assert (Hn : new = ids) by done. subst new. exists ids.
  split_and!; [reflexivity | exact Hspec | unfold len; lia | done |].
  intros H. unfold len. by rewrite (Hs H).
Qed.

(** X22. What ingestion writes is what retrieval and the statistics read.
    When the embedding, the path and the serialisation of a chunk succeed,
    the insert request carries exactly the tags [knowledge-base], [chunk],
    [source:<source or unknown>] and [metadata:<dumped>]; and for any
    document the store gives back with these tags, the statistics see the
    one source name [source or 'unknown'], and the similarity search decodes
    exactly the text [dumped] that was serialised. *)
Theorem stored_chunk_is_read_back (h : heap) (title : pystr)
    (source : option pystr) (i : Z) (chunk : DocumentChunker.chunk)
    (embedding : list float) (path dumped : pystr) :
  embed_text E (DocumentChunker.content chunk) = Ok embedding ->
  ValidatedPath E (chunk_path_of E self title i) = Ok path ->
  json_dumps E (<[str "embedding" := PList (PFloat <$> embedding)]>
                  (deref h (DocumentChunker.metadata chunk))) = Ok dumped ->
  exists ops,
    (store_chunk E self h title source i chunk).2 = insert_with_builder E ops /\
    builder_tags ops = ingest_tags source dumped /\
    forall doc qe,
      doc_tags doc = Some (builder_tags ops) ->
      source_names [doc] = [source_or_unknown source] /\
      score_chunk E qe doc = score_with_metadata E qe doc dumped.
Proof.
  intros Hemb Hpath Hdump. unfold store_chunk.
  rewrite Hemb. unfold chunk_path_of in Hpath. rewrite Hpath.
  cbn [alloc fst snd].
  assert (Hd : deref
                 (alter (fun d => <[str "embedding" := PList (PFloat <$> embedding)]> d)
                        (length h) (h ++ [deref h (DocumentChunker.metadata chunk)]))
                 (length h)
               = <[str "embedding" := PList (PFloat <$> embedding)]>
                   (deref h (DocumentChunker.metadata chunk))).
  { unfold deref at 1.
    rewrite <- (Nat.add_0_r (length h)) at 1 2.
    rewrite alter_app_r, lookup_app_r by lia.
    replace (length h + 0 - length h)%nat with 0%nat by lia. done. }
  rewrite Hd, Hdump. cbn [mbind py_mbind Py.bind].
  eexists. split; [reflexivity|]. split; [reflexivity|].
  intros doc qe Htags.
  change (builder_tags _) with (ingest_tags source dumped) in Htags.
  assert (Hm1 : startswith (str "knowledge-base") (str "metadata:") = false)
    by (vm_compute; reflexivity).
  assert (Hm2 : startswith (str "chunk") (str "metadata:") = false)
    by (vm_compute; reflexivity).
  assert (Hm3 : startswith (str "source:" ++ source_or_unknown source)
                           (str "metadata:") = false).
  { apply (startswith_other_head 115 109 (str "etadata:") _ []). done. }
  assert (Hm4 : startswith (str "metadata:" ++ dumped) (str "metadata:") = true)
    by apply startswith_app.
  assert (Hs1 : startswith (str "knowledge-base") (str "source:") = false)
    by (vm_compute; reflexivity).
  assert (Hs2 : startswith (str "chunk") (str "source:") = false)
    by (vm_compute; reflexivity).
  assert (Hs3 : startswith (str "source:" ++ source_or_unknown source)
                           (str "source:") = true)
    by apply startswith_app.
  assert (Hs4 : startswith (str "metadata:" ++ dumped) (str "source:") = false).
  { apply (startswith_other_head 109 115 (str "ource:") _ []). done. }
  split.
  - unfold source_names. cbn [mbind list_bind mjoin]. rewrite Htags.
    unfold ingest_tags, source_of_tag. cbn [default]. unfold id.
    cbn [omap list_omap]. rewrite Hs1, Hs2, Hs3, Hs4.
    change 7 with (len (str "source:")). rewrite slice_from_app.
    by rewrite app_nil_r.
  - unfold score_chunk, score_with_metadata. rewrite Htags.
    unfold ingest_tags. cbn [default]. unfold id.
    rewrite filter_cons_False by (rewrite Hm1; done).
    rewrite filter_cons_False by (rewrite Hm2; done).
    rewrite filter_cons_False by (rewrite Hm3; done).
    rewrite filter_cons_True by done.
    change 9 with (len (str "metadata:")). by rewrite slice_from_app.
Qed.

Lemma safe_title_char (c : N) :
  safe_char E (if is_word E c || (c =? 45)%N || (c =? 95)%N then c else 95%N)
  = true.
Proof.
  unfold safe_char.
  destruct (is_word E c || (c =? 45)%N || (c =? 95)%N) eqn:Hc; [done|].
  by rewrite orb_true_r.
Qed.

(** X23. The directory name [ingest_document] derives from a title has the
    title's length, holds only word characters, [-] and [_], is left
    unchanged by a second substitution, and equals the title when the title
    holds only such characters. Where [/] is not a word character the name
    has no [/] and so adds no path component. *)
Theorem safe_title_is_one_path_component (title : pystr) :
  len (safe_title_of E title) = len title /\
  Forall (fun c => safe_char E c = true) (safe_title_of E title) /\
  safe_title_of E (safe_title_of E title) = safe_title_of E title /\
  (Forall (fun c => safe_char E c = true) title ->
   safe_title_of E title = title) /\
  (is_word E 47 = false -> 47%N ∉ safe_title_of E title).
Proof.
  assert (Hall : Forall (fun c => safe_char E c = true) (safe_title_of E title)).
  { unfold safe_title_of. apply Forall_fmap, Forall_true.
    intros c. apply safe_title_char. }
  assert (Hid : forall s, Forall (fun c => safe_char E c = true) s ->
                          safe_title_of E s = s).
  { intros s Hs. unfold safe_title_of.
    induction Hs as [|c s Hc Hs IH]; [done|].
    rewrite fmap_cons, IH. unfold safe_char in Hc. by rewrite Hc. }
  split_and!.
  - unfold safe_title_of, len. by rewrite length_fmap.
  - exact Hall.
  - by apply Hid.
  - apply Hid.
  - intros Hw Hin. rewrite Forall_forall in Hall.
    specialize (Hall _ Hin). unfold safe_char in Hall.
    rewrite Hw in Hall. discriminate.
Qed.

End ingestion_facts.

Section ingestion_extra_scenarios.

Import RAGPipeline.

Lemma stored_chunk_is_read_back_witness :
  let E := env_with_store [] in
  let chunk := DocumentChunker.mk_chunk (str "KotaDB is fast.") 0%nat 0 1 in
  let h : heap := [∅] in
  embed_text E (DocumentChunker.content chunk) = Ok [1%float] /\
  ValidatedPath E (chunk_path_of E default_pipeline (str "Note") 0)
  = Ok (chunk_path_of E default_pipeline (str "Note") 0) /\
  json_dumps E (<[str "embedding" := PList (PFloat <$> [1%float])]>
                  (deref h (DocumentChunker.metadata chunk))) = Ok (str "{}") /\
  exists ops,
    (store_chunk E default_pipeline h (str "Note") (Some (str "docs")) 0 chunk).2
    = insert_with_builder E ops /\
    builder_tags ops = ingest_tags (Some (str "docs")) (str "{}") /\
    forall doc qe,
      doc_tags doc = Some (builder_tags ops) ->
      source_names [doc] = [source_or_unknown (Some (str "docs"))] /\
      score_chunk E qe doc = score_with_metadata E qe doc (str "{}").
Proof.
  intros E chunk h.
  split; [reflexivity|]. split; [reflexivity|]. split; [reflexivity|].
  apply (stored_chunk_is_read_back E default_pipeline h (str "Note")
           (Some (str "docs")) 0 chunk [1%float]
           (chunk_path_of E default_pipeline (str "Note") 0) (str "{}")
           eq_refl eq_refl eq_refl).
Defined.

Lemma safe_title_is_one_path_component_witness :
  let E := env_with_ascii_words [] in
  let title := str "a/b c-d" in
  len (safe_title_of E title) = len title /\
  Forall (fun c => safe_char E c = true) (safe_title_of E title) /\
  safe_title_of E (safe_title_of E title) = safe_title_of E title /\
  (Forall (fun c => safe_char E c = true) title ->
   safe_title_of E title = title) /\
  (is_word E 47 = false -> 47%N ∉ safe_title_of E title).
Proof.
  intros E title. apply (safe_title_is_one_path_component E title).
Defined.

Example safe_title_of_example :
  safe_title_of (env_with_ascii_words []) (str "a/b c-d") = str "a_b_c-d".
Proof. vm_compute. reflexivity. Qed.

Lemma ingest_returns_ids_of_stored_chunks_witness :
  let E := env_with_flaky_embedder in
  ingest_chunks E small_pipeline 30 [] three_sentences None None
  = Some cats_chunks /\
  (exists e, embed_text E (str "own. They purred a l") = Raise e) /\
  (ingest_document E small_pipeline 30 [] (str "Cats") three_sentences
     None None).2
  = Some [str "/knowledge/Cats/chunk_000.md";
          str "/knowledge/Cats/chunk_002.md";
          str "/knowledge/Cats/chunk_003.md"].
Proof.
  intros E.
  assert (Hc : ingest_chunks E small_pipeline 30 [] three_sentences None None
               = Some cats_chunks) by (vm_compute; reflexivity).
  assert (Hs : stored_ids E small_pipeline
                 (ingest_heap E small_pipeline 30 [] three_sentences None None)
                 (str "Cats") None cats_chunks
               = [str "/knowledge/Cats/chunk_000.md";
                  str "/knowledge/Cats/chunk_002.md";
                  str "/knowledge/Cats/chunk_003.md"])
    by (vm_compute; reflexivity).
  split; [exact Hc|]. split; [by eexists|].
  destruct (proj1 (ingest_returns_ids_of_stored_chunks E small_pipeline 30 []
                     (str "Cats") three_sentences None None) cats_chunks Hc)
    as (ids & Hids & Heq & _).
  rewrite Hids, Heq, Hs. reflexivity.
Defined.

Lemma full_store_ingests_nothing :
  (ingest_document (env_with_full_store []) default_pipeline 10 []
     (str "Note") (str "KotaDB is fast.") (Some (str "docs")) None).2
  = Some [].
Proof. vm_compute. reflexivity. Qed.

End ingestion_extra_scenarios.

(* ===================================================================== *)
(** ** EmbeddingProvider *)
(* ===================================================================== *)

Section provider_facts.

Import EmbeddingProvider.

Context {vectorizer : Type}.
Variable B : backends vectorizer.

Lemma embed_texts_fitted (self : t vectorizer) (texts : list pystr) v :
  tfidf self = Some (v, true) ->
  embed_texts B self texts
  = (self, if batches_with_tfidf B self then transform B v texts
           else embed_each B self texts).
Proof.
  intros Hv. unfold embed_texts, batches_with_tfidf, _tfidf_embed_batch.
  destruct (bool_decide _ && HAS_SKLEARN B); [|done].
  by rewrite Hv.
Qed.

Lemma embed_batches_fitted (self : t vectorizer)
    (batches : list (list pystr)) (v : vectorizer) :
  tfidf self = Some (v, true) ->
  (embed_batches B self batches).1 = self /\
  (batches_with_tfidf B self = true ->
   (embed_batches B self batches).2 = transform B v <$> batches).
Proof.
  intros Hv. induction batches as [|texts batches [IH1 IH2]]; [done|].
  cbn [embed_batches]. rewrite (embed_texts_fitted self texts v Hv).
  destruct (embed_batches B self batches) as [self' rs].
  cbn [fst snd] in *. split; [done|].
  intros Hb. rewrite Hb. by rewrite (IH2 Hb).
Qed.

(** X24. A fitted vectorizer is never fitted again: whatever batches are
    embedded afterwards, the calls of [embed_texts] leave the provider as
    it was, and a provider that takes the batch path answers every batch
    with [transform] of that one vectorizer. *)
Theorem fitted_vectorizer_is_kept (self : t vectorizer)
    (batches : list (list pystr)) (v : vectorizer) :
  tfidf self = Some (v, true) ->
  (embed_batches B self batches).1 = self /\
  (batches_with_tfidf B self = true ->
   (embed_batches B self batches).2 = transform B v <$> batches).
Proof. apply embed_batches_fitted. Qed.

(** X25. The first batch decides the fit: an unfitted provider on the batch
    path hands the batch to [fit_transform]; when that succeeds the provider
    holds the vectorizer it returned, marked fitted, and every later batch
    is answered by [transform] of it; when it raises the provider stays
    unfitted. *)
Theorem first_batch_fits_vectorizer (self : t vectorizer)
    (texts : list pystr) (batches : list (list pystr)) (v : vectorizer) :
  tfidf self = Some (v, false) ->
  batches_with_tfidf B self = true ->
  let v' := (fit_transform B v texts).1 in
  let r := (fit_transform B v texts).2 in
  (embed_texts B self texts).2 = r /\
  (forall vectors, r = Ok vectors ->
     tfidf (embed_texts B self texts).1 = Some (v', true) /\
     (embed_batches B self (texts :: batches)).2
     = Ok vectors :: (transform B v' <$> batches)) /\
  (forall e, r = Raise e ->
     tfidf (embed_texts B self texts).1 = Some (v', false)).
Proof.
  intros Hv Hb v' r. subst v' r.
  assert (Hstep : embed_texts B self texts
                  = match fit_transform B v texts with
                    | (v', Ok vectors) =>
                        (mk (provider self) (model self) (Some (v', true)),
                         Ok vectors)
                    | (v', Raise e) =>
                        (mk (provider self) (model self) (Some (v', false)),
                         Raise e)
                    end).
  { unfold embed_texts, _tfidf_embed_batch.
    unfold batches_with_tfidf in Hb. by rewrite Hb, Hv. }
  cbn [embed_batches]. rewrite Hstep.
  destruct (fit_transform B v texts) as [v' [vectors|e]]; cbn [fst snd].
  - split_and!; [done| |discriminate].
    intros ? [= <-]. split; [done|].
    set (self' := mk _ _ _).
    assert (Hk : tfidf self' = Some (v', true)) by done.
    assert (Hb' : batches_with_tfidf B self' = true) by exact Hb.
    pose proof (embed_batches_fitted self' batches v' Hk) as HK.
    destruct (embed_batches B self' batches) as [self'' rs].
    cbn [fst snd] in *. by rewrite (proj2 HK Hb').
  - split_and!; [done|discriminate|done].
Qed.

(** X26. Without the OpenAI module a pipeline embeds every single text with
    the mock embedding: its provider is ["tfidf"], [embed_text] never fits
    the vectorizer, and an unfitted or absent vectorizer means
    [_mock_embed]. *)
Theorem offline_pipeline_embeds_with_mock (text : pystr) :
  HAS_OPENAI B = false ->
  embed_text B (pipeline_embedder B) text = _mock_embed B text.
Proof.
  intros Hno. unfold pipeline_embedder. rewrite Hno. cbv iota.
  assert (H1 : bool_decide (str "tfidf" = str "openai") = false)
    by (vm_compute; reflexivity).
  assert (H2 : bool_decide (str "tfidf" = str "tfidf") = true)
    by (by apply bool_decide_eq_true_2).
  unfold __init__. rewrite H1, H2. cbn [andb].
  destruct (HAS_SKLEARN B) eqn:Hsk; unfold embed_text; cbn [provider];
    rewrite H1, H2, Hsk; cbn [andb]; [|done].
  unfold _tfidf_embed. cbn [tfidf negb]. done.
Qed.

(** X27. The OpenAI provider answers with the vector of the API call when
    the call succeeds and with the mock embedding of the text whenever the
    call raises. *)
Theorem openai_failure_falls_back_to_mock (self : t vectorizer) (text : pystr) :
  provider self = str "openai" ->
  HAS_OPENAI B = true ->
  (forall v, openai_embedding B text (model self) = Ok v ->
             embed_text B self text = Ok v) /\
  (forall e, openai_embedding B text (model self) = Raise e ->
             embed_text B self text = _mock_embed B text).
Proof.
  intros Hp Ho. unfold embed_text, _openai_embed.
  rewrite Hp, Ho, bool_decide_eq_true_2 by done. cbn [andb].
  split; intros x ->; done.
Qed.

Lemma embed_each_spec (self : t vectorizer) (texts : list pystr) :
  (forall vectors,
     embed_each B self texts = Ok vectors <->
     Forall2 (fun text vector => embed_text B self text = Ok vector)
             texts vectors) /\
  (forall e,
     embed_each B self texts = Raise e ->
     exists done text, done ++ [text] `prefix_of` texts /\
       embed_text B self text = Raise e /\
       Forall (fun t => exists v, embed_text B self t = Ok v) done).
Proof.
  induction texts as [|text texts [IHok IHe]].
  - split.
    + intros vectors. simpl. split.
      * intros [= <-]. constructor.
      * intros H. by inversion H.
    + intros e H. discriminate.
  - simpl. destruct (embed_text B self text) as [v|e0] eqn:Hv;
      cbn [mbind py_mbind Py.bind].
    + destruct (embed_each B self texts) as [vs|e1] eqn:Hvs;
        cbn [mbind py_mbind Py.bind].
      * split; [|discriminate]. intros vectors. split.
        -- intros [= <-]. constructor; [done|]. by apply IHok.
        -- intros H. inversion H as [|? w ? ws Hw Hws]; subst.
           rewrite Hv in Hw. injection Hw as <-.
           apply IHok in Hws. by injection Hws as <-.
      * split.
        -- intros vectors. split; [discriminate|].
           intros H. inversion H as [|? w ? ws Hw Hws]; subst.
           apply IHok in Hws. discriminate.
        -- intros e [= <-].
           destruct (IHe e1 eq_refl) as (dn & t0 & Hpre & Ht0 & Hdn).
           exists (text :: dn), t0. split_and!.
           ++ simpl. by apply prefix_cons.
           ++ done.
           ++ constructor; [by eexists | done].
    + split.
      * intros vectors. split; [discriminate|].
        intros H. inversion H as [|? w ? ws Hw Hws]; subst.
        rewrite Hv in Hw. discriminate.
      * intros e [= <-]. exists [], text. split_and!; [|done|constructor].
        simpl. apply prefix_cons, prefix_nil.
Qed.

(** X28. Off the batch path [embed_texts] embeds text by text: it leaves
    the provider as it was, returns vectors exactly when every text embeds,
    one vector per text in order, and otherwise raises what the first
    failing text raises. *)
Theorem embed_texts_elementwise (self : t vectorizer) (texts : list pystr) :
  batches_with_tfidf B self = false ->
  (embed_texts B self texts).1 = self /\
  (forall vectors,
     (embed_texts B self texts).2 = Ok vectors <->
     Forall2 (fun text vector => embed_text B self text = Ok vector)
             texts vectors) /\
  (forall e,
     (embed_texts B self texts).2 = Raise e ->
     exists done text, done ++ [text] `prefix_of` texts /\
       embed_text B self text = Raise e /\
       Forall (fun t => exists v, embed_text B self t = Ok v) done).
Proof.
  intros Hb. unfold embed_texts. unfold batches_with_tfidf in Hb.
  rewrite Hb. cbn [fst snd]. split; [done|]. apply embed_each_spec.
Qed.

(** X29. The mock embedding sees a text only through its hash modulo
    [2^31]: the seed is a valid 31-bit seed and two texts with the same
    seed get the same outcome. With numpy the call returns for every text:
    the 384 zeros when scikit-learn is absent, whatever the text, and the
    seeded normal sample when it is present. Without numpy every call
    raises. *)
Theorem mock_embedding_depends_on_seed (t1 t2 : pystr) :
  0 <= mock_seed B t1 < 2 ^ 31 /\
  (mock_seed B t1 = mock_seed B t2 -> _mock_embed B t1 = _mock_embed B t2) /\
  (forall normal, numpy_normal B = Some normal ->
     (HAS_SKLEARN B = false ->
      _mock_embed B t1 = Ok (replicate 384 0%float) /\
      _mock_embed B t2 = _mock_embed B t1) /\
     (HAS_SKLEARN B = true ->
      _mock_embed B t1 = Ok (normal (mock_seed B t1)))) /\
  (forall v, HAS_SKLEARN B = false -> _mock_embed B t1 = Ok v ->
     len v = 384 /\ Forall (fun x => x = 0%float) v) /\
  (numpy_normal B = None ->
   _mock_embed B t1 = Raise (str "NameError")).
Proof.
  unfold mock_seed, _mock_embed.
  split; [apply Z.mod_pos_bound; lia|]. split_and!.
  - by intros ->.
  - intros normal ->. split; by intros ->.
  - intros v -> Hv. destruct (numpy_normal B); [|discriminate].
    assert (v = replicate 384 0%float) as -> by congruence.
    split; [unfold len; by rewrite length_replicate|].
    by apply Forall_replicate.
  - by intros ->.
Qed.

End provider_facts.

Section provider_scenarios.

Import EmbeddingProvider.

Lemma fitted_vectorizer_is_kept_witness :
  let B := scenario_backends false true in
  let batches := [[str "a"; str "b"]; [str "c"]] in
  tfidf fitted_provider = Some ([str "first corpus"], true) /\
  batches_with_tfidf B fitted_provider = true /\
  (embed_batches B fitted_provider batches).1 = fitted_provider /\
  (embed_batches B fitted_provider batches).2
  = transform B [str "first corpus"] <$> batches.
Proof.
  intros B batches.
  assert (Hb : batches_with_tfidf B fitted_provider = true)
    by (vm_compute; reflexivity).
  split; [reflexivity|]. split; [exact Hb|].
  destruct (fitted_vectorizer_is_kept B fitted_provider batches
              [str "first corpus"] eq_refl) as [H1 H2].
  split; [exact H1 | exact (H2 Hb)].
Defined.

Lemma first_batch_fits_vectorizer_witness :
  let B := scenario_backends false true in
  let self := pipeline_embedder B in
  let texts := [str "a"; str "b"] in
  tfidf self = Some ([], false) /\
  batches_with_tfidf B self = true /\
  (fit_transform B [] texts).2 = Ok [[1%float]; [1%float]] /\
  tfidf (embed_texts B self texts).1 = Some (texts, true) /\
  (embed_batches B self [texts; [str "c"]]).2
  = [Ok [[1%float]; [1%float]]; Ok [[0%float]]].
Proof.
  intros B self texts.
  assert (Hv : tfidf self = Some ([], false)) by (vm_compute; reflexivity).
  assert (Hb : batches_with_tfidf B self = true) by (vm_compute; reflexivity).
  split; [exact Hv|]. split; [exact Hb|]. split; [reflexivity|].
  destruct (first_batch_fits_vectorizer B self texts [[str "c"]] [] Hv Hb)
    as (_ & Hok & _).
  destruct (Hok [[1%float]; [1%float]] eq_refl) as [H1 H2].
  split; [exact H1 | exact H2].
Defined.

Lemma offline_pipeline_embeds_with_mock_witness :
  let B := scenario_backends false true in
  HAS_OPENAI B = false /\
  embed_text B (pipeline_embedder B) (str "vector search")
  = _mock_embed B (str "vector search").
Proof.
  intros B. split; [reflexivity|].
  apply (offline_pipeline_embeds_with_mock B (str "vector search") eq_refl).
Defined.

Lemma openai_failure_falls_back_to_mock_witness :
  let B := scenario_backends true true in
  let self := pipeline_embedder B in
  provider self = str "openai" /\ HAS_OPENAI B = true /\
  openai_embedding B (str "vector") (model self)
  = Raise (str "AuthenticationError") /\
  embed_text B self (str "vector") = _mock_embed B (str "vector").
Proof.
  intros B self. split; [reflexivity|]. split; [reflexivity|].
  split; [reflexivity|].
  apply (proj2 (openai_failure_falls_back_to_mock B self (str "vector")
                  eq_refl eq_refl) (str "AuthenticationError") eq_refl).
Defined.

Lemma embed_texts_elementwise_witness :
  let B := scenario_backends false false in
  let self := pipeline_embedder B in
  let texts := [str "a"; str "b"] in
  batches_with_tfidf B self = false /\
  (embed_texts B self texts).1 = self /\
  exists vectors,
    (embed_texts B self texts).2 = Ok vectors /\
    Forall2 (fun text vector => embed_text B self text = Ok vector)
            texts vectors.
Proof.
  intros B self texts.
  assert (Hb : batches_with_tfidf B self = false) by (vm_compute; reflexivity).
  split; [exact Hb|].
  destruct (embed_texts_elementwise B self texts Hb) as (H1 & H2 & _).
  split; [exact H1|].
  eexists. split; [vm_compute; reflexivity|].
  apply H2. vm_compute. reflexivity.
Defined.

Lemma mock_embedding_depends_on_seed_witness :
  let B := scenario_backends false false in
  mock_seed B (str "ab") = mock_seed B (str "cd") /\
  numpy_normal B = Some (fun _ => [1%float]) /\ HAS_SKLEARN B = false /\
  _mock_embed B (str "ab") = _mock_embed B (str "cd") /\
  _mock_embed B (str "ab") = Ok (replicate 384 0%float).
Proof.
  intros B.
  assert (Hs : mock_seed B (str "ab") = mock_seed B (str "cd"))
    by (vm_compute; reflexivity).
  split; [exact Hs|]. split; [reflexivity|]. split; [reflexivity|].
  destruct (mock_embedding_depends_on_seed B (str "ab") (str "cd"))
    as (_ & Hsame & Hnumpy & _).
  split; [exact (Hsame Hs)|].
  exact (proj1 (proj1 (Hnumpy _ eq_refl) eq_refl)).
Defined.

End provider_scenarios.

Section further_scenarios.

Lemma clean_content_normal_form_witness :
  let cleaned := DocumentChunker._clean_content (str "  KotaDB   is fast.  ") in
  Forall (fun c => is_control c = false /\ (isspace c = true -> c = 32%N))
         cleaned /\
  head_not_space cleaned /\ last_not_space cleaned /\
  strip cleaned = cleaned.
Proof.
  intros cleaned.
  apply (clean_content_normal_form (str "  KotaDB   is fast.  ")).
Defined.

Lemma stats_never_raise_witness :
  let E := env_with_store three_stored_chunks in
  (exists results, RAGPipeline.query_with_builder E stats_query = Ok results) /\
  exists s, RAGPipeline.get_knowledge_base_stats E = Ok (Some s).
Proof.
  intros E.
  assert (Hq : exists results,
             RAGPipeline.query_with_builder E stats_query = Ok results)
    by (by eexists).
  split; [exact Hq|].
  destruct (stats_never_raise E) as (r & Hr & _ & Hsome).
  destruct (Hsome Hq) as [s ->]. by exists s.
Defined.

End further_scenarios.
